(** * GraphViewer: the plot renderer of [GraphViewer.cpp]

    A shallow embedding of the Direct2D function plotter: the coordinate
    transform [ComputePoint], the lazily created device resources, the
    redraw operation [OnRender], the resize handler and the window
    procedure, followed by the properties of the specification.

    Numbers are the program's own.  A C++ [double] is a primitive
    binary64 float of the kernel, so every arithmetic step rounds as the
    compiled program does.  A [FLOAT] (binary32) is carried by the double
    of the same value; narrowing rounds to the binary32 grid. *)

From Stdlib Require Import ZArith List Bool Lia Floats.
Import ListNotations.

Set Warnings "-inexact-float".
Local Open Scope Z_scope.

(** ** Numeric types *)

Module Num.

Definition double := float.

(** A binary32 value, stored in the double that equals it. *)
Definition FLOAT := float.

(** Rounding of a binary64 datum to binary32, nearest-even, with
    overflow to infinity and gradual underflow. *)
Definition SFnarrow (v : spec_float) : spec_float :=
  match v with
  | S754_finite s m e => binary_round 24 128 s m e
  | _ => v
  end.

(** The binary64 datum of a binary32 one (exact). *)
Definition SFwiden (v : spec_float) : spec_float :=
  match v with
  | S754_finite s m e => binary_round prec emax s m e
  | _ => v
  end.

(** [static_cast<FLOAT>(d)] *)
Definition to_FLOAT (d : double) : FLOAT :=
  SF2Prim (SFwiden (SFnarrow (Prim2SF d))).

(** A double is a FLOAT when narrowing leaves it alone. *)
Definition is_FLOAT (d : double) : Prop := to_FLOAT d = d.

(** [(double)x] for a 32-bit [int] (exact). *)
Definition double_of_int (n : Z) : double :=
  if n <? 0 then (- of_uint63 (Uint63.of_Z (- n)))%float
  else of_uint63 (Uint63.of_Z n).

(** [static_cast<FLOAT>(x)] for an [int]: one rounding, to binary32. *)
Definition FLOAT_of_int (n : Z) : FLOAT := to_FLOAT (double_of_int n).

(** A [UINT32] pixel count as a FLOAT. *)
Definition FLOAT_of_UINT32 (n : Z) : FLOAT := to_FLOAT (of_uint63 (Uint63.of_Z n)).

Definition INT_MIN : Z := -2147483648.
Definition INT_MAX : Z := 2147483647.

(** The float of an integer with a given sign (the sign matters at zero). *)
Definition SFofZ (s : bool) (n : Z) : spec_float :=
  match n with
  | Z0 => S754_zero s
  | Zpos p => binary_round prec emax s p 0
  | Zneg p => binary_round prec emax s p 0
  end.

(** [ceil] of the C library: the least integral value not below the
    argument; zeros, infinities and NaN are returned unchanged. *)
Definition SFceil (v : spec_float) : spec_float :=
  match v with
  | S754_finite s m e =>
      if 0 <=? e then v
      else
        let q := Z.shiftr (Zpos m) (- e) in
        if s then SFofZ true q
        else SFofZ false (if Zpos m =? Z.shiftl q (- e) then q else q + 1)
  | _ => v
  end.

Definition ceil (d : double) : double := SF2Prim (SFceil (Prim2SF d)).

(** Truncation toward zero of a finite datum. *)
Definition SFtrunc (v : spec_float) : option Z :=
  match v with
  | S754_zero _ => Some 0
  | S754_finite s m e =>
      let a := if 0 <=? e then Z.shiftl (Zpos m) e else Z.shiftr (Zpos m) (- e) in
      Some (if s then - a else a)
  | _ => None
  end.

(** [static_cast<int>(d)].  Outside the range of [int] (and for NaN) the
    C++ standard leaves the conversion undefined; the conversion
    instruction of the x86 targets this Windows program is built for
    yields [INT_MIN] there, and so does the model. *)
Definition to_int (d : double) : Z :=
  match SFtrunc (Prim2SF d) with
  | Some n => if (INT_MIN <=? n) && (n <=? INT_MAX) then n else INT_MIN
  | None => INT_MIN
  end.

End Num.
Export Num.

(** ** The function to plot *)

(** [struct InputFunction] *)
Record InputFunction := {
  func : double -> double;
  startX : double;
  endX : double;
  startY : double;
  endY : double
}.

(** [CreateInputFunction]; the sine of the C library is a parameter. *)
Definition CreateInputFunction (sin : double -> double) : InputFunction :=
  {| func := fun x => sin x;
     startX := 0%float; endX := 6%float;
     startY := (-1.5)%float; endY := 1.5%float |}.

(** ** Windows and Direct2D data *)

Definition HRESULT := Z.
Definition S_OK : HRESULT := 0.
Definition E_FAIL : HRESULT := -2147467259.             (* 0x80004005 *)
Definition E_POINTER : HRESULT := -2147467261.          (* 0x80004003 *)
Definition D2DERR_RECREATE_TARGET : HRESULT := -2003238900. (* 0x8899000C *)
Definition SUCCEEDED (hr : HRESULT) : bool := 0 <=? hr.
Definition FAILED (hr : HRESULT) : bool := hr <? 0.

Module POINT_2F.
Record t := mk { x : FLOAT; y : FLOAT }.
End POINT_2F.
Definition D2D1_POINT_2F := POINT_2F.t.
Definition Point2F := POINT_2F.mk.

Module SIZE_F.
Record t := mk { width : FLOAT; height : FLOAT }.
End SIZE_F.
Definition D2D1_SIZE_F := SIZE_F.t.
Definition SizeF := SIZE_F.mk.

Module SIZE_U.
Record t := mk { width : Z; height : Z }.
End SIZE_U.
Definition D2D1_SIZE_U := SIZE_U.t.
Definition SizeU := SIZE_U.mk.

(** The two members of [D2D1::ColorF::Enum] the program names. *)
Inductive ColorF := White | Red.

(** What the program can observe of its COM objects. *)
Record ID2D1Factory := { factory_type_single_threaded : unit }.
Record ID2D1SolidColorBrush := { brush_color : ColorF }.
Record ID2D1StrokeStyle := { stroke_style : unit }.

(** A window render target; [GetSize] reports [rt_size].  Direct2D counts
    in device-independent pixels: at the default 96 DPI these are the
    pixel counts handed to creation and to [Resize]. *)
Record ID2D1HwndRenderTarget := { rt_size : D2D1_SIZE_F }.

Definition SizeF_of_SizeU (s : D2D1_SIZE_U) : D2D1_SIZE_F :=
  SizeF (FLOAT_of_UINT32 (SIZE_U.width s)) (FLOAT_of_UINT32 (SIZE_U.height s)).

Definition GetSize (rt : ID2D1HwndRenderTarget) : D2D1_SIZE_F := rt_size rt.

(** ** The application object and its collaborators *)

Definition HWND := Z.

(** [class App]: a null pointer is [None]. *)
Record App := {
  m_inputFunction : InputFunction;
  m_hwnd : option HWND;
  m_pDirect2dFactory : option ID2D1Factory;
  m_pRenderTarget : option ID2D1HwndRenderTarget;
  m_pGraphLineBrush : option ID2D1SolidColorBrush
}.

Definition set_hwnd (h : option HWND) (a : App) : App :=
  {| m_inputFunction := m_inputFunction a; m_hwnd := h;
     m_pDirect2dFactory := m_pDirect2dFactory a;
     m_pRenderTarget := m_pRenderTarget a;
     m_pGraphLineBrush := m_pGraphLineBrush a |}.

Definition set_pDirect2dFactory (p : option ID2D1Factory) (a : App) : App :=
  {| m_inputFunction := m_inputFunction a; m_hwnd := m_hwnd a;
     m_pDirect2dFactory := p;
     m_pRenderTarget := m_pRenderTarget a;
     m_pGraphLineBrush := m_pGraphLineBrush a |}.

Definition set_pRenderTarget (p : option ID2D1HwndRenderTarget) (a : App) : App :=
  {| m_inputFunction := m_inputFunction a; m_hwnd := m_hwnd a;
     m_pDirect2dFactory := m_pDirect2dFactory a;
     m_pRenderTarget := p;
     m_pGraphLineBrush := m_pGraphLineBrush a |}.

Definition set_pGraphLineBrush (p : option ID2D1SolidColorBrush) (a : App) : App :=
  {| m_inputFunction := m_inputFunction a; m_hwnd := m_hwnd a;
     m_pDirect2dFactory := m_pDirect2dFactory a;
     m_pRenderTarget := m_pRenderTarget a;
     m_pGraphLineBrush := p |}.

(** The COM objects the program releases. *)
Inductive Resource := Direct2dFactory | RenderTarget | GraphLineBrush.

(** Calls that leave the program, in the order they are made: the plotted
    function, Direct2D, and the window system. *)
Inductive Call :=
| Eval_func (argX : double)
| D2D1CreateFactory
| CreateHwndRenderTarget (size : D2D1_SIZE_U)
| CreateSolidColorBrush (color : ColorF)
| Resize (size : D2D1_SIZE_U)
| BeginDraw
| SetTransform_Identity
| Clear (color : ColorF)
| DrawLine (point0 point1 : D2D1_POINT_2F)
    (brush : option ID2D1SolidColorBrush) (strokeWidth : FLOAT)
    (strokeStyle : option ID2D1StrokeStyle)
| EndDraw
| Release (r : Resource)
| RegisterClassEx
| CreateWindow (width height : Z)
| ShowWindow
| UpdateWindow
| ValidateRect
| InvalidateRect
| WriteToDebugConsole (hr : HRESULT)
| ReportWin32Error
| PostQuitMessage (code : Z)
| DefWindowProc (message : Z).

(** What the collaborators answer during one window message. *)
Record Host := {
  clientRect : D2D1_SIZE_U;               (* GetClientRect *)
  hrCreateHwndRenderTarget : HRESULT;
  hrCreateSolidColorBrush : HRESULT;
  hrEndDraw : HRESULT;
  lrDefWindowProc : Z
}.

(** *** Stateful code: the object, a result, the calls made *)

Definition Op (A : Type) : Type := App -> A * App * list Call.

Definition ret {A : Type} (a : A) : Op A := fun app => (a, app, []).

Definition bind {A B : Type} (c : Op A) (k : A -> Op B) : Op B :=
  fun app =>
    let '(a, app1, t1) := c app in
    let '(b, app2, t2) := k a app1 in
    (b, app2, t1 ++ t2).

Definition this : Op App := fun app => (app, app, []).
Definition assign (f : App -> App) : Op unit := fun app => (tt, f app, []).
Definition call (c : Call) : Op unit := fun app => (tt, app, [c]).
Definition calls (t : list Call) : Op unit := fun app => (tt, app, t).

Declare Scope op_scope.
Delimit Scope op_scope with op.
Notation "x <- c ;; k" := (bind c (fun x => k))
  (at level 61, c at next level, right associativity) : op_scope.
Notation "c ;; k" := (bind c (fun _ => k))
  (at level 61, right associativity) : op_scope.
Local Open Scope op_scope.

(** The release build of the macro [TRYRET]: leave with the code when it
    is a failure, go on otherwise. *)
Definition TRYRET (expr : Op HRESULT) (rest : Op HRESULT) : Op HRESULT :=
  hr <- expr ;; if FAILED hr then ret hr else rest.

Definition result {A : Type} (r : A * App * list Call) : A := fst (fst r).
Definition state {A : Type} (r : A * App * list Call) : App := snd (fst r).
Definition trace {A : Type} (r : A * App * list Call) : list Call := snd r.

(** [SafeRelease]: release a non-null pointer and null it. *)
Definition SafeRelease {I : Type} (r : Resource) (obj : option I) : option I * list Call :=
  match obj with
  | Some _ => (None, [Release r])
  | None => (None, [])
  end.

Definition SafeRelease_pDirect2dFactory : Op unit :=
  fun app =>
    let '(p, t) := SafeRelease Direct2dFactory (m_pDirect2dFactory app) in
    (tt, set_pDirect2dFactory p app, t).

Definition SafeRelease_pRenderTarget : Op unit :=
  fun app =>
    let '(p, t) := SafeRelease RenderTarget (m_pRenderTarget app) in
    (tt, set_pRenderTarget p app, t).

Definition SafeRelease_pGraphLineBrush : Op unit :=
  fun app =>
    let '(p, t) := SafeRelease GraphLineBrush (m_pGraphLineBrush app) in
    (tt, set_pGraphLineBrush p app, t).

(** [App::App] *)
Definition App_ctor (inputFunction : InputFunction) : App :=
  {| m_inputFunction := inputFunction; m_hwnd := None;
     m_pDirect2dFactory := None; m_pRenderTarget := None;
     m_pGraphLineBrush := None |}.

(** [App::~App] *)
Definition App_dtor : Op unit :=
  SafeRelease_pDirect2dFactory ;;
  SafeRelease_pRenderTarget ;;
  SafeRelease_pGraphLineBrush.

(** What the system answers while the window is being set up. *)
Record Startup := {
  hrD2D1CreateFactory : HRESULT;
  atomRegisterClassEx : Z;
  desktopDpi : FLOAT * FLOAT;               (* GetDesktopDpi *)
  hwndCreateWindow : option HWND
}.

(** [App::Initialize] *)
Definition Initialize (sys : Startup) : Op HRESULT :=
  TRYRET
    (call D2D1CreateFactory ;;
     if FAILED (hrD2D1CreateFactory sys) then ret (hrD2D1CreateFactory sys)
     else
       assign (set_pDirect2dFactory (Some {| factory_type_single_threaded := tt |})) ;;
       ret (hrD2D1CreateFactory sys))
    (call RegisterClassEx ;;
     if atomRegisterClassEx sys =? 0 then
       call ReportWin32Error ;; ret E_FAIL
     else
       let '(dpiX, dpiY) := desktopDpi sys in
       call (CreateWindow
               (to_int (to_FLOAT (to_FLOAT (640 * dpiX) / 96)%float))
               (to_int (to_FLOAT (to_FLOAT (480 * dpiY) / 96)%float))) ;;
       assign (set_hwnd (hwndCreateWindow sys)) ;;
       match hwndCreateWindow sys with
       | None => call ReportWin32Error ;; ret E_FAIL
       | Some _ => call ShowWindow ;; call UpdateWindow ;; ret S_OK
       end).

(** ** Device resources *)

(** [m_pDirect2dFactory->CreateHwndRenderTarget(.., &m_pRenderTarget)] on
    the client rectangle.  A failing creation leaves the pointer null. *)
Definition factory_CreateHwndRenderTarget (host : Host) : Op HRESULT :=
  let size := clientRect host in
  call (CreateHwndRenderTarget size) ;;
  if FAILED (hrCreateHwndRenderTarget host) then ret (hrCreateHwndRenderTarget host)
  else
    assign (set_pRenderTarget (Some {| rt_size := SizeF_of_SizeU size |})) ;;
    ret (hrCreateHwndRenderTarget host).

(** [m_pRenderTarget->CreateSolidColorBrush(color, &m_pGraphLineBrush)] *)
Definition target_CreateSolidColorBrush (host : Host) (color : ColorF) : Op HRESULT :=
  call (CreateSolidColorBrush color) ;;
  if FAILED (hrCreateSolidColorBrush host) then ret (hrCreateSolidColorBrush host)
  else
    assign (set_pGraphLineBrush (Some {| brush_color := color |})) ;;
    ret (hrCreateSolidColorBrush host).

(** [App::CreateDeviceResources] *)
Definition CreateDeviceResources (host : Host) : Op HRESULT :=
  TRYRET
    (app <- this ;;
     match m_pRenderTarget app with
     | None => factory_CreateHwndRenderTarget host
     | Some _ => ret S_OK
     end)
    (TRYRET
       (app <- this ;;
        match m_pGraphLineBrush app with
        | None => target_CreateSolidColorBrush host Red
        | Some _ => ret S_OK
        end)
       (ret S_OK)).

(** [App::OnResize] *)
Definition OnResize (width height : Z) : Op unit :=
  app <- this ;;
  match m_pRenderTarget app with
  | Some _ =>
      call (Resize (SizeU width height)) ;;
      assign (set_pRenderTarget (Some {| rt_size := SizeF_of_SizeU (SizeU width height) |}))
  | None => ret tt
  end.

(** ** The coordinate transform *)

Local Open Scope float_scope.

(** The argument handed to the plotted function for pixel column [x]. *)
Definition ComputePoint_argX (inputFunction : InputFunction) (size : D2D1_SIZE_F) (x : Z) : double :=
  (double_of_int x / SIZE_F.width size)
    * (endX inputFunction - startX inputFunction)
    + startX inputFunction.

(** The screen ordinate of a function value. *)
Definition ComputePoint_y (inputFunction : InputFunction) (size : D2D1_SIZE_F) (value : double) : double :=
  SIZE_F.height size
    - SIZE_F.height size * (
        (value - startY inputFunction)
        / (endY inputFunction - startY inputFunction)
      ).

(** [ComputePoint]: the point of column [x], and the call of the plotted
    function it makes. *)
Definition ComputePoint (inputFunction : InputFunction) (size : D2D1_SIZE_F) (x : Z)
  : D2D1_POINT_2F * list Call :=
  let argX := ComputePoint_argX inputFunction size x in
  let value := func inputFunction argX in
  let y := ComputePoint_y inputFunction size value in
  (Point2F (FLOAT_of_int x) (to_FLOAT y), [Eval_func argX]).

Local Close Scope float_scope.

(** ** Redraw *)

(** The body of [for (int x = 1; x <= maxX; x++)], unrolled at most
    [fuel] times. *)
Fixpoint DrawLoop (fuel : nat) (inputFunction : InputFunction) (rtSize : D2D1_SIZE_F)
  (brush : option ID2D1SolidColorBrush) (x maxX : Z) (prevPoint : D2D1_POINT_2F)
  : list Call :=
  match fuel with
  | O => []
  | S fuel' =>
      if x <=? maxX then
        let '(p, t) := ComputePoint inputFunction rtSize x in
        t ++ DrawLine prevPoint p brush 2%float None
          :: DrawLoop fuel' inputFunction rtSize brush (x + 1) maxX p
      else []
  end.

(** [App::OnRender].  The source writes [hr = S_OK();] on the stale path,
    which is read as the assignment of [S_OK]. *)
Definition OnRender (host : Host) : Op HRESULT :=
  TRYRET (CreateDeviceResources host)
    (app <- this ;;
     match m_pRenderTarget app with
     | None => ret E_POINTER   (* not reached, see [CreateDeviceResources_ready] *)
     | Some rt =>
         call BeginDraw ;;
         call SetTransform_Identity ;;
         call (Clear White) ;;
         let rtSize := GetSize rt in
         let '(prevPoint, t0) := ComputePoint (m_inputFunction app) rtSize 0 in
         calls t0 ;;
         let maxX := to_int (ceil (SIZE_F.width rtSize)) in
         calls (DrawLoop (Z.to_nat maxX) (m_inputFunction app) rtSize
                  (m_pGraphLineBrush app) 1 maxX prevPoint) ;;
         call EndDraw ;;
         let hr := hrEndDraw host in
         if hr =? D2DERR_RECREATE_TARGET then
           SafeRelease_pRenderTarget ;;
           SafeRelease_pGraphLineBrush ;;
           ret S_OK
         else ret hr
     end).

(** ** The window procedure *)

Definition WM_DESTROY : Z := 2.
Definition WM_SIZE : Z := 5.
Definition WM_PAINT : Z := 15.
Definition WM_DISPLAYCHANGE : Z := 126.
Definition LOWORD (l : Z) : Z := Z.land l 65535.
Definition HIWORD (l : Z) : Z := Z.land (Z.shiftr l 16) 65535.

(** [App::WndProcCore] *)
Definition WndProcCore (host : Host) (message wParam lParam : Z) : Op Z :=
  if message =? WM_SIZE then
    OnResize (LOWORD lParam) (HIWORD lParam) ;; ret 0
  else if message =? WM_DISPLAYCHANGE then
    call InvalidateRect ;; ret 0
  else if message =? WM_PAINT then
    renderResult <- OnRender host ;;
    (if SUCCEEDED renderResult then call ValidateRect
     else call (WriteToDebugConsole renderResult)) ;;
    ret 0
  else if message =? WM_DESTROY then
    call (PostQuitMessage 0) ;; ret 1
  else
    call (DefWindowProc message) ;; ret (lrDefWindowProc host).

(** ** The message loop *)

(** [MSG], as far as the program reads it or hands it on. *)
Module MSG.
Record t := mk { hwnd : option HWND; message : Z; wParam : Z; lParam : Z }.
End MSG.

(** The calls of the loop. *)
Inductive PumpCall :=
| GetMessage
| TranslateMessage (msg : MSG.t)
| DispatchMessage (msg : MSG.t).

(** [static_cast<int>] of a [WPARAM]: its low 32 bits, read as a signed
    number. *)
Definition int_of_WPARAM (w : Z) : Z :=
  let r := w mod 2 ^ 32 in
  if r <? 2 ^ 31 then r else r - 2 ^ 32.

(** [App::Run].  [answers] lists what [GetMessage] answers call after
    call: the [BOOL] it returns and the message it stores.  The loop goes
    on while the answer is not zero; when the answers run out,
    [GetMessage] does not return and neither does [Run]. *)
Fixpoint Run (answers : list (Z * MSG.t)) : option (Z * list PumpCall) :=
  match answers with
  | [] => None
  | (b, msg) :: rest =>
      if b =? 0 then Some (int_of_WPARAM (MSG.wParam msg), [GetMessage])
      else
        match Run rest with
        | Some (code, t) =>
            Some (code, GetMessage :: TranslateMessage msg :: DispatchMessage msg :: t)
        | None => None
        end
  end.

(** ** The window procedure of the class *)

Definition WM_CREATE : Z := 1.

(** [App::WndProc].  The window keeps one pointer of user data, which in
    this program is null or the address of the [App] object handed to
    [CreateWindow]: a flag.  [lpCreateParams] is the pointer a
    [WM_CREATE] message carries in its [CREATESTRUCT].  The assertion on
    the window handle is compiled out of the release build.  The result
    pairs the [LRESULT] with the user data the window holds afterwards. *)
Definition WndProc (host : Host) (lpCreateParams : bool)
  (message wParam lParam : Z) (userData : bool) : Op (Z * bool) :=
  if message =? WM_CREATE then
    ret (1, lpCreateParams)
  else if userData then
    r <- WndProcCore host message wParam lParam ;; ret (r, userData)
  else
    call (DefWindowProc message) ;; ret (lrDefWindowProc host, userData).

(** ** The program *)

(** The calls of [wWinMain]: its own, and those of the [App] object. *)
Inductive MainCall :=
| CoInitialize
| CoUninitialize
| InApp (c : Call).

(** [wWinMain].  [run] is what [app.Run()] returns and does to the
    object: the loop [Run], and with it the window procedure the system
    calls while the loop dispatches.  The object is destroyed where its
    block ends, after [CoUninitialize]. *)
Definition wWinMain (hrCoInitialize : HRESULT) (sin : double -> double)
  (sys : Startup) (run : Op Z) : Z * list MainCall :=
  let exitCode := 1 in
  if SUCCEEDED hrCoInitialize then
    let app := App_ctor (CreateInputFunction sin) in
    let '(hr, app1, t1) := Initialize sys app in
    let '(exitCode', app2, t2) :=
      if SUCCEEDED hr then run app1 else (exitCode, app1, []) in
    let '(_, _, t3) := App_dtor app2 in
    (exitCode',
     CoInitialize :: map InApp t1 ++ map InApp t2 ++ CoUninitialize :: map InApp t3)
  else (exitCode, [CoInitialize]).

(** ** Text for the debug console *)











(** * Vocabulary of the properties *)

(** ** States and redraws *)

(** The redraw is not cut short: resource creation did not fail. *)
Definition reaches_drawing (host : Host) (app : App) : Prop :=
  FAILED (result (CreateDeviceResources host app)) = false.

(** The state the specification calls Ready: both resources are cached. *)
Definition Ready (app : App) : Prop :=
  m_pRenderTarget app <> None /\ m_pGraphLineBrush app <> None.

(** A cached brush comes with a cached render target. *)
Definition brush_needs_target (app : App) : Prop :=
  m_pGraphLineBrush app <> None -> m_pRenderTarget app <> None.

(** The render target and the brush a successful creation caches. *)
Definition new_target (host : Host) : ID2D1HwndRenderTarget :=
  {| rt_size := SizeF_of_SizeU (clientRect host) |}.

Definition red_brush : ID2D1SolidColorBrush := {| brush_color := Red |}.

(** The states the program can be in: built by the constructor, then
    changed by [Initialize], by window messages and by the destructor. *)
Inductive reachable : App -> Prop :=
| reachable_ctor (f : InputFunction) : reachable (App_ctor f)
| reachable_Initialize (sys : Startup) (app : App) :
    reachable app -> reachable (state (Initialize sys app))
| reachable_OnRender (host : Host) (app : App) :
    reachable app -> reachable (state (OnRender host app))
| reachable_OnResize (width height : Z) (app : App) :
    reachable app -> reachable (state (OnResize width height app))
| reachable_WndProcCore (host : Host) (message wParam lParam : Z) (app : App) :
    reachable app -> reachable (state (WndProcCore host message wParam lParam app))
| reachable_dtor (app : App) :
    reachable app -> reachable (state (App_dtor app)).

(** ** Frames *)

(** The point of pixel column [x]. *)
Definition point_at (f : InputFunction) (size : D2D1_SIZE_F) (x : Z) : D2D1_POINT_2F :=
  fst (ComputePoint f size x).

(** The columns [x], [x+1], ..., [x+n-1]. *)
Fixpoint columns (x : Z) (n : nat) : list Z :=
  match n with
  | O => []
  | S n' => x :: columns (x + 1) n'
  end.

(** What the loop does for column [x]: sample the function, then join the
    previous column's point to this one. *)
Definition segment (f : InputFunction) (size : D2D1_SIZE_F)
  (brush : option ID2D1SolidColorBrush) (x : Z) : list Call :=
  [Eval_func (ComputePoint_argX f size x);
   DrawLine (point_at f size (x - 1)) (point_at f size x) brush 2%float None].

(** The calls between [BeginDraw] and [EndDraw], both included. *)
Definition frame (f : InputFunction) (size : D2D1_SIZE_F)
  (brush : option ID2D1SolidColorBrush) : list Call :=
  let maxX := to_int (ceil (SIZE_F.width size)) in
  [BeginDraw; SetTransform_Identity; Clear White]
    ++ snd (ComputePoint f size 0)
    ++ DrawLoop (Z.to_nat maxX) f size brush 1 maxX (point_at f size 0)
    ++ [EndDraw].

(** ** Kinds of calls *)

Definition is_creation (c : Call) : bool :=
  match c with
  | CreateHwndRenderTarget _ | CreateSolidColorBrush _ => true
  | _ => false
  end.

Definition is_DrawLine (c : Call) : bool :=
  match c with DrawLine _ _ _ _ _ => true | _ => false end.

Definition is_Eval_func (c : Call) : bool :=
  match c with Eval_func _ => true | _ => false end.

Definition is_Release (c : Call) : bool :=
  match c with Release _ => true | _ => false end.

(** The calls that draw: the frame brackets, the clear and the lines. *)
Definition is_draw_call (c : Call) : bool :=
  match c with
  | BeginDraw | SetTransform_Identity | Clear _ | DrawLine _ _ _ _ _ | EndDraw => true
  | _ => false
  end.

Definition draw_calls (t : list Call) : list Call := filter is_draw_call t.

(** ** Ranges of numbers *)

(** A positive finite double. *)
Definition pos_finite (d : double) : Prop :=
  (0 <? d)%float = true /\ (d <? infinity)%float = true.

(** A finite double that is zero or above. *)
Definition nonneg_finite (d : double) : Prop :=
  (0 <=? d)%float = true /\ (d <? infinity)%float = true.

(** The integers every FLOAT holds exactly. *)
Definition exact_in_FLOAT (n : Z) : Prop := 0 <= n < 2 ^ 24.


(** The least integer that is not below [m * 2^e]. *)
Definition ceiling (m : positive) (e : Z) : Z :=
  if 0 <=? e then Zpos m * 2 ^ e
  else (Zpos m + 2 ^ (- e) - 1) / 2 ^ (- e).

(** The datum of the double [1]. *)
Definition SFone : spec_float := S754_finite false 4503599627370496 (-52).

(** The binary64 datum of a positive integer below [2^53]: the integer
    shifted up to 53 digits. *)
Definition SFpos (q : positive) : spec_float :=
  let d := Zpos (digits2_pos q) in
  S754_finite false (Pos.shiftl q (Z.to_N (53 - d))) (d - 53).


(** ** Bounds on rounded numbers *)

(** [m1 * 2^e1 <= m2 * 2^e2], on integers. *)
Definition le_val (m1 : positive) (e1 : Z) (m2 : positive) (e2 : Z) : Prop :=
  Zpos m1 * 2 ^ (e1 - Z.min e1 e2) <= Zpos m2 * 2 ^ (e2 - Z.min e1 e2).

(** A datum of the format that is zero or positive and finite, and not
    above the positive datum [(mb, eb)]. *)
Definition fits (p em : Z) (r : spec_float) (mb : positive) (eb : Z) : Prop :=
  (r = S754_zero false
   \/ exists m e, r = S754_finite false m e /\ bounded p em m e = true)
  /\ SFleb r (S754_finite false mb eb) = true.

(** The binary32 mantissa of a positive integer below [2^24]. *)
Definition mantissa24 (q : positive) : positive :=
  Pos.shiftl q (Z.to_N (24 - Zpos (digits2_pos q))).

(** [X / 2^n] rounded to nearest, ties to even. *)
Definition nearest_even (X n : Z) : Z :=
  round_nearest_even (X / 2 ^ n) (new_location_even (2 ^ n) (X mod 2 ^ n)).

(** The signed mantissa of a finite datum at the exponent [z]. *)
Definition scaled (x : spec_float) (z : Z) : Z :=
  match x with
  | S754_finite s m e => cond_Zopp s (Zpos m * 2 ^ (e - z))
  | _ => 0
  end.

(** A zero, or a finite datum of binary64 whose exponent is [z] at least. *)
Definition finite_from (x : spec_float) (z : Z) : Prop :=
  match x with
  | S754_zero _ => True
  | S754_finite _ m e => bounded prec emax m e = true /\ z <= e
  | _ => False
  end.

(** The exponent of a finite datum. *)
Definition exponent (x : spec_float) : Z :=
  match x with
  | S754_finite _ _ e => e
  | _ => 0
  end.

(** ** Binary32 numbers *)





(** ** Points on the surface *)

(** The function value of column [x] lies in the value range: it lies
    between [startY] and [endY], and the range length [endY - startY] is a
    positive finite double. *)
Definition in_value_range (f : InputFunction) (size : D2D1_SIZE_F) (x : Z) : Prop :=
  let value := func f (ComputePoint_argX f size x) in
  pos_finite (endY f - startY f)%float
  /\ (startY f <=? value)%float = true
  /\ (value <=? endY f)%float = true.

(** The ordinate of a point lies on a surface [h] pixels high. *)
Definition y_on_surface (h : Z) (p : D2D1_POINT_2F) : Prop :=
  (0 <=? POINT_2F.y p)%float = true
  /\ (POINT_2F.y p <=? FLOAT_of_UINT32 h)%float = true.

(** ** Start-up and shutdown *)

(** The width and height [Initialize] asks [CreateWindow] for: 640 x 480
    scaled by the desktop DPI over 96, in FLOAT arithmetic, truncated. *)
Definition window_extent (dpi : FLOAT * FLOAT) : Z * Z :=
  let '(dpiX, dpiY) := dpi in
  (to_int (to_FLOAT (to_FLOAT (640 * dpiX) / 96)%float),
   to_int (to_FLOAT (to_FLOAT (480 * dpiY) / 96)%float)).

(** The release a cached resource gets, none for a null pointer. *)
Definition release_of {I : Type} (r : Resource) (obj : option I) : list Call :=
  match obj with
  | Some _ => [Release r]
  | None => []
  end.

(** A whole number of dots per inch, as a FLOAT. *)
Definition whole_dpi (d : Z) : FLOAT := of_uint63 (Uint63.of_Z d).

(** The extent of the window agrees with 640 x 480 scaled by [d]/96 and
    truncated, on both axes. *)
Definition extent_scales (d : Z) : bool :=
  let '(w, h) := window_extent (whole_dpi d, whole_dpi d) in
  (w =? 640 * d / 96) && (h =? 480 * d / 96).

(** ** Window messages *)

(** [MAKELPARAM(l, h)]: the [lParam] the window system packs two 16-bit
    words into, as it does with the client extent of a [WM_SIZE]. *)
Definition MAKELPARAM (l h : Z) : Z :=
  Z.lor (Z.land l 65535) (Z.shiftl (Z.land h 65535) 16).

(** The calls on Direct2D: creation, drawing, resizing and release. *)
Definition is_Resize (c : Call) : bool :=
  match c with Resize _ => true | _ => false end.

Definition is_Direct2D (c : Call) : bool :=
  is_creation c || is_draw_call c || is_Resize c || is_Release c.

(** The brush is null or the red one. *)
Definition brush_is_red (app : App) : Prop :=
  m_pGraphLineBrush app = None \/ m_pGraphLineBrush app = Some red_brush.

(** ** Sequences of window messages *)

(** A window message as [WndProcCore] receives it, with what the
    collaborators answer while it is handled. *)
Record Message := {
  msg_host : Host;
  msg_message : Z;
  msg_wParam : Z;
  msg_lParam : Z
}.

Definition handle (m : Message) : Op Z :=
  WndProcCore (msg_host m) (msg_message m) (msg_wParam m) (msg_lParam m).

(** The messages of a list, handled one after the other. *)
Fixpoint deliver (ms : list Message) : Op unit :=
  match ms with
  | [] => ret tt
  | m :: ms' => handle m ;; deliver ms'
  end.

(** The calls made while the messages are handled, each with the answers
    in force when it was made. *)
Fixpoint deliver_log (ms : list Message) (app : App) : list (Host * Call) :=
  match ms with
  | [] => []
  | m :: ms' =>
      map (pair (msg_host m)) (trace (handle m app))
        ++ deliver_log ms' (state (handle m app))
  end.

(** Direct2D's drawing protocol, read along a list of calls.  [inside]
    tells whether a frame is open.  [BeginDraw] opens a frame and
    [EndDraw] closes it; the transform, the clear and the lines belong
    inside a frame; creation, resizing and release belong outside.  The
    result tells whether the list ends inside a frame; there is none when
    a call is out of place. *)
Fixpoint follows_protocol (inside : bool) (t : list Call) : option bool :=
  match t with
  | [] => Some inside
  | c :: t' =>
      match c with
      | BeginDraw => if inside then None else follows_protocol true t'
      | EndDraw => if inside then follows_protocol false t' else None
      | SetTransform_Identity | Clear _ | DrawLine _ _ _ _ _ =>
          if inside then follows_protocol true t' else None
      | CreateHwndRenderTarget _ | CreateSolidColorBrush _ | Resize _ | Release _ =>
          if inside then None else follows_protocol false t'
      | _ => follows_protocol inside t'
      end
  end.

(** How many elements of a list pass a test. *)
Definition count {A : Type} (p : A -> bool) (l : list A) : nat := length (filter p l).

(** A render target was created: the call was made and answered with a
    success. *)
Definition target_created (hc : Host * Call) : bool :=
  match snd hc with
  | CreateHwndRenderTarget _ => negb (FAILED (hrCreateHwndRenderTarget (fst hc)))
  | _ => false
  end.

(** A brush was created. *)
Definition brush_created (hc : Host * Call) : bool :=
  match snd hc with
  | CreateSolidColorBrush _ => negb (FAILED (hrCreateSolidColorBrush (fst hc)))
  | _ => false
  end.

Definition is_Release_of (r : Resource) (c : Call) : bool :=
  match c, r with
  | Release Direct2dFactory, Direct2dFactory => true
  | Release RenderTarget, RenderTarget => true
  | Release GraphLineBrush, GraphLineBrush => true
  | _, _ => false
  end.

(** 1 for a cached resource, 0 for a null pointer. *)
Definition cached {I : Type} (obj : option I) : nat :=
  match obj with
  | Some _ => 1
  | None => 0
  end.

(** What a balance counts along a list of calls answered by [host]: the
    render targets and brushes created, and the releases of the factory,
    of the render target and of the brush. *)
Definition balance_of (host : Host) (t : list Call) : nat * nat * (nat * nat * nat) :=
  (count target_created (map (pair host) t),
   count brush_created (map (pair host) t),
   (count (is_Release_of Direct2dFactory) t,
    count (is_Release_of RenderTarget) t,
    count (is_Release_of GraphLineBrush) t)).

Definition add_balance (x y : nat * nat * (nat * nat * nat)) : nat * nat * (nat * nat * nat) :=
  let '(a1, b1, (c1, d1, e1)) := x in
  let '(a2, b2, (c2, d2, e2)) := y in
  (a1 + a2, b1 + b2, (c1 + c2, d1 + d2, e1 + e2))%nat.

(** ** The window procedure, message after message *)

(** A message as the window system hands it to [WndProc]. *)
Record Sent := {
  sent_lpCreateParams : bool;
  sent_msg : Message
}.

(** The messages of a list, handed to [WndProc] one after the other. *)
Fixpoint window (ms : list Sent) (userData : bool) : Op bool :=
  match ms with
  | [] => ret userData
  | s :: ms' =>
      r <- WndProc (msg_host (sent_msg s)) (sent_lpCreateParams s)
             (msg_message (sent_msg s)) (msg_wParam (sent_msg s))
             (msg_lParam (sent_msg s)) userData ;;
      window ms' (snd r)
  end.

(** ** The loop and the debug text *)

(** One turn of the loop for an answer that is not zero. *)
Definition pump (a : Z * MSG.t) : list PumpCall :=
  [GetMessage; TranslateMessage (snd a); DispatchMessage (snd a)].




(** ** Sample data *)

(** A host whose every call succeeds, for a client area of the given size. *)
Definition obliging_host (client : D2D1_SIZE_U) : Host :=
  {| clientRect := client;
     hrCreateHwndRenderTarget := S_OK;
     hrCreateSolidColorBrush := S_OK;
     hrEndDraw := S_OK;
     lrDefWindowProc := 0 |}.

(** A host whose frame ends stale. *)
Definition stale_host : Host :=
  {| clientRect := SizeU 640 480;
     hrCreateHwndRenderTarget := S_OK;
     hrCreateSolidColorBrush := S_OK;
     hrEndDraw := D2DERR_RECREATE_TARGET;
     lrDefWindowProc := 0 |}.

(** A host that cannot create the render target. *)
Definition no_target_host : Host :=
  {| clientRect := SizeU 640 480;
     hrCreateHwndRenderTarget := E_FAIL;
     hrCreateSolidColorBrush := S_OK;
     hrEndDraw := S_OK;
     lrDefWindowProc := 0 |}.

(** A host that creates the render target and then fails on the brush. *)
Definition no_brush_host : Host :=
  {| clientRect := SizeU 640 480;
     hrCreateHwndRenderTarget := S_OK;
     hrCreateSolidColorBrush := E_FAIL;
     hrEndDraw := S_OK;
     lrDefWindowProc := 0 |}.

(** The default axes with a straight line in place of the sine. *)
Definition line_function : InputFunction :=
  {| func := fun x => (x / 4 - 0.75)%float;
     startX := 0%float; endX := 6%float;
     startY := (-1.5)%float; endY := 1.5%float |}.

(** The default axes with a function that is [c] everywhere. *)
Definition constant_function (c : double) : InputFunction :=
  {| func := fun _ => c;
     startX := 0%float; endX := 6%float;
     startY := (-1.5)%float; endY := 1.5%float |}.

(** Axes whose ends are not sums of few powers of two. *)
Definition decimal_axes : InputFunction :=
  {| func := fun x => x;
     startX := 0.2%float; endX := 0.9%float;
     startY := (-1.5)%float; endY := 1.5%float |}.

(** A value range too wide for its length to be a finite double. *)
Definition huge_range : InputFunction :=
  {| func := fun _ => 0x1p1023%float;
     startX := 0%float; endX := 6%float;
     startY := (-0x1p1023)%float; endY := 0x1p1023%float |}.


Definition size_640x480 : D2D1_SIZE_F := SizeF 640%float 480%float.

(** * Lemmas *)

(** ** Rounding in a binary format *)

Lemma iter_pos_nat {A : Type} (f : A -> A) (n : positive) (a : A) :
  iter_pos f n a = Nat.iter (Pos.to_nat n) f a.
Proof.
  revert a; induction n as [n IH|n IH|]; intros a; cbn [iter_pos].
  - rewrite !IH, Pos2Nat.inj_xI.
    replace (S (2 * Pos.to_nat n))%nat with (Pos.to_nat n + S (Pos.to_nat n))%nat by lia.
    rewrite Nat.iter_add. f_equal. now rewrite Nat.iter_succ_r.
  - rewrite !IH, Pos2Nat.inj_xO.
    replace (2 * Pos.to_nat n)%nat with (Pos.to_nat n + Pos.to_nat n)%nat by lia.
    now rewrite Nat.iter_add.
  - reflexivity.
Qed.

Lemma shr_exact_nat (n : nat) (m : positive) :
  Nat.iter n shr_1 {| shr_m := Zpos (Nat.iter n xO m); shr_r := false; shr_s := false |}
  = {| shr_m := Zpos m; shr_r := false; shr_s := false |}.
Proof.
  induction n as [|n IH]; [reflexivity|].
  rewrite Nat.iter_succ_r, Nat.iter_succ. exact IH.
Qed.

(** Shifting out [k] zero bits loses nothing. *)
Lemma shr_exact (k m : positive) :
  iter_pos shr_1 k {| shr_m := Zpos (shift_pos k m); shr_r := false; shr_s := false |}
  = {| shr_m := Zpos m; shr_r := false; shr_s := false |}.
Proof.
  rewrite iter_pos_nat. unfold shift_pos. rewrite Pos2Nat.inj_iter. apply shr_exact_nat.
Qed.

Lemma digits2_shift_nat (n : nat) (m : positive) :
  digits2_pos (Nat.iter n xO m) = (digits2_pos m + Pos.of_succ_nat n - 1)%positive.
Proof.
  induction n as [|n IH].
  - cbn. lia.
  - rewrite Nat.iter_succ. cbn [digits2_pos]. rewrite IH. lia.
Qed.

Lemma digits2_shift (k m : positive) :
  digits2_pos (shift_pos k m) = (digits2_pos m + k)%positive.
Proof.
  unfold shift_pos. rewrite Pos2Nat.inj_iter.
  fold (Nat.iter (Pos.to_nat k) xO m). rewrite digits2_shift_nat. lia.
Qed.

Section Format.
Variables p em : Z.

(** Rounding a mantissa that is a canonical one followed by [k] zero bits
    gives the canonical one back. *)
Lemma binary_round_aux_shifted (s : bool) (m : positive) (e : Z) (k : positive) :
  bounded p em m e = true ->
  binary_round_aux p em s (Zpos (shift_pos k m)) (e - Zpos k) loc_Exact
  = S754_finite s m e.
Proof.
  unfold bounded, canonical_mantissa. intros H.
  apply andb_true_iff in H as [Hc Hb]. apply Z.eqb_eq in Hc.
  unfold binary_round_aux, shr_fexp. cbn [Zdigits2 shr_record_of_loc].
  rewrite digits2_shift.
  replace (Zpos (digits2_pos m + k) + (e - Zpos k)) with (Zpos (digits2_pos m) + e) by lia.
  rewrite Hc. replace (e - (e - Zpos k)) with (Zpos k) by lia.
  cbn [shr]. rewrite shr_exact. cbn [shr_m loc_of_shr_record round_nearest_even Zdigits2].
  replace (e - Zpos k + Zpos k) with e by lia.
  rewrite Hc, Z.sub_diag. cbn [shr shr_m]. now rewrite Hb.
Qed.

Lemma binary_round_aux_canonical (s : bool) (m : positive) (e : Z) :
  bounded p em m e = true ->
  binary_round_aux p em s (Zpos m) e loc_Exact = S754_finite s m e.
Proof.
  unfold bounded, canonical_mantissa. intros H.
  apply andb_true_iff in H as [Hc Hb]. apply Z.eqb_eq in Hc.
  unfold binary_round_aux, shr_fexp. cbn [Zdigits2 shr_record_of_loc].
  rewrite Hc, Z.sub_diag.
  cbn [shr shr_m loc_of_shr_record round_nearest_even Zdigits2 shr_record_of_loc].
  rewrite Hc, Z.sub_diag. cbn [shr shr_m]. now rewrite Hb.
Qed.
End Format.

(** *** Binary64 data *)

Lemma Prim2SF_one : Prim2SF 1 = SFone.
Proof. reflexivity. Qed.

Lemma Prim2SF_zero : Prim2SF 0 = S754_zero false.
Proof. reflexivity. Qed.

Lemma mul_2_52 (m : positive) : (m * 4503599627370496)%positive = shift_pos 52 m.
Proof. apply Pos2Z.inj. rewrite shift_pos_correct. cbn. lia. Qed.

Lemma SF_mul_one_r (v : spec_float) :
  valid_binary v = true -> SF64mul v SFone = v.
Proof.
  destruct v as [s|s| |s m e]; cbn [SF64mul SFmul SFone valid_binary]; intros H;
    rewrite ?xorb_false_r; try reflexivity.
  rewrite mul_2_52. replace (e + -52) with (e - 52) by lia.
  now apply binary_round_aux_shifted.
Qed.

Lemma SF_mul_one_l (v : spec_float) :
  valid_binary v = true -> SF64mul SFone v = v.
Proof.
  destruct v as [s|s| |s m e]; cbn [SF64mul SFmul SFone valid_binary xorb]; intros H;
    try reflexivity.
  rewrite Pos.mul_comm, mul_2_52. replace (-52 + e) with (e - 52) by lia.
  now apply binary_round_aux_shifted.
Qed.

Lemma SF_sub_same (s : bool) (m : positive) (e : Z) :
  SF64sub (S754_finite s m e) (S754_finite s m e) = S754_zero false.
Proof.
  cbn [SF64sub SFsub]. now rewrite Z.sub_diag.
Qed.

Lemma div_eucl_eq (a b : Z) : Z.div_eucl a b = (a / b, a mod b).
Proof. unfold Z.div, Z.modulo. now destruct (Z.div_eucl a b). Qed.

Lemma SF_div_same (s : bool) (m : positive) (e : Z) :
  SF64div (S754_finite s m e) (S754_finite s m e) = SFone.
Proof.
  cbn [SF64div SFdiv]. unfold SFdiv_core_binary.
  rewrite !Z.sub_diag. cbn [Zdigits2].
  change (Z.min (fexp prec emax 0) 0) with (-53).
  change (0 - -53) with 53.
  rewrite Z.shiftl_mul_pow2 by lia. rewrite Z.mul_comm.
  rewrite div_eucl_eq, Z.div_mul, Z.mod_mul by lia.
  replace (new_location (Zpos m) 0) with loc_Exact
    by (unfold new_location, new_location_even, new_location_odd; now destruct (Z.even (Zpos m))).
  rewrite xorb_nilpotent. reflexivity.
Qed.

(** *** Comparisons read on the data *)

Lemma SFeqb_finite (s1 s2 : bool) (m1 m2 : positive) (e1 e2 : Z) :
  SFeqb (S754_finite s1 m1 e1) (S754_finite s2 m2 e2) = true ->
  S754_finite s1 m1 e1 = S754_finite s2 m2 e2.
Proof.
  unfold SFeqb, SFcompare.
  destruct s1, s2; try discriminate;
    destruct (e1 ?= e2) eqn:He; try discriminate;
    apply Z.compare_eq in He; subst e2;
    change (Pos.compare_cont Eq m1 m2) with (m1 ?= m2)%positive;
    destruct (m1 ?= m2)%positive eqn:Hm; try discriminate;
    apply Pos.compare_eq in Hm; now subst m2.
Qed.

Lemma SFeqb_refl_finite (s : bool) (m : positive) (e : Z) :
  SFeqb (S754_finite s m e) (S754_finite s m e) = true.
Proof.
  unfold SFeqb, SFcompare. rewrite Z.compare_refl.
  change (Pos.compare_cont Eq m m) with (m ?= m)%positive.
  rewrite Pos.compare_refl. now destruct s.
Qed.

Local Open Scope float_scope.

Lemma pos_finite_SF (d : double) :
  pos_finite d -> exists m e, Prim2SF d = S754_finite false m e.
Proof.
  unfold pos_finite. rewrite !ltb_spec.
  change (Prim2SF 0) with (S754_zero false).
  change (Prim2SF infinity) with (S754_infinity false).
  destruct (Prim2SF d) as [s|s| |s m e]; cbn; intros [H1 H2]; try discriminate.
  - destruct s; discriminate.
  - destruct s; [discriminate|eauto].
Qed.

Lemma nonneg_finite_SF (d : double) :
  nonneg_finite d ->
  (exists b, Prim2SF d = S754_zero b) \/ (exists m e, Prim2SF d = S754_finite false m e).
Proof.
  unfold nonneg_finite. rewrite leb_spec, ltb_spec.
  change (Prim2SF 0) with (S754_zero false).
  change (Prim2SF infinity) with (S754_infinity false).
  destruct (Prim2SF d) as [s|s| |s m e]; cbn; intros [H1 H2]; try discriminate.
  - eauto.
  - destruct s; discriminate.
  - destruct s; [discriminate|eauto].
Qed.

(** [PrimFloat.is_finite] read on the datum. *)
Lemma is_finite_SF (d : double) :
  is_finite d = true ->
  (exists b, Prim2SF d = S754_zero b) \/ (exists s m e, Prim2SF d = S754_finite s m e).
Proof.
  unfold is_finite, is_nan, is_infinity.
  rewrite !eqb_spec, abs_spec.
  change (Prim2SF infinity) with (S754_infinity false).
  destruct (Prim2SF d) as [s|s| |s m e]; try destruct s; cbn;
    try discriminate; intros _; eauto.
Qed.

(** *** Identities of double arithmetic *)

Lemma mul_1_r (d : double) : d * 1 = d.
Proof.
  apply Prim2SF_inj. rewrite mul_spec, Prim2SF_one.
  apply SF_mul_one_r, Prim2SF_valid.
Qed.

Lemma mul_1_l (d : double) : 1 * d = d.
Proof.
  apply Prim2SF_inj. rewrite mul_spec, Prim2SF_one.
  apply SF_mul_one_l, Prim2SF_valid.
Qed.

Lemma div_same (d : double) : pos_finite d -> d / d = 1.
Proof.
  intros H. destruct (pos_finite_SF d H) as (m & e & Hd).
  apply Prim2SF_inj. rewrite div_spec, Hd, Prim2SF_one. apply SF_div_same.
Qed.

Lemma div_0_l (d : double) : (0 <? d) = true -> 0 / d = 0.
Proof.
  rewrite ltb_spec. change (Prim2SF 0) with (S754_zero false). intros H.
  apply Prim2SF_inj. rewrite div_spec. change (Prim2SF 0) with (S754_zero false).
  destruct (Prim2SF d) as [s|s| |s m e]; cbn in *; try discriminate;
    destruct s; try discriminate; reflexivity.
Qed.





(** *** The ordinate at the ends of the value range *)

Local Close Scope float_scope.

Lemma SF_sub_of_eqb (v s : spec_float) :
  SFeqb v s = true ->
  (exists b, s = S754_zero b) \/ (exists b m e, s = S754_finite b m e) ->
  exists b, SF64sub v s = S754_zero b.
Proof.
  intros Heq [[b ->] | (b & m & e & ->)].
  - destruct v as [sv|sv| |sv mv ev]; try destruct sv; try discriminate;
      destruct b; cbn; eauto.
  - destruct v as [sv|sv| |sv mv ev]; try destruct sv; try destruct b; try discriminate;
      apply SFeqb_finite in Heq; rewrite Heq, SF_sub_same; eauto.
Qed.

(** A finite difference has finite operands. *)
Lemma SF_sub_finite_inv (a b : spec_float) (s : bool) (m : positive) (e : Z) :
  SF64sub a b = S754_finite s m e ->
  (exists c, b = S754_zero c) \/ (exists c n k, b = S754_finite c n k).
Proof.
  destruct a as [sa|sa| |sa ma ea], b as [sb|sb| |sb mb eb];
    try destruct sa; try destruct sb; cbn; try discriminate; eauto 6.
Qed.

Lemma SF_y_at_startY (v s d h : spec_float) (md : positive) (ed : Z) :
  SFeqb v s = true ->
  (exists b, s = S754_zero b) \/ (exists b m e, s = S754_finite b m e) ->
  d = S754_finite false md ed ->
  (exists b, h = S754_zero b) \/ (exists m e, h = S754_finite false m e) ->
  let r := SF64sub h (SF64mul h (SF64div (SF64sub v s) d)) in
  r = h \/ ((exists b, r = S754_zero b) /\ (exists b, h = S754_zero b)).
Proof.
  intros Heq Hs -> Hh r. subst r.
  destruct (SF_sub_of_eqb v s Heq Hs) as [b0 ->].
  destruct Hh as [[b ->] | (m & e & ->)].
  - right. destruct b, b0; cbn; eauto.
  - left. destruct b0; reflexivity.
Qed.

Lemma SF_sub_of_eqb_l (v e s : spec_float) (md : positive) (ed : Z) :
  SFeqb v e = true ->
  SF64sub e s = S754_finite false md ed ->
  SF64sub v s = S754_finite false md ed.
Proof.
  intros Heq Hd.
  destruct v as [sv|sv| |sv mv ev], e as [se|se| |se me ee];
    try destruct sv; try destruct se; try discriminate;
    try (apply SFeqb_finite in Heq; rewrite Heq; exact Hd);
    destruct s as [ss|ss| |ss ms es]; try destruct ss; cbn in *; congruence.
Qed.

Lemma SF_y_at_endY (v e s h : spec_float) (md : positive) (ed : Z) :
  SFeqb v e = true ->
  SF64sub e s = S754_finite false md ed ->
  valid_binary h = true ->
  (exists b, h = S754_zero b) \/ (exists m k, h = S754_finite false m k) ->
  SF64sub h (SF64mul h (SF64div (SF64sub v s) (SF64sub e s))) = S754_zero false.
Proof.
  intros Heq Hd Hv Hh.
  rewrite (SF_sub_of_eqb_l v e s md ed Heq Hd), Hd, SF_div_same.
  rewrite SF_mul_one_r by exact Hv.
  destruct Hh as [[b ->] | (m & k & ->)].
  - now destruct b.
  - apply SF_sub_same.
Qed.

Local Open Scope float_scope.

Lemma to_FLOAT_zero (d : double) (b : bool) :
  Prim2SF d = S754_zero b -> Prim2SF (to_FLOAT d) = S754_zero b.
Proof.
  intros H. unfold to_FLOAT. rewrite H. cbn [SFnarrow SFwiden].
  now apply Prim2SF_SF2Prim.
Qed.

Lemma Prim2SF_ComputePoint_y (f : InputFunction) (size : D2D1_SIZE_F) (v : double) :
  Prim2SF (ComputePoint_y f size v)
  = SF64sub (Prim2SF (SIZE_F.height size))
      (SF64mul (Prim2SF (SIZE_F.height size))
         (SF64div (SF64sub (Prim2SF v) (Prim2SF (startY f)))
            (SF64sub (Prim2SF (endY f)) (Prim2SF (startY f))))).
Proof.
  unfold ComputePoint_y. now rewrite sub_spec, mul_spec, div_spec, !sub_spec.
Qed.


(** *** Small integers are exact *)

Local Close Scope float_scope.

Lemma digits2_bounds (q : positive) :
  2 ^ (Zpos (digits2_pos q) - 1) <= Zpos q < 2 ^ Zpos (digits2_pos q).
Proof.
  induction q as [q IH|q IH|]; cbn [digits2_pos].
  - rewrite Pos2Z.inj_succ.
    replace (Z.succ (Zpos (digits2_pos q)) - 1) with (Z.succ (Zpos (digits2_pos q) - 1)) by lia.
    rewrite !Z.pow_succ_r by lia. lia.
  - rewrite Pos2Z.inj_succ.
    replace (Z.succ (Zpos (digits2_pos q)) - 1) with (Z.succ (Zpos (digits2_pos q) - 1)) by lia.
    rewrite !Z.pow_succ_r by lia. lia.
  - cbn. lia.
Qed.

Lemma digits2_le (q : positive) (n : Z) :
  0 <= n -> Zpos q < 2 ^ n -> Zpos (digits2_pos q) <= n.
Proof.
  intros Hn Hq. pose proof (digits2_bounds q) as [Hl _].
  destruct (Z_le_gt_dec (Zpos (digits2_pos q)) n) as [H|H]; [exact H|exfalso].
  assert (2 ^ n <= 2 ^ (Zpos (digits2_pos q) - 1)) by (apply Z.pow_le_mono_r; lia).
  lia.
Qed.


Lemma digits2_shiftl (q : positive) (n : N) :
  Zpos (digits2_pos (Pos.shiftl q n)) = Zpos (digits2_pos q) + Z.of_N n.
Proof.
  destruct n as [|k]; [cbn; lia|].
  rewrite <- shift_pos_equiv, digits2_shift. lia.
Qed.

Lemma SFpos_bounded (q : positive) :
  Zpos (digits2_pos q) <= 53 ->
  bounded prec emax (Pos.shiftl q (Z.to_N (53 - Zpos (digits2_pos q))))
    (Zpos (digits2_pos q) - 53) = true.
Proof.
  intros Hd. unfold bounded, canonical_mantissa, fexp, SpecFloat.emin.
  rewrite digits2_shiftl, Z2N.id by lia.
  apply andb_true_iff; split; [apply Z.eqb_eq | apply Z.leb_le];
    unfold prec, emax; lia.
Qed.

Lemma binary_round_pos (q : positive) :
  Zpos (digits2_pos q) <= 53 -> binary_round prec emax false q 0 = SFpos q.
Proof.
  intros Hd. unfold binary_round, shl_align, SFpos.
  replace (fexp prec emax (Zpos (digits2_pos q) + 0)) with (Zpos (digits2_pos q) - 53)
    by (unfold fexp, SpecFloat.emin, prec, emax; lia).
  rewrite Z.sub_0_r.
  destruct (Zpos (digits2_pos q) - 53) as [|k|k] eqn:Hk; [|lia|].
  - replace (53 - Zpos (digits2_pos q)) with 0 by lia. cbn [Z.to_N Pos.shiftl].
    apply binary_round_aux_canonical.
    pose proof (SFpos_bounded q Hd) as Hb.
    replace (53 - Zpos (digits2_pos q)) with 0 in Hb by lia.
    now replace (Zpos (digits2_pos q) - 53) with 0 in Hb by lia.
  - replace (53 - Zpos (digits2_pos q)) with (Zpos k) by lia. cbn [Z.to_N Pos.shiftl].
    apply binary_round_aux_canonical.
    pose proof (SFpos_bounded q Hd) as Hb.
    replace (53 - Zpos (digits2_pos q)) with (Zpos k) in Hb by lia.
    now replace (Zpos (digits2_pos q) - 53) with (Zneg k) in Hb by lia.
Qed.

Lemma Prim2SF_of_pos (q : positive) :
  Zpos q < 2 ^ 53 -> Prim2SF (of_uint63 (Uint63.of_Z (Zpos q))) = SFpos q.
Proof.
  intros Hq. rewrite of_uint63_spec.
  replace (Uint63Axioms.to_Z (Uint63.of_Z (Zpos q))) with (Zpos q).
  - cbn [binary_normalize]. apply binary_round_pos. apply digits2_le; lia.
  - symmetry. rewrite Uint63.of_Z_spec. apply Z.mod_small.
    unfold Uint63.wB. cbn. lia.
Qed.

Lemma shiftl_shiftl (q : positive) (a b : N) :
  Pos.shiftl (Pos.shiftl q a) b = Pos.shiftl q (a + b).
Proof.
  destruct a as [|a], b as [|b]; cbn [Pos.shiftl N.add]; try reflexivity.
  now rewrite Pos.add_comm, Pos.iter_add.
Qed.

(** Narrowing an integer below [2^24] and widening it again changes
    nothing. *)
Lemma SF_narrow_pos (q : positive) :
  Zpos q < 2 ^ 24 -> SFwiden (SFnarrow (SFpos q)) = SFpos q.
Proof.
  intros Hq. assert (Hd : Zpos (digits2_pos q) <= 24) by (apply digits2_le; lia).
  set (d := Zpos (digits2_pos q)) in *.
  assert (Hd1 : 1 <= d) by (unfold d; lia).
  set (m24 := Pos.shiftl q (Z.to_N (24 - d))).
  assert (Hm : Pos.shiftl q (Z.to_N (53 - d)) = shift_pos 29 m24).
  { unfold m24. rewrite shift_pos_equiv, shiftl_shiftl. f_equal. lia. }
  assert (Hdm : Zpos (digits2_pos m24) = 24).
  { unfold m24. rewrite digits2_shiftl, Z2N.id; fold d; lia. }
  assert (Hb : bounded 24 128 m24 (d - 24) = true).
  { unfold bounded, canonical_mantissa, fexp, SpecFloat.emin. rewrite Hdm.
    apply andb_true_iff; split; [apply Z.eqb_eq | apply Z.leb_le]; lia. }
  assert (Hn : SFnarrow (SFpos q) = S754_finite false m24 (d - 24)).
  { unfold SFpos. fold d. cbn [SFnarrow]. unfold binary_round, shl_align.
    rewrite digits2_shiftl, Z2N.id by lia. fold d.
    replace (fexp 24 128 (d + (53 - d) + (d - 53))) with (d - 24)
      by (unfold fexp, SpecFloat.emin; lia).
    replace (d - 24 - (d - 53)) with 29 by lia. cbv iota.
    rewrite Hm. replace (d - 53) with (d - 24 - 29) by lia.
    now apply binary_round_aux_shifted. }
  rewrite Hn. cbn [SFwiden]. unfold binary_round, shl_align.
  rewrite Hdm.
  replace (fexp prec emax (24 + (d - 24))) with (d - 53)
    by (unfold fexp, SpecFloat.emin, prec, emax; lia).
  replace (d - 53 - (d - 24)) with (-29) by lia. cbv iota.
  change (Pos.iter xO m24 29) with (shift_pos 29 m24). rewrite <- Hm.
  unfold SFpos. fold d. apply binary_round_aux_canonical. now apply SFpos_bounded; fold d; lia.
Qed.

Lemma Zpos_shiftl (q : positive) (n : N) :
  Zpos (Pos.shiftl q n) = Zpos q * 2 ^ Z.of_N n.
Proof.
  destruct n as [|k]; [cbn; lia|].
  rewrite <- shift_pos_equiv, shift_pos_correct, Z.pow_pos_fold. cbn [Z.of_N]. lia.
Qed.

Lemma SF_ceil_pos (q : positive) :
  Zpos q < 2 ^ 24 -> SFceil (SFpos q) = SFpos q.
Proof.
  intros Hq. assert (Hd : Zpos (digits2_pos q) <= 24) by (apply digits2_le; lia).
  unfold SFpos at 1. cbv zeta. set (d := Zpos (digits2_pos q)) in *.
  cbn [SFceil]. replace (0 <=? d - 53) with false by (symmetry; apply Z.leb_gt; lia).
  rewrite Zpos_shiftl, Z2N.id by lia.
  replace (- (d - 53)) with (53 - d) by lia.
  rewrite Z.shiftr_div_pow2, Z.div_mul by lia.
  rewrite Z.shiftl_mul_pow2, Z.eqb_refl by lia.
  cbn [SFofZ]. apply binary_round_pos. fold d. lia.
Qed.

Lemma SF_trunc_pos (q : positive) :
  Zpos q < 2 ^ 24 -> SFtrunc (SFpos q) = Some (Zpos q).
Proof.
  intros Hq. assert (Hd : Zpos (digits2_pos q) <= 24) by (apply digits2_le; lia).
  unfold SFpos. cbv zeta. set (d := Zpos (digits2_pos q)) in *.
  cbn [SFtrunc]. replace (0 <=? d - 53) with false by (symmetry; apply Z.leb_gt; lia).
  rewrite Zpos_shiftl, Z2N.id by lia.
  replace (- (d - 53)) with (53 - d) by lia.
  now rewrite Z.shiftr_div_pow2, Z.div_mul by lia.
Qed.


(** *** The same facts on the primitive values *)

Lemma Prim2SF_of_Z (n : Z) :
  exact_in_FLOAT n ->
  Prim2SF (of_uint63 (Uint63.of_Z n))
  = match n with Zpos q => SFpos q | _ => S754_zero false end.
Proof.
  intros [H0 H1]. destruct n as [|q|q]; [reflexivity| |lia].
  apply Prim2SF_of_pos. lia.
Qed.


Lemma to_FLOAT_of_Z (n : Z) :
  exact_in_FLOAT n ->
  to_FLOAT (of_uint63 (Uint63.of_Z n)) = of_uint63 (Uint63.of_Z n).
Proof.
  intros Hn. unfold to_FLOAT. rewrite (Prim2SF_of_Z n Hn).
  destruct Hn as [H0 H1]. destruct n as [|q|q]; [reflexivity| |lia].
  rewrite SF_narrow_pos by lia. rewrite <- Prim2SF_of_pos by lia. apply SF2Prim_Prim2SF.
Qed.

Lemma ceil_of_Z (n : Z) :
  exact_in_FLOAT n ->
  ceil (of_uint63 (Uint63.of_Z n)) = of_uint63 (Uint63.of_Z n).
Proof.
  intros Hn. unfold ceil. rewrite (Prim2SF_of_Z n Hn).
  destruct Hn as [H0 H1]. destruct n as [|q|q]; [reflexivity| |lia].
  rewrite SF_ceil_pos by lia. rewrite <- Prim2SF_of_pos by lia. apply SF2Prim_Prim2SF.
Qed.

Lemma to_int_of_Z (n : Z) :
  exact_in_FLOAT n -> to_int (of_uint63 (Uint63.of_Z n)) = n.
Proof.
  intros Hn. unfold to_int. rewrite (Prim2SF_of_Z n Hn).
  destruct Hn as [H0 H1]. destruct n as [|q|q]; [reflexivity| |lia].
  rewrite SF_trunc_pos by lia.
  replace ((INT_MIN <=? Zpos q) && (Zpos q <=? INT_MAX)) with true; [reflexivity|].
  symmetry. apply andb_true_iff. unfold INT_MIN, INT_MAX. split; apply Z.leb_le; lia.
Qed.


(** *** The ceiling *)

Lemma SF_trunc_SFpos (q : positive) :
  Zpos (digits2_pos q) <= 53 -> SFtrunc (SFpos q) = Some (Zpos q).
Proof.
  intros Hd. unfold SFpos. cbv zeta. set (d := Zpos (digits2_pos q)) in *.
  cbn [SFtrunc]. rewrite Zpos_shiftl, Z2N.id by lia.
  destruct (Z.leb_spec 0 (d - 53)) as [H|H].
  - replace (d - 53) with 0 by lia. replace (53 - d) with 0 by lia.
    rewrite Z.shiftl_0_r. f_equal. cbn. lia.
  - replace (- (d - 53)) with (53 - d) by lia.
    now rewrite Z.shiftr_div_pow2, Z.div_mul by lia.
Qed.

Lemma ceiling_spec (m : positive) (e : Z) :
  e < 0 ->
  (ceiling m e - 1) * 2 ^ (- e) < Zpos m <= ceiling m e * 2 ^ (- e).
Proof.
  intros He. unfold ceiling. replace (0 <=? e) with false by (symmetry; apply Z.leb_gt; lia).
  assert (Hp : 0 < 2 ^ (- e)) by (apply Z.pow_pos_nonneg; lia).
  set (k := 2 ^ (- e)) in *.
  pose proof (Z.div_mod (Zpos m + k - 1) k ltac:(lia)) as Hdm.
  pose proof (Z.mod_pos_bound (Zpos m + k - 1) k Hp) as Hb.
  nia.
Qed.

(** [static_cast<int>(ceil(w))] is the ceiling of a positive finite [w]
    whose ceiling fits an [int]. *)
Lemma to_int_ceil (w : double) (m : positive) (e : Z) :
  Prim2SF w = S754_finite false m e ->
  ceiling m e <= INT_MAX ->
  to_int (ceil w) = ceiling m e.
Proof.
  intros Hw Hmax. unfold to_int, ceil. rewrite Hw. cbn [SFceil].
  unfold ceiling in *. destruct (Z.leb_spec 0 e) as [He|He].
  - rewrite <- Hw, SF2Prim_Prim2SF, Hw. cbn [SFtrunc].
    replace (0 <=? e) with true by (symmetry; apply Z.leb_le; lia).
    rewrite Z.shiftl_mul_pow2 by lia.
    assert (0 < 2 ^ e) by (apply Z.pow_pos_nonneg; lia).
    replace ((INT_MIN <=? Zpos m * 2 ^ e) && (Zpos m * 2 ^ e <=? INT_MAX)) with true;
      [reflexivity|].
    symmetry. apply andb_true_iff. unfold INT_MIN. split; apply Z.leb_le; nia.
  - assert (Hp : 0 < 2 ^ (- e)) by (apply Z.pow_pos_nonneg; lia).
    rewrite Z.shiftr_div_pow2, Z.shiftl_mul_pow2 by lia.
    set (k := 2 ^ (- e)) in *.
    pose proof (Z.div_mod (Zpos m) k ltac:(lia)) as Hdm.
    pose proof (Z.mod_pos_bound (Zpos m) k Hp) as Hb.
    assert (Hn : (if Zpos m =? Zpos m / k * k then Zpos m / k else Zpos m / k + 1)
                 = (Zpos m + k - 1) / k).
    { destruct (Z.eqb_spec (Zpos m) (Zpos m / k * k)) as [Heq|Hne].
      - apply (Z.div_unique_pos _ _ _ (k - 1)); lia.
      - apply (Z.div_unique_pos _ _ _ (Zpos m mod k - 1)); lia. }
    rewrite Hn.
    assert (Hpos : 0 < (Zpos m + k - 1) / k).
    { apply Z.div_str_pos. lia. }
    destruct ((Zpos m + k - 1) / k) as [|n|n] eqn:Hc; [lia| |lia].
    cbn [SFofZ].
    assert (Hd : Zpos (digits2_pos n) <= 53)
      by (apply digits2_le; [lia | unfold INT_MAX in Hmax; lia]).
    rewrite binary_round_pos by exact Hd.
    rewrite Prim2SF_SF2Prim by (apply SFpos_bounded; exact Hd).
    rewrite SF_trunc_SFpos by exact Hd.
    replace ((INT_MIN <=? Zpos n) && (Zpos n <=? INT_MAX)) with true; [reflexivity|].
    symmetry. apply andb_true_iff. unfold INT_MIN. split; apply Z.leb_le; lia.
Qed.

(** ** Bounds kept by rounding *)

(** *** Shifting with round and sticky bits *)

Lemma shr_1_m (mrs : shr_record) :
  0 <= shr_m mrs -> shr_m (shr_1 mrs) = shr_m mrs / 2.
Proof.
  destruct mrs as [m r s]. cbn [shr_m]. intros Hm.
  destruct m as [|[q|q|]|q]; cbn [shr_1 shr_m]; try lia; try reflexivity.
  - rewrite Pos2Z.inj_xI. apply (Z.div_unique_pos _ _ _ 1); lia.
  - rewrite Pos2Z.inj_xO. apply (Z.div_unique_pos _ _ _ 0); lia.
Qed.

Lemma shr_1_exact (m : Z) :
  0 <= m -> m mod 2 = 0 ->
  shr_1 {| shr_m := m; shr_r := false; shr_s := false |}
  = {| shr_m := m / 2; shr_r := false; shr_s := false |}.
Proof.
  intros Hm Hev.
  destruct m as [|[q|q|]|q]; cbn [shr_1 orb]; try lia; try reflexivity.
  - rewrite Pos2Z.inj_xI in Hev. exfalso.
    rewrite Z.add_comm, Z.mul_comm, Z.mod_add in Hev by lia. discriminate.
  - f_equal. rewrite Pos2Z.inj_xO. apply (Z.div_unique_pos _ _ _ 0); lia.
  - discriminate.
Qed.

Lemma shr_iter_m (n : nat) (mrs : shr_record) :
  0 <= shr_m mrs ->
  shr_m (Nat.iter n shr_1 mrs) = shr_m mrs / 2 ^ Z.of_nat n.
Proof.
  revert mrs; induction n as [|n IH]; intros mrs Hm.
  - cbn. now rewrite Z.div_1_r.
  - rewrite Nat.iter_succ_r, IH by (rewrite shr_1_m by exact Hm; apply Z.div_pos; lia).
    rewrite shr_1_m by exact Hm. rewrite Nat2Z.inj_succ, Z.pow_succ_r by lia.
    rewrite Z.div_div by (try apply Z.pow_pos_nonneg; lia). reflexivity.
Qed.

Lemma shr_iter_exact (n : nat) (m : Z) :
  0 <= m -> m mod 2 ^ Z.of_nat n = 0 ->
  Nat.iter n shr_1 {| shr_m := m; shr_r := false; shr_s := false |}
  = {| shr_m := m / 2 ^ Z.of_nat n; shr_r := false; shr_s := false |}.
Proof.
  revert m; induction n as [|n IH]; intros m Hm Hdiv.
  - cbn. now rewrite Z.div_1_r.
  - rewrite Nat2Z.inj_succ, Z.pow_succ_r in * by lia.
    assert (Hp : 0 < 2 ^ Z.of_nat n) by (apply Z.pow_pos_nonneg; lia).
    apply Z.mod_divide in Hdiv; [|lia]. destruct Hdiv as [k Hk].
    assert (Hev : m mod 2 = 0).
    { subst m. replace (k * (2 * 2 ^ Z.of_nat n)) with (k * 2 ^ Z.of_nat n * 2) by lia.
      apply Z.mod_mul. lia. }
    rewrite Nat.iter_succ_r, shr_1_exact by assumption.
    assert (Hh : m / 2 = k * 2 ^ Z.of_nat n).
    { subst m. replace (k * (2 * 2 ^ Z.of_nat n)) with (k * 2 ^ Z.of_nat n * 2) by lia.
      apply Z.div_mul. lia. }
    rewrite IH.
    + rewrite Z.div_div by lia. reflexivity.
    + apply Z.div_pos; lia.
    + rewrite Hh. apply Z.mod_mul. lia.
Qed.

Lemma shr_record_of_loc_m (m : Z) (l : location) : shr_m (shr_record_of_loc m l) = m.
Proof. now destruct l as [|[| |]]. Qed.

(** What [shr] leaves of a mantissa shifted by [n] places. *)
Lemma shr_m_spec (m e n : Z) (l : location) :
  0 <= m -> 0 <= n ->
  let r := shr (shr_record_of_loc m l) e n in
  snd r = e + n
  /\ shr_m (fst r) = m / 2 ^ n
  /\ (l = loc_Exact -> m mod 2 ^ n = 0 -> loc_of_shr_record (fst r) = loc_Exact).
Proof.
  intros Hm Hn. destruct n as [|k|k]; [| |lia].
  - cbn [shr fst snd]. rewrite shr_record_of_loc_m, Z.add_0_r, Z.pow_0_r, Z.div_1_r.
    repeat split. now intros ->.
  - cbn [shr fst snd]. rewrite iter_pos_nat.
    split; [reflexivity|]. rewrite <- (positive_nat_Z k). split.
    + now rewrite shr_iter_m; rewrite shr_record_of_loc_m.
    + intros -> Hdiv. cbn [shr_record_of_loc]. now rewrite shr_iter_exact.
Qed.

Lemma Zdigits2_bounds (m : Z) :
  0 <= m -> m < 2 ^ Zdigits2 m /\ (0 < m -> 2 ^ (Zdigits2 m - 1) <= m).
Proof.
  intros Hm. destruct m as [|q|q]; [cbn; lia| |lia].
  cbn [Zdigits2]. pose proof (digits2_bounds q). lia.
Qed.

Lemma Zdigits2_nonneg (m : Z) : 0 <= Zdigits2 m.
Proof. destruct m; cbn; lia. Qed.

Lemma round_nearest_even_bounds (m : Z) (l : location) :
  m <= round_nearest_even m l <= m + 1.
Proof.
  destruct l as [|[| |]]; cbn [round_nearest_even]; try lia.
  destruct (Z.even m); lia.
Qed.

Lemma shr_nonpos (mrs : shr_record) (e n : Z) : n <= 0 -> shr mrs e n = (mrs, e).
Proof. destruct n; [reflexivity|lia|reflexivity]. Qed.

Lemma digits2_pow2 (q : positive) (p : Z) :
  0 <= p -> Zpos q = 2 ^ p -> Zpos (digits2_pos q) = p + 1.
Proof.
  intros Hp Hq. pose proof (digits2_bounds q) as [Hl Hu]. rewrite Hq in Hl, Hu.
  apply Z.pow_le_mono_r_iff in Hl; [|lia|lia].
  apply Z.pow_lt_mono_r_iff in Hu; lia.
Qed.

Lemma digits2_ge (q : positive) (k : Z) :
  2 ^ k <= Zpos q -> k + 1 <= Zpos (digits2_pos q).
Proof.
  intros Hk. pose proof (digits2_bounds q) as [_ Hu].
  destruct (Z_le_gt_dec (k + 1) (Zpos (digits2_pos q))) as [H|H]; [exact H|exfalso].
  assert (2 ^ Zpos (digits2_pos q) <= 2 ^ k) by (apply Z.pow_le_mono_r; lia).
  lia.
Qed.

Section Upper.
Variables p em : Z.
Hypothesis Hp : 0 < p.

(** Rounding a number that is zero or positive and does not exceed a
    positive number of the format gives a number of the format that does
    not exceed it. *)
Lemma binary_round_aux_upper (m : Z) (l : location) (mb : positive) (e eb : Z) :
  0 <= m ->
  bounded p em mb eb = true ->
  let c := fexp p em (Zdigits2 m + e) in
  e <= c ->
  (c < eb \/ (c = eb /\ l = loc_Exact /\ m <= Zpos mb * 2 ^ (c - e))) ->
  fits p em (binary_round_aux p em false m e l) mb eb.
Proof.
  intros Hm0 Hb c Hec Hbound.
  unfold bounded, canonical_mantissa in Hb. apply andb_true_iff in Hb as [Hcan Hmax].
  apply Z.eqb_eq in Hcan. apply Z.leb_le in Hmax.
  assert (Hcmin : SpecFloat.emin p em <= c) by (unfold c, fexp; lia).
  pose proof (Zdigits2_bounds m Hm0) as [Hmd Hml].
  pose proof (Zdigits2_nonneg m) as Hdn.
  pose proof (digits2_bounds mb) as [Hmbl Hmbu].
  assert (Hdb : Zpos (digits2_pos mb) <= p) by (unfold fexp in Hcan; lia).
  assert (Hmbp : Zpos mb < 2 ^ p).
  { eapply Z.lt_le_trans; [exact Hmbu|]. apply Z.pow_le_mono_r; lia. }
  unfold binary_round_aux, shr_fexp. fold c.
  pose proof (shr_m_spec m e (c - e) l Hm0 ltac:(lia)) as Hs. cbv zeta in Hs.
  destruct (shr (shr_record_of_loc m l) e (c - e)) as [mrs1 e1].
  cbn [fst snd] in Hs. destruct Hs as (He1 & Hm1 & Hex).
  replace (e + (c - e)) with c in He1 by lia. subst e1.
  pose proof (round_nearest_even_bounds (shr_m mrs1) (loc_of_shr_record mrs1)) as Hrne.
  assert (Hpw : 0 < 2 ^ (c - e)) by (apply Z.pow_pos_nonneg; lia).
  assert (Hm1n : 0 <= shr_m mrs1) by (rewrite Hm1; apply Z.div_pos; lia).
  assert (Hm1p : shr_m mrs1 < 2 ^ p).
  { rewrite Hm1. apply Z.div_lt_upper_bound; [lia|].
    rewrite <- Z.pow_add_r by lia.
    eapply Z.lt_le_trans; [exact Hmd|]. apply Z.pow_le_mono_r; [lia|].
    unfold c, fexp. lia. }
  assert (Hm1l : SpecFloat.emin p em < c -> 2 ^ (p - 1) <= shr_m mrs1).
  { intros Hnorm.
    assert (Hdm : p <= Zdigits2 m) by (unfold c, fexp in *; lia).
    assert (Hmpos : 0 < m) by (destruct m; cbn in Hdm; lia).
    rewrite Hm1. apply Z.div_le_lower_bound; [lia|].
    rewrite <- Z.pow_add_r by lia.
    eapply Z.le_trans; [|exact (Hml Hmpos)]. apply Z.pow_le_mono_r; [lia|].
    unfold c, fexp in *. lia. }
  assert (Hle : c = eb -> round_nearest_even (shr_m mrs1) (loc_of_shr_record mrs1) <= Zpos mb).
  { intros Hceb. destruct Hbound as [Hlt | (_ & Hl & Hmle)]; [lia|].
    destruct (Z.eq_dec m (Zpos mb * 2 ^ (c - e))) as [Heq|Hne].
    - rewrite Hex by (assumption || (rewrite Heq; apply Z.mod_mul; lia)).
      cbn [round_nearest_even]. rewrite Hm1, Heq, Z.div_mul by lia. lia.
    - assert (shr_m mrs1 < Zpos mb); [|lia].
      rewrite Hm1. apply Z.div_lt_upper_bound; lia. }
  destruct (round_nearest_even (shr_m mrs1) (loc_of_shr_record mrs1)) as [|q2|q2] eqn:Hq2;
    [| |lia].
  - (* rounded to zero *)
    cbn [Zdigits2 shr_record_of_loc]. rewrite shr_nonpos by (unfold fexp; lia).
    split; [now left | reflexivity].
  - cbn [Zdigits2 shr_record_of_loc].
    destruct (Z_lt_ge_dec (Zpos q2) (2 ^ p)) as [Hsmall|Hbig].
    + (* no carry *)
      assert (Hd2 : Zpos (digits2_pos q2) <= p) by (apply digits2_le; lia).
      rewrite shr_nonpos by (unfold fexp; lia). cbn [shr_m].
      assert (Hcmax : c <= em - p) by (destruct Hbound as [?|[? _]]; lia).
      replace (c <=? em - p) with true by (symmetry; apply Z.leb_le; exact Hcmax).
      split.
      * right. exists q2, c. split; [reflexivity|].
        unfold bounded, canonical_mantissa. apply andb_true_iff.
        split; [apply Z.eqb_eq | now apply Z.leb_le].
        destruct (Z_le_gt_dec c (SpecFloat.emin p em)) as [Hsub|Hnorm].
        -- unfold fexp. lia.
        -- assert (p <= Zpos (digits2_pos q2)).
           { replace p with (p - 1 + 1) by lia. apply digits2_ge.
             specialize (Hm1l ltac:(lia)). lia. }
           unfold fexp. lia.
      * unfold SFleb, SFcompare.
        destruct (Z.compare_spec c eb) as [Heq|Hlt|Hgt];
          [|reflexivity|destruct Hbound as [?|[? _]]; lia].
        change (Pos.compare_cont Eq q2 mb) with (q2 ?= mb)%positive.
        destruct (Pos.compare_spec q2 mb) as [Hc|Hc|Hc]; try reflexivity.
        specialize (Hle Heq). lia.
    + (* the mantissa became 2^p *)
      assert (Hq2p : Zpos q2 = 2 ^ p) by lia.
      assert (Hceb : c < eb).
      { destruct Hbound as [?|[Heq _]]; [assumption|]. specialize (Hle Heq). lia. }
      rewrite (digits2_pow2 q2 p) by (lia || assumption).
      replace (fexp p em (p + 1 + c) - c) with 1 by (unfold fexp; lia).
      pose proof (shr_m_spec (Zpos q2) c 1 loc_Exact ltac:(lia) ltac:(lia)) as Hs2.
      cbv zeta in Hs2. cbn [shr_record_of_loc] in Hs2.
      destruct (shr {| shr_m := Zpos q2; shr_r := false; shr_s := false |} c 1)
        as [mrs2 e2]. cbn [fst snd] in Hs2. destruct Hs2 as (He2 & Hm2 & _).
      subst e2. rewrite Hm2, Hq2p. change (2 ^ 1) with 2.
      replace (2 ^ p / 2) with (2 ^ (p - 1)).
      2:{ replace p with (p - 1 + 1) at 2 by lia. rewrite Z.pow_add_r by lia.
          change (2 ^ 1) with 2. now rewrite Z.div_mul by lia. }
      assert (Hpp : 0 < 2 ^ (p - 1)) by (apply Z.pow_pos_nonneg; lia).
      destruct (2 ^ (p - 1)) as [|q3|q3] eqn:Hq3; [lia| |lia].
      replace (c + 1 <=? em - p) with true by (symmetry; apply Z.leb_le; lia).
      split.
      * right. exists q3, (c + 1). split; [reflexivity|].
        unfold bounded, canonical_mantissa. apply andb_true_iff.
        split; [apply Z.eqb_eq | apply Z.leb_le; lia].
        rewrite (digits2_pow2 q3 (p - 1)) by (lia || (rewrite <- Hq3; reflexivity)).
        unfold fexp. lia.
      * unfold SFleb, SFcompare.
        destruct (Z.compare_spec (c + 1) eb) as [Heq|Hlt|Hgt]; [|reflexivity|lia].
        change (Pos.compare_cont Eq q3 mb) with (q3 ?= mb)%positive.
        destruct (Pos.compare_spec q3 mb) as [Hc|Hc|Hc]; try reflexivity.
        exfalso.
        assert (Hdp : Zpos (digits2_pos mb) = p) by (unfold fexp in Hcan; lia).
        rewrite Hdp in Hmbl. lia.
Qed.
End Upper.

(** *** Comparing values *)

Lemma le_val_scale (m1 m2 : positive) (e1 e2 z : Z) :
  z <= e1 -> z <= e2 ->
  (le_val m1 e1 m2 e2 <-> Zpos m1 * 2 ^ (e1 - z) <= Zpos m2 * 2 ^ (e2 - z)).
Proof.
  intros H1 H2. unfold le_val. set (k := Z.min e1 e2).
  assert (Hk : z <= k) by (unfold k; lia).
  assert (Hp : 0 < 2 ^ (k - z)) by (apply Z.pow_pos_nonneg; lia).
  replace (e1 - z) with ((e1 - k) + (k - z)) by lia.
  replace (e2 - z) with ((e2 - k) + (k - z)) by lia.
  rewrite !Z.pow_add_r by (unfold k; lia).
  rewrite !Z.mul_assoc. split; intros H.
  - apply Z.mul_le_mono_nonneg_r; lia.
  - apply Z.mul_le_mono_pos_r in H; lia.
Qed.

Lemma le_val_trans (m1 m2 m3 : positive) (e1 e2 e3 : Z) :
  le_val m1 e1 m2 e2 -> le_val m2 e2 m3 e3 -> le_val m1 e1 m3 e3.
Proof.
  intros H12 H23. set (z := Z.min e1 (Z.min e2 e3)).
  apply (le_val_scale _ _ _ _ z) in H12; [|unfold z; lia..].
  apply (le_val_scale _ _ _ _ z) in H23; [|unfold z; lia..].
  apply (le_val_scale _ _ _ _ z); [unfold z; lia..|]. lia.
Qed.

(** The larger value has the larger magnitude. *)
Lemma le_val_digits (m1 m2 : positive) (e1 e2 : Z) :
  le_val m1 e1 m2 e2 ->
  Zpos (digits2_pos m1) + e1 <= Zpos (digits2_pos m2) + e2.
Proof.
  unfold le_val. set (z := Z.min e1 e2). intros H.
  pose proof (digits2_bounds m1) as [Hl _]. pose proof (digits2_bounds m2) as [_ Hu].
  assert (H1 : 2 ^ (Zpos (digits2_pos m1) - 1 + (e1 - z)) <= Zpos m1 * 2 ^ (e1 - z)).
  { rewrite Z.pow_add_r by (unfold z; lia).
    apply Z.mul_le_mono_nonneg_r; [apply Z.pow_nonneg|]; lia. }
  assert (H2 : Zpos m2 * 2 ^ (e2 - z) < 2 ^ (Zpos (digits2_pos m2) + (e2 - z))).
  { rewrite Z.pow_add_r by (unfold z; lia).
    apply Z.mul_lt_mono_pos_r; [apply Z.pow_pos_nonneg; unfold z|]; lia. }
  assert (H3 : 2 ^ (Zpos (digits2_pos m1) - 1 + (e1 - z))
               < 2 ^ (Zpos (digits2_pos m2) + (e2 - z))) by lia.
  apply Z.pow_lt_mono_r_iff in H3; unfold z in *; lia.
Qed.

Section Order.
Variables p em : Z.
Hypothesis Hp : 0 < p.

(** The order of two positive data of the format is the order of their
    values. *)
Lemma SFleb_le_val (m1 m2 : positive) (e1 e2 : Z) :
  bounded p em m1 e1 = true -> bounded p em m2 e2 = true ->
  SFleb (S754_finite false m1 e1) (S754_finite false m2 e2) = true ->
  le_val m1 e1 m2 e2.
Proof.
  unfold bounded, canonical_mantissa, fexp. intros H1 H2.
  apply andb_true_iff in H1 as [H1 _]. apply andb_true_iff in H2 as [H2 _].
  apply Z.eqb_eq in H1, H2.
  unfold SFleb, SFcompare, le_val.
  destruct (Z.compare_spec e1 e2) as [He|He|He]; try discriminate.
  - subst e2. rewrite Z.min_id, Z.sub_diag, !Z.mul_1_r.
    change (Pos.compare_cont Eq m1 m2) with (m1 ?= m2)%positive.
    destruct (Pos.compare_spec m1 m2); try discriminate; lia.
  - intros _. rewrite Z.min_l, Z.sub_diag, Z.mul_1_r by lia.
    pose proof (digits2_bounds m1) as [_ Hu]. pose proof (digits2_bounds m2) as [Hl _].
    assert (Hd1 : Zpos (digits2_pos m1) <= p) by lia.
    assert (Hd2 : Zpos (digits2_pos m2) = p) by lia. rewrite Hd2 in Hl.
    assert (Hu' : Zpos m1 < 2 ^ p).
    { eapply Z.lt_le_trans; [exact Hu|]. apply Z.pow_le_mono_r; lia. }
    assert (Hpw : 2 ^ 1 <= 2 ^ (e2 - e1)) by (apply Z.pow_le_mono_r; lia).
    change (2 ^ 1) with 2 in Hpw.
    assert (Hpp : 2 ^ p = 2 ^ (p - 1) * 2).
    { replace p with (p - 1 + 1) at 1 by lia. now rewrite Z.pow_add_r by lia. }
    nia.
Qed.

Lemma shl_align_spec (m : positive) (e c : Z) :
  let r := shl_align m e c in
  snd r = Z.min e c
  /\ Zpos (fst r) = Zpos m * 2 ^ (e - Z.min e c).
Proof.
  unfold shl_align. destruct (c - e) as [|k|k] eqn:Hk; cbn [fst snd].
  - rewrite Z.min_l by lia. rewrite Z.sub_diag, Z.mul_1_r. auto.
  - rewrite Z.min_l by lia. rewrite Z.sub_diag, Z.mul_1_r. auto.
  - rewrite Z.min_r by lia. split; [reflexivity|].
    change (Pos.iter xO m k) with (shift_pos k m).
    rewrite shift_pos_correct, Z.pow_pos_fold.
    replace (e - c) with (Zpos k) by lia. lia.
Qed.

(** Rounding a value that does not exceed a datum of the format. *)
Lemma binary_round_upper (m mb : positive) (e eb : Z) :
  bounded p em mb eb = true ->
  le_val m e mb eb ->
  fits p em (binary_round p em false m e) mb eb.
Proof.
  intros Hb Hle. unfold binary_round.
  set (c := fexp p em (Zpos (digits2_pos m) + e)).
  pose proof (shl_align_spec m e c) as Hs. cbv zeta in Hs.
  destruct (shl_align m e c) as [mz ez]. cbn [fst snd] in Hs. destruct Hs as [Hez Hmz].
  assert (Hdz : Zpos (digits2_pos mz) + ez = Zpos (digits2_pos m) + e).
  { destruct (Z_le_gt_dec e c) as [H|H].
    - rewrite Z.min_l in Hez, Hmz by lia. subst ez.
      rewrite Z.sub_diag, Z.mul_1_r in Hmz. now injection Hmz as ->.
    - rewrite Z.min_r in Hez, Hmz by lia. subst ez.
      assert (Hmz' : mz = Pos.shiftl m (Z.to_N (e - c))).
      { apply Pos2Z.inj. rewrite Hmz, Zpos_shiftl, Z2N.id by lia. reflexivity. }
      rewrite Hmz', digits2_shiftl, Z2N.id by lia. lia. }
  apply binary_round_aux_upper; [exact Hp|lia|exact Hb| |];
    cbn [Zdigits2]; rewrite Hdz; fold c.
  - lia.
  - pose proof (le_val_digits _ _ _ _ Hle) as Hd.
    pose proof Hb as Hb'. unfold bounded, canonical_mantissa in Hb'.
    apply andb_true_iff in Hb' as [Hcan _]. apply Z.eqb_eq in Hcan.
    assert (Hc : c <= eb) by (unfold c, fexp in *; lia).
    destruct (Z_lt_ge_dec c eb) as [Hlt|Hge]; [now left|right].
    split; [lia|]. split; [reflexivity|]. assert (Hceq : c = eb) by lia.
    rewrite Hmz, Hez, Hceq. exact Hle.
Qed.
End Order.

(** *** Products and differences that stay below a bound *)

Lemma bounded_digits (p em : Z) (m : positive) (e : Z) :
  bounded p em m e = true ->
  Zpos (digits2_pos m) <= p
  /\ (SpecFloat.emin p em < e -> Zpos (digits2_pos m) = p)
  /\ SpecFloat.emin p em <= e
  /\ fexp p em (Zpos (digits2_pos m) + e) = e.
Proof.
  unfold bounded, canonical_mantissa, fexp. intros H.
  apply andb_true_iff in H as [H _]. apply Z.eqb_eq in H. lia.
Qed.

Lemma digits2_mul (a b : positive) :
  Zpos (digits2_pos a) + Zpos (digits2_pos b) - 1 <= Zpos (digits2_pos (a * b))
  /\ Zpos (digits2_pos (a * b)) <= Zpos (digits2_pos a) + Zpos (digits2_pos b).
Proof.
  pose proof (digits2_bounds a) as [Hal Hau]. pose proof (digits2_bounds b) as [Hbl Hbu].
  assert (0 < 2 ^ (Zpos (digits2_pos a) - 1)) by (apply Z.pow_pos_nonneg; lia).
  assert (0 < 2 ^ (Zpos (digits2_pos b) - 1)) by (apply Z.pow_pos_nonneg; lia).
  split.
  - replace (Zpos (digits2_pos a) + Zpos (digits2_pos b) - 1)
      with ((Zpos (digits2_pos a) - 1 + (Zpos (digits2_pos b) - 1)) + 1) by lia.
    apply digits2_ge. rewrite Z.pow_add_r, Pos2Z.inj_mul by lia. nia.
  - apply digits2_le; [lia|]. rewrite Z.pow_add_r, Pos2Z.inj_mul by lia. nia.
Qed.

Lemma SFleb_refl_finite (s : bool) (m : positive) (e : Z) :
  SFleb (S754_finite s m e) (S754_finite s m e) = true.
Proof.
  unfold SFleb, SFcompare. rewrite Z.compare_refl.
  change (Pos.compare_cont Eq m m) with (m ?= m)%positive.
  rewrite Pos.compare_refl. now destruct s.
Qed.

(** A positive datum not above 1 is 1 or has an exponent below that of 1. *)
Lemma SFleb_one (m : positive) (e : Z) :
  bounded prec emax m e = true ->
  SFleb (S754_finite false m e) SFone = true ->
  S754_finite false m e = SFone \/ e <= -53.
Proof.
  intros Hb Hle. destruct (bounded_digits _ _ _ _ Hb) as (Hd & Hn & Hmin & _).
  assert (Hone : bounded prec emax 4503599627370496 (-52) = true) by reflexivity.
  pose proof (SFleb_le_val prec emax ltac:(reflexivity) _ _ _ _ Hb Hone Hle) as Hv.
  pose proof (le_val_digits _ _ _ _ Hv) as Hdg.
  change (Zpos (digits2_pos 4503599627370496)) with 53 in Hdg.
  unfold SpecFloat.emin, prec, emax in *.
  destruct (Z_le_gt_dec e (-53)) as [He|He]; [now right|left].
  assert (Hdm : Zpos (digits2_pos m) = 53) by (apply Hn; lia).
  assert (He52 : e = -52) by lia. subst e.
  unfold le_val in Hv. rewrite Z.min_id, Z.sub_diag, !Z.mul_1_r in Hv.
  pose proof (digits2_bounds m) as [Hl _]. rewrite Hdm in Hl.
  change (2 ^ (53 - 1)) with 4503599627370496 in Hl.
  unfold SFone. f_equal. lia.
Qed.

Lemma SF_mul_upper (mh mt : positive) (eh et : Z) :
  bounded prec emax mh eh = true ->
  bounded prec emax mt et = true ->
  SFleb (S754_finite false mt et) SFone = true ->
  fits prec emax (SF64mul (S754_finite false mh eh) (S754_finite false mt et)) mh eh.
Proof.
  intros Hh Ht Hle.
  destruct (SFleb_one mt et Ht Hle) as [Hone | Het].
  { rewrite Hone, SF_mul_one_r by exact Hh. split; [|apply SFleb_refl_finite].
    right. eauto. }
  destruct (bounded_digits _ _ _ _ Hh) as (Hdh & Hnh & Hminh & Hch).
  destruct (bounded_digits _ _ _ _ Ht) as (Hdt & _ & _ & _).
  pose proof (digits2_mul mh mt) as [Hdl Hdu].
  pose proof (digits2_bounds mt) as [_ Hmt].
  assert (0 < Zpos (digits2_pos mt)) by lia.
  cbn [SF64mul SFmul xorb].
  apply binary_round_aux_upper; [reflexivity | lia | exact Hh | |];
    cbn [Zdigits2]; unfold fexp, SpecFloat.emin, prec, emax in *.
  - lia.
  - destruct (Z_lt_ge_dec
                (Z.max (Zpos (digits2_pos (mh * mt)) + (eh + et) - 53) (3 - 1024 - 53)) eh)
      as [Hlt|Hge]; [now left|right].
    split; [lia|]. split; [reflexivity|].
    replace (Z.max (Zpos (digits2_pos (mh * mt)) + (eh + et) - 53) (3 - 1024 - 53))
      with eh by lia.
    replace (eh - (eh + et)) with (- et) by lia.
    assert (2 ^ Zpos (digits2_pos mt) <= 2 ^ (- et)) by (apply Z.pow_le_mono_r; lia).
    rewrite Pos2Z.inj_mul. nia.
Qed.

Lemma SF_sub_upper (mh mu : positive) (eh eu : Z) :
  bounded prec emax mh eh = true ->
  bounded prec emax mu eu = true ->
  SFleb (S754_finite false mu eu) (S754_finite false mh eh) = true ->
  fits prec emax (SF64sub (S754_finite false mh eh) (S754_finite false mu eu)) mh eh.
Proof.
  intros Hh Hu Hle.
  pose proof (SFleb_le_val prec emax ltac:(reflexivity) _ _ _ _ Hu Hh Hle) as Hv.
  cbn [SF64sub SFsub cond_Zopp].
  set (ez := Z.min eh eu).
  pose proof (shl_align_spec mh eh ez) as [_ Hmh].
  pose proof (shl_align_spec mu eu ez) as [_ Hmu].
  rewrite Z.min_r in Hmh, Hmu by (unfold ez; lia).
  rewrite Hmh, Hmu.
  apply (le_val_scale mu mh eu eh ez) in Hv; [|unfold ez; lia..].
  destruct (Zpos mh * 2 ^ (eh - ez) - Zpos mu * 2 ^ (eu - ez)) as [|n|n] eqn:Hn; [| |lia].
  - cbn [binary_normalize]. split; [now left | reflexivity].
  - cbn [binary_normalize]. apply binary_round_upper; [reflexivity | exact Hh |].
    apply (le_val_scale n mh ez eh ez); [lia | unfold ez; lia |].
    rewrite Z.sub_diag, Z.mul_1_r.
    assert (0 < Zpos mu * 2 ^ (eu - ez)).
    { apply Z.mul_pos_pos; [lia|]. apply Z.pow_pos_nonneg; unfold ez; lia. }
    lia.
Qed.

(** *** Narrowing below a FLOAT bound *)

Lemma mantissa24_bounded (q : positive) :
  Zpos q < 2 ^ 24 ->
  bounded 24 128 (mantissa24 q) (Zpos (digits2_pos q) - 24) = true.
Proof.
  intros Hq. assert (Hd : Zpos (digits2_pos q) <= 24) by (apply digits2_le; lia).
  unfold bounded, canonical_mantissa, fexp, SpecFloat.emin, mantissa24.
  rewrite digits2_shiftl, Z2N.id by lia.
  apply andb_true_iff; split; [apply Z.eqb_eq | apply Z.leb_le]; lia.
Qed.

Lemma mantissa24_value (q : positive) :
  Zpos q < 2 ^ 24 ->
  Zpos (Pos.shiftl q (Z.to_N (53 - Zpos (digits2_pos q))))
  = Zpos (mantissa24 q) * 2 ^ 29.
Proof.
  intros Hq. assert (Hd : Zpos (digits2_pos q) <= 24) by (apply digits2_le; lia).
  unfold mantissa24. rewrite !Zpos_shiftl, !Z2N.id by lia.
  rewrite <- Z.mul_assoc, <- Z.pow_add_r by lia. f_equal. f_equal. lia.
Qed.

(** Narrowing and widening a double between 0 and an integer below
    [2^24] keeps it there. *)
Lemma SF_narrow_upper (q mr : positive) (er : Z) :
  Zpos q < 2 ^ 24 ->
  bounded prec emax mr er = true ->
  SFleb (S754_finite false mr er) (SFpos q) = true ->
  fits prec emax (SFwiden (SFnarrow (S754_finite false mr er)))
    (Pos.shiftl q (Z.to_N (53 - Zpos (digits2_pos q)))) (Zpos (digits2_pos q) - 53).
Proof.
  intros Hq Hr Hle.
  assert (Hd : Zpos (digits2_pos q) <= 24) by (apply digits2_le; lia).
  assert (Hd53 : Zpos (digits2_pos q) <= 53) by lia.
  pose proof (SFpos_bounded q Hd53) as Hb64.
  pose proof (mantissa24_bounded q Hq) as Hb24.
  pose proof (mantissa24_value q Hq) as Hval.
  set (d := Zpos (digits2_pos q)) in *.
  set (m64 := Pos.shiftl q (Z.to_N (53 - d))) in *.
  set (m24 := mantissa24 q) in *.
  assert (H6424 : le_val m64 (d - 53) m24 (d - 24)).
  { apply (le_val_scale _ _ _ _ (d - 53)); [lia..|].
    rewrite Z.sub_diag, Z.mul_1_r, Hval.
    replace (d - 24 - (d - 53)) with 29 by lia. lia. }
  assert (H2464 : le_val m24 (d - 24) m64 (d - 53)).
  { apply (le_val_scale _ _ _ _ (d - 53)); [lia..|].
    rewrite Z.sub_diag, Z.mul_1_r, Hval.
    replace (d - 24 - (d - 53)) with 29 by lia. lia. }
  unfold SFpos in Hle. fold d m64 in Hle.
  pose proof (SFleb_le_val prec emax ltac:(reflexivity) _ _ _ _ Hr Hb64 Hle) as Hv.
  cbn [SFnarrow].
  destruct (binary_round_upper 24 128 ltac:(reflexivity) mr m24 er (d - 24) Hb24
              (le_val_trans _ _ _ _ _ _ Hv H6424)) as [[Hz | (m3 & e3 & Hx & Hb3)] Hle3].
  - rewrite Hz. cbn [SFwiden]. split; [now left | reflexivity].
  - rewrite Hx in *. cbn [SFwiden].
    pose proof (SFleb_le_val 24 128 ltac:(reflexivity) _ _ _ _ Hb3 Hb24 Hle3) as Hv3.
    apply binary_round_upper; [reflexivity | exact Hb64 |].
    exact (le_val_trans _ _ _ _ _ _ Hv3 H2464).
Qed.

(** *** The ordinate of a fraction between 0 and 1 *)

Lemma fits_valid (r : spec_float) (mb : positive) (eb : Z) :
  fits prec emax r mb eb ->
  valid_binary r = true /\ SFleb (S754_zero false) r = true.
Proof.
  intros [[-> | (m & e & -> & Hb)] _]; split; try reflexivity. exact Hb.
Qed.

Lemma SF_ordinate_within (q : positive) (t : spec_float) :
  Zpos q < 2 ^ 24 ->
  valid_binary t = true ->
  SFleb (S754_zero false) t = true ->
  SFleb t SFone = true ->
  fits prec emax
    (SFwiden (SFnarrow (SF64sub (SFpos q) (SF64mul (SFpos q) t))))
    (Pos.shiftl q (Z.to_N (53 - Zpos (digits2_pos q)))) (Zpos (digits2_pos q) - 53).
Proof.
  intros Hq Hvt H0 H1.
  assert (Hd53 : Zpos (digits2_pos q) <= 53) by (apply digits2_le; lia).
  pose proof (SFpos_bounded q Hd53) as Hb.
  assert (Hself : fits prec emax (SFwiden (SFnarrow (SFpos q)))
                    (Pos.shiftl q (Z.to_N (53 - Zpos (digits2_pos q))))
                    (Zpos (digits2_pos q) - 53)).
  { rewrite SF_narrow_pos by exact Hq. split; [|apply SFleb_refl_finite].
    right. unfold SFpos. eauto. }
  assert (Hzero : fits prec emax (SFwiden (SFnarrow (S754_zero false)))
                    (Pos.shiftl q (Z.to_N (53 - Zpos (digits2_pos q))))
                    (Zpos (digits2_pos q) - 53)).
  { cbn [SFnarrow SFwiden]. split; [now left | reflexivity]. }
  destruct t as [b|b| |b mt et]; try destruct b; try discriminate.
  - exact Hself.
  - exact Hself.
  - cbn [valid_binary] in Hvt.
    destruct (SF_mul_upper _ mt _ et Hb Hvt H1) as [[Hu | (mu & eu & Hu & Hbu)] Hleu];
      unfold SFpos in Hu |- *; cbv zeta in Hu |- *; rewrite Hu in *.
    + exact Hself.
    + destruct (SF_sub_upper _ mu _ eu Hb Hbu Hleu) as [[Hr | (mr & er & Hr & Hbr)] Hler];
        rewrite Hr in *.
      * exact Hzero.
      * now apply SF_narrow_upper.
Qed.

(** *** A quotient that does not exceed 1 *)

Lemma SFleb_exponents (m1 m2 : positive) (e1 e2 : Z) :
  SFleb (S754_finite false m1 e1) (S754_finite false m2 e2) = true ->
  e1 < e2 \/ (e1 = e2 /\ Zpos m1 <= Zpos m2).
Proof.
  unfold SFleb, SFcompare.
  destruct (Z.compare_spec e1 e2) as [He|He|He]; [|now left|discriminate].
  change (Pos.compare_cont Eq m1 m2) with (m1 ?= m2)%positive.
  destruct (Pos.compare_spec m1 m2) as [Hm|Hm|Hm]; try discriminate; intros _; right; lia.
Qed.

Lemma SFone_bounded : bounded prec emax 4503599627370496 (-52) = true.
Proof. vm_compute. reflexivity. Qed.

(** A positive datum divided by one that is not below it gives a datum
    between 0 and 1. *)
Lemma SF_div_within (ma md : positive) (ea ed : Z) :
  bounded prec emax ma ea = true -> bounded prec emax md ed = true ->
  SFleb (S754_finite false ma ea) (S754_finite false md ed) = true ->
  fits prec emax (SF64div (S754_finite false ma ea) (S754_finite false md ed))
    4503599627370496 (-52).
Proof.
  intros Ha Hd Hle.
  destruct (SFleb_exponents _ _ _ _ Hle) as [Hlt | [Heq Hm]].
  2: destruct (Z.eq_dec (Zpos ma) (Zpos md)) as [Hsame | Hdiff].
  2:{ injection Hsame as ->. subst ed. rewrite SF_div_same.
      split; [|apply SFleb_refl_finite]. right. exists 4503599627370496%positive, (-52).
      split; [reflexivity | exact SFone_bounded]. }
  all: unfold bounded, canonical_mantissa in Ha, Hd;
    apply andb_true_iff in Ha as [Hca Hxa]; apply andb_true_iff in Hd as [Hcd Hxd];
    apply Z.eqb_eq in Hca, Hcd; apply Z.leb_le in Hxa, Hxd;
    unfold fexp, SpecFloat.emin, prec, emax in Hca, Hcd, Hxa, Hxd;
    pose proof (digits2_bounds ma) as [Hal Hau];
    pose proof (digits2_bounds md) as [Hdl Hdu];
    assert (Hstrict : Zpos ma < Zpos md * 2 ^ (ed - ea)).
  1:{ assert (Zpos (digits2_pos md) = 53) by lia.
      assert (Zpos (digits2_pos ma) <= 53) by lia.
      assert (Zpos ma < 2 ^ 53).
      { eapply Z.lt_le_trans; [exact Hau|]. apply Z.pow_le_mono_r; lia. }
      assert (2 ^ 52 <= Zpos md) by (replace 52 with (Zpos (digits2_pos md) - 1) by lia; exact Hdl).
      assert (2 ^ 1 <= 2 ^ (ed - ea)) by (apply Z.pow_le_mono_r; lia).
      change (2 ^ 1) with 2 in *. change (2 ^ 53) with (2 ^ 52 * 2) in *. nia. }
  2:{ subst ed. rewrite Z.sub_diag, Z.pow_0_r. lia. }
  all: assert (Hee : ea <= ed) by lia; clear Hle;
    cbn [SF64div SFdiv xorb]; unfold SFdiv_core_binary; cbn [Zdigits2];
    set (d1 := Zpos (digits2_pos ma)) in *; set (d2 := Zpos (digits2_pos md)) in *;
    set (e' := Z.min (fexp prec emax (d1 + ea - (d2 + ed))) (ea - ed));
    set (s := ea - ed - e');
    assert (He'0 : e' <= ea - ed) by (unfold e'; lia);
    assert (Hs0 : 0 <= s) by (unfold s; lia);
    assert (Hshift : match s with
                     | Z0 => Zpos ma
                     | Zpos _ => Z.shiftl (Zpos ma) s
                     | Zneg _ => 0
                     end = Zpos ma * 2 ^ s)
      by (destruct s as [|k|k] eqn:Es;
          [rewrite Z.pow_0_r; lia | rewrite Z.shiftl_mul_pow2 by lia; reflexivity | lia]);
    rewrite Hshift, div_eucl_eq;
    assert (Hps : 0 < 2 ^ s) by (apply Z.pow_pos_nonneg; lia);
    assert (Hq0 : 0 <= Zpos ma * 2 ^ s / Zpos md) by (apply Z.div_pos; lia);
    assert (Hqu : Zpos ma * 2 ^ s / Zpos md < 2 ^ (- e'))
      by (apply Z.div_lt_upper_bound; [lia|];
          replace (- e') with (s + (ed - ea)) by (unfold s; lia);
          rewrite Z.pow_add_r by lia;
          assert (0 < 2 ^ (ed - ea)) by (apply Z.pow_pos_nonneg; lia); nia);
    assert (Hdq : Zdigits2 (Zpos ma * 2 ^ s / Zpos md) + e' <= 0)
      by (destruct (Zpos ma * 2 ^ s / Zpos md) as [|q|q] eqn:Eq; cbn [Zdigits2];
          [lia | pose proof (digits2_le q (- e') ltac:(lia) Hqu); lia | lia]);
    apply binary_round_aux_upper;
      [reflexivity | exact Hq0 | exact SFone_bounded | | left;
        unfold fexp, SpecFloat.emin, prec, emax; lia];
    (destruct (Z_le_gt_dec e' (3 - 1024 - 53)) as [Hsub | Hnorm];
      [unfold fexp, SpecFloat.emin, prec, emax; lia|]);
    assert (Hs1 : d2 - d1 + 53 <= s)
      by (unfold s, e', fexp, SpecFloat.emin, prec, emax in *; lia);
    assert (Hql : 2 ^ 52 <= Zpos ma * 2 ^ s / Zpos md)
      by (apply Z.div_le_lower_bound; [lia|];
          assert (2 ^ (d2 + 52) <= Zpos ma * 2 ^ s)
            by (eapply Z.le_trans;
                 [apply (Z.pow_le_mono_r 2 (d2 + 52) (d1 - 1 + s)); lia|];
                 rewrite Z.pow_add_r by (unfold d1; lia);
                 apply Z.mul_le_mono_nonneg_r; [lia | exact Hal]);
          assert (Zpos md * 2 ^ 52 < 2 ^ (d2 + 52))
            by (rewrite Z.pow_add_r by (unfold d2; lia);
                apply Z.mul_lt_mono_pos_r; [reflexivity | exact Hdu]);
          lia);
    (destruct (Zpos ma * 2 ^ s / Zpos md) as [|q|q] eqn:Eq;
      [change (2 ^ 52) with 4503599627370496 in Hql; lia | | lia]);
    pose proof (digits2_ge q 52 Hql); cbn [Zdigits2];
    unfold fexp, SpecFloat.emin, prec, emax; lia.
Qed.

Local Open Scope float_scope.

(** On a surface whose height is an integer below [2^24], a fraction
    between 0 and 1 is mapped to an ordinate between 0 and the height. *)
Lemma ordinate_within (h t : double) (n : Z) :
  exact_in_FLOAT n ->
  h = of_uint63 (Uint63.of_Z n) ->
  (0 <=? t) = true -> (t <=? 1) = true ->
  (0 <=? to_FLOAT (h - h * t)) = true /\ (to_FLOAT (h - h * t) <=? h) = true.
Proof.
  intros Hn Hh H0 H1. rewrite leb_spec in H0, H1.
  change (Prim2SF 0) with (S754_zero false) in H0. rewrite Prim2SF_one in H1.
  pose proof (Prim2SF_valid t) as Hvt.
  pose proof (Prim2SF_of_Z n Hn) as HH. rewrite <- Hh in HH.
  rewrite !leb_spec. change (Prim2SF 0) with (S754_zero false).
  unfold to_FLOAT. rewrite sub_spec, mul_spec, HH.
  destruct Hn as [Hn0 Hn1]. destruct n as [|q|q]; [| |lia].
  - (* height zero *)
    destruct (Prim2SF t) as [b|b| |b mt et]; try destruct b; try discriminate;
      cbn; auto.
  - pose proof (SF_ordinate_within q (Prim2SF t) ltac:(lia) Hvt H0 H1) as Hf.
    destruct (fits_valid _ _ _ Hf) as [Hv Hpos]. destruct Hf as [_ Hle].
    rewrite Prim2SF_SF2Prim by exact Hv. split; [exact Hpos | exact Hle].
Qed.

(** A difference that is zero or above, divided by a finite difference
    that is not below it, is a fraction between 0 and 1. *)
Lemma fraction_within (a d : double) :
  (0 <=? a) = true -> (a <=? d) = true -> pos_finite d ->
  (0 <=? a / d) = true /\ (a / d <=? 1) = true.
Proof.
  intros H0 Hle Hd. destruct (pos_finite_SF d Hd) as (md & ed & Ed).
  pose proof (Prim2SF_valid d) as Hvd. pose proof (Prim2SF_valid a) as Hva.
  rewrite leb_spec in H0, Hle. rewrite !leb_spec, div_spec, Prim2SF_one.
  change (Prim2SF 0) with (S754_zero false) in *.
  rewrite Ed in *. cbn [valid_binary] in Hvd.
  destruct (Prim2SF a) as [b|b| |b ma ea]; try destruct b; try discriminate.
  - cbn. auto.
  - cbn. auto.
  - cbn [valid_binary] in Hva.
    pose proof (SF_div_within ma md ea ed Hva Hvd Hle) as Hf.
    destruct (fits_valid _ _ _ Hf) as [_ Hpos]. destruct Hf as [_ Hu].
    split; [exact Hpos | exact Hu].
Qed.

Local Close Scope float_scope.

(** *** Rounding to nearest, ties to even, read on the integers *)

Lemma shr_iter_loc (k : nat) (m : Z) :
  0 <= m ->
  loc_of_shr_record (Nat.iter k shr_1 {| shr_m := m; shr_r := false; shr_s := false |})
  = new_location_even (2 ^ Z.of_nat k) (m mod 2 ^ Z.of_nat k).
Proof.
  intros Hm. induction k as [|k IH].
  - cbn. now rewrite Z.mod_1_r.
  - rewrite Nat.iter_succ.
    pose proof (shr_iter_m k {| shr_m := m; shr_r := false; shr_s := false |} Hm) as HM.
    cbn [shr_m] in HM.
    assert (Hpk : 0 < 2 ^ Z.of_nat k) by (apply Z.pow_pos_nonneg; lia).
    assert (Hrem : m mod 2 ^ Z.of_nat (S k)
                   = m mod 2 ^ Z.of_nat k + 2 ^ Z.of_nat k * ((m / 2 ^ Z.of_nat k) mod 2)).
    { rewrite Nat2Z.inj_succ, Z.pow_succ_r by lia.
      rewrite (Z.mul_comm 2). apply Z.rem_mul_r; lia. }
    assert (Hpow : 2 ^ Z.of_nat (S k) = 2 * 2 ^ Z.of_nat k)
      by (rewrite Nat2Z.inj_succ, Z.pow_succ_r by lia; reflexivity).
    pose proof (Z.mod_pos_bound m (2 ^ Z.of_nat k) Hpk) as Hrho.
    rewrite Hrem, Hpow, Zmod_odd.
    destruct (Nat.iter k shr_1 {| shr_m := m; shr_r := false; shr_s := false |})
      as [M r s].
    cbn [shr_m] in HM. rewrite <- HM.
    assert (HM0 : 0 <= M) by (rewrite HM; apply Z.div_pos; lia).
    unfold new_location_even in IH |- *.
    set (rho := m mod 2 ^ Z.of_nat k) in *. set (P := 2 ^ Z.of_nat k) in *.
    assert (Hcls : match r, s with
                   | false, false => rho = 0
                   | false, true => rho <> 0 /\ 2 * rho < P
                   | true, false => rho <> 0 /\ 2 * rho = P
                   | true, true => rho <> 0 /\ 2 * rho > P
                   end).
    { destruct r, s; cbn [loc_of_shr_record] in IH;
        destruct (Z.eqb_spec rho 0) as [E0|E0]; try discriminate IH; try exact E0;
        (split; [exact E0|]);
        destruct (Z.compare_spec (2 * rho) P); try discriminate IH; lia. }
    clear IH.
    destruct M as [|[q|q|]|q]; [| | | |lia]; cbn [shr_1 Z.odd loc_of_shr_record];
      destruct r, s; cbn [orb loc_of_shr_record];
      match goal with
      | |- context [?a =? 0] => destruct (Z.eqb_spec a 0) as [E1|E1]
      end; try lia; try reflexivity;
      f_equal; symmetry;
      first [ apply Z.compare_eq_iff; lia
            | apply Z.compare_lt_iff; lia
            | apply Z.compare_gt_iff; lia ].
Qed.

(** The first step of rounding: a shift by [n] places, then the decision
    on the round and sticky bits. *)
Lemma shr_round (m e n : Z) :
  0 <= m -> 0 <= n ->
  let r := shr {| shr_m := m; shr_r := false; shr_s := false |} e n in
  snd r = e + n
  /\ round_nearest_even (shr_m (fst r)) (loc_of_shr_record (fst r)) = nearest_even m n.
Proof.
  intros Hm Hn. unfold nearest_even. destruct n as [|k|k]; [| |lia].
  - cbn [shr fst snd shr_m loc_of_shr_record].
    rewrite Z.pow_0_r, Z.div_1_r, Z.mod_1_r, Z.add_0_r. split; reflexivity.
  - cbn [shr fst snd]. rewrite iter_pos_nat. split; [reflexivity|].
    rewrite <- (positive_nat_Z k).
    rewrite shr_iter_m by exact Hm. now rewrite shr_iter_loc by exact Hm.
Qed.

Lemma nearest_even_bounds (X n : Z) :
  X / 2 ^ n <= nearest_even X n <= X / 2 ^ n + 1.
Proof. apply round_nearest_even_bounds. Qed.

Lemma nearest_even_scale (X n k : Z) :
  0 <= n -> 0 <= k -> nearest_even (X * 2 ^ k) (n + k) = nearest_even X n.
Proof.
  intros Hn Hk. unfold nearest_even.
  assert (Hpn : 0 < 2 ^ n) by (apply Z.pow_pos_nonneg; lia).
  assert (Hpk : 0 < 2 ^ k) by (apply Z.pow_pos_nonneg; lia).
  rewrite Z.pow_add_r by lia.
  rewrite Z.div_mul_cancel_r by lia.
  rewrite Z.mul_mod_distr_r by lia.
  f_equal. unfold new_location_even.
  destruct (Z.eqb_spec (X mod 2 ^ n) 0) as [E|E].
  - rewrite E. reflexivity.
  - destruct (Z.eqb_spec (X mod 2 ^ n * 2 ^ k) 0) as [E1|E1]; [nia|].
    f_equal.
    destruct (Z.compare_spec (2 * (X mod 2 ^ n * 2 ^ k)) (2 ^ n * 2 ^ k)),
             (Z.compare_spec (2 * (X mod 2 ^ n)) (2 ^ n)); try reflexivity; nia.
Qed.

Lemma nearest_even_mono (X X' n : Z) :
  0 <= n -> X <= X' -> nearest_even X n <= nearest_even X' n.
Proof.
  intros Hn HX.
  assert (Hpn : 0 < 2 ^ n) by (apply Z.pow_pos_nonneg; lia).
  pose proof (Z.div_le_mono X X' (2 ^ n) Hpn HX) as HF.
  pose proof (nearest_even_bounds X n) as HB.
  pose proof (nearest_even_bounds X' n) as HB'.
  destruct (Z.eq_dec (X / 2 ^ n) (X' / 2 ^ n)) as [E|E]; [|lia].
  pose proof (Z.div_mod X (2 ^ n) ltac:(lia)) as HD.
  pose proof (Z.div_mod X' (2 ^ n) ltac:(lia)) as HD'.
  pose proof (Z.mod_pos_bound X (2 ^ n) Hpn) as Hr.
  pose proof (Z.mod_pos_bound X' (2 ^ n) Hpn) as Hr'.
  clear HB HB'. unfold nearest_even, new_location_even, round_nearest_even.
  rewrite <- E in *.
  set (F := X / 2 ^ n) in *. set (r := X mod 2 ^ n) in *. set (r' := X' mod 2 ^ n) in *.
  set (P := 2 ^ n) in *.
  assert (Hrr : r <= r') by lia.
  destruct (Z.eqb_spec r 0), (Z.eqb_spec r' 0);
    destruct (Z.compare_spec (2 * r) P), (Z.compare_spec (2 * r') P);
    destruct (Z.even F); lia.
Qed.

Lemma nearest_even_0 (n : Z) : 0 <= n -> nearest_even 0 n = 0.
Proof.
  intros Hn. unfold nearest_even.
  assert (Hpn : 0 < 2 ^ n) by (apply Z.pow_pos_nonneg; lia).
  rewrite Z.div_0_l, Z.mod_0_l by lia. reflexivity.
Qed.

(** *** The shape of a rounded number *)

Section Shape.
Variables p em : Z.
Hypothesis Hp : 0 < p.

(** Rounding [m * 2^e], zero or positive, gives zero, or the nearest
    mantissa at the exponent of the format, renormalised when it reached
    [2^p], or an infinity when the exponent is too large. *)
Lemma binary_round_aux_shape (m e : Z) :
  0 <= m ->
  let c := fexp p em (Zdigits2 m + e) in
  e <= c ->
  let M := nearest_even m (c - e) in
  let R := binary_round_aux p em false m e loc_Exact in
  (M = 0 /\ R = S754_zero false)
  \/ exists q c1,
       Zpos q * 2 ^ (c1 - c) = M /\ c <= c1
       /\ Zpos (digits2_pos q) <= p
       /\ fexp p em (Zpos (digits2_pos q) + c1) = c1
       /\ R = if c1 <=? em - p then S754_finite false q c1 else S754_infinity false.
Proof.
  intros Hm0 c Hec M R. subst R.
  assert (Hcmin : SpecFloat.emin p em <= c) by (unfold c, fexp; lia).
  pose proof (Zdigits2_bounds m Hm0) as [Hmd Hml].
  pose proof (Zdigits2_nonneg m) as Hdn.
  unfold binary_round_aux, shr_fexp. fold c. cbn [shr_record_of_loc].
  pose proof (shr_round m e (c - e) Hm0 ltac:(lia)) as Hs. cbv zeta in Hs.
  destruct (shr {| shr_m := m; shr_r := false; shr_s := false |} e (c - e)) as [mrs1 e1].
  cbn [fst snd] in Hs. destruct Hs as (He1 & HM).
  replace (e + (c - e)) with c in He1 by lia. subst e1. rewrite HM. fold M.
  pose proof (nearest_even_bounds m (c - e)) as HB. fold M in HB.
  assert (Hpw : 0 < 2 ^ (c - e)) by (apply Z.pow_pos_nonneg; lia).
  assert (HF0 : 0 <= m / 2 ^ (c - e)) by (apply Z.div_pos; lia).
  assert (HFp : m / 2 ^ (c - e) < 2 ^ p).
  { apply Z.div_lt_upper_bound; [lia|].
    rewrite <- Z.pow_add_r by lia.
    eapply Z.lt_le_trans; [exact Hmd|]. apply Z.pow_le_mono_r; [lia|].
    unfold c, fexp. lia. }
  assert (HFl : SpecFloat.emin p em < c -> 2 ^ (p - 1) <= m / 2 ^ (c - e)).
  { intros Hnorm.
    assert (Hdm : p <= Zdigits2 m) by (unfold c, fexp in *; lia).
    assert (Hmpos : 0 < m) by (destruct m; cbn in Hdm; lia).
    apply Z.div_le_lower_bound; [lia|].
    rewrite <- Z.pow_add_r by lia.
    eapply Z.le_trans; [|exact (Hml Hmpos)]. apply Z.pow_le_mono_r; [lia|].
    unfold c, fexp in *. lia. }
  destruct M as [|q2|q2] eqn:HMq; [| |lia].
  - left. cbn [Zdigits2 shr_record_of_loc]. rewrite shr_nonpos by (unfold fexp; lia).
    split; reflexivity.
  - right. cbn [Zdigits2 shr_record_of_loc].
    destruct (Z_lt_ge_dec (Zpos q2) (2 ^ p)) as [Hsmall|Hbig].
    + assert (Hd2 : Zpos (digits2_pos q2) <= p) by (apply digits2_le; lia).
      rewrite shr_nonpos by (unfold fexp; lia). cbn [shr_m].
      exists q2, c. rewrite Z.sub_diag, Z.pow_0_r, Z.mul_1_r.
      repeat split; [lia | exact Hd2 | ].
      destruct (Z_le_gt_dec c (SpecFloat.emin p em)) as [Hsub|Hnorm].
      * unfold fexp. lia.
      * assert (p <= Zpos (digits2_pos q2)).
        { replace p with (p - 1 + 1) by lia. apply digits2_ge.
          specialize (HFl ltac:(lia)). lia. }
        unfold fexp. lia.
    + assert (Hq2p : Zpos q2 = 2 ^ p) by lia.
      rewrite (digits2_pow2 q2 p) by (lia || assumption).
      replace (fexp p em (p + 1 + c) - c) with 1 by (unfold fexp; lia).
      pose proof (shr_m_spec (Zpos q2) c 1 loc_Exact ltac:(lia) ltac:(lia)) as Hs2.
      cbv zeta in Hs2. cbn [shr_record_of_loc] in Hs2.
      destruct (shr {| shr_m := Zpos q2; shr_r := false; shr_s := false |} c 1)
        as [mrs2 e2]. cbn [fst snd] in Hs2. destruct Hs2 as (He2 & Hm2 & _).
      subst e2. rewrite Hm2, Hq2p. change (2 ^ 1) with 2.
      assert (Hhalf : 2 ^ p / 2 = 2 ^ (p - 1)).
      { replace p with (p - 1 + 1) at 1 by lia. rewrite Z.pow_add_r by lia.
        change (2 ^ 1) with 2. now rewrite Z.div_mul by lia. }
      rewrite Hhalf.
      assert (Hpp : 0 < 2 ^ (p - 1)) by (apply Z.pow_pos_nonneg; lia).
      destruct (2 ^ (p - 1)) as [|q3|q3] eqn:Hq3; [lia| |lia].
      exists q3, (c + 1).
      assert (Hd3 : Zpos (digits2_pos q3) = p).
      { rewrite (digits2_pow2 q3 (p - 1)) by (lia || (rewrite <- Hq3; reflexivity)). lia. }
      replace (c + 1 - c) with 1 by lia. change (2 ^ 1) with 2.
      repeat split; try lia.
      * rewrite <- Hq3. replace p with (p - 1 + 1) at 2 by lia.
        rewrite Z.pow_add_r by lia. reflexivity.
      * rewrite Hd3. unfold fexp. lia.
Qed.

End Shape.

(** *** Rounding keeps the order *)

Lemma Zdigits2_scale (m k : Z) :
  0 < m -> 0 <= k -> Zdigits2 (m * 2 ^ k) = Zdigits2 m + k.
Proof.
  intros Hm Hk. pose proof (Zdigits2_bounds m ltac:(lia)) as [Hu Hl].
  specialize (Hl Hm). pose proof (Zdigits2_nonneg m) as Hd.
  assert (Hd1 : 1 <= Zdigits2 m) by (destruct m; cbn in *; lia).
  assert (Hpk : 0 < 2 ^ k) by (apply Z.pow_pos_nonneg; lia).
  assert (H1 : 2 ^ (Zdigits2 m - 1 + k) <= m * 2 ^ k).
  { rewrite Z.pow_add_r by lia. apply Z.mul_le_mono_nonneg_r; lia. }
  assert (H2 : m * 2 ^ k < 2 ^ (Zdigits2 m + k)).
  { rewrite Z.pow_add_r by lia. apply Z.mul_lt_mono_pos_r; lia. }
  destruct (m * 2 ^ k) as [|q|q] eqn:Eq; [lia| |lia]. cbn [Zdigits2].
  pose proof (digits2_le q (Zdigits2 m + k) ltac:(lia) H2).
  pose proof (digits2_ge q (Zdigits2 m - 1 + k) H1). lia.
Qed.

Lemma Zdigits2_mono (X X' : Z) : 0 < X <= X' -> Zdigits2 X <= Zdigits2 X'.
Proof.
  intros [H0 HX].
  pose proof (Zdigits2_bounds X ltac:(lia)) as [_ Hl]. specialize (Hl H0).
  pose proof (Zdigits2_bounds X' ltac:(lia)) as [Hu' _].
  pose proof (Zdigits2_nonneg X').
  destruct (Z_le_gt_dec (Zdigits2 X) (Zdigits2 X')) as [Hle|Hgt]; [exact Hle|exfalso].
  assert (2 ^ Zdigits2 X' <= 2 ^ (Zdigits2 X - 1)) by (apply Z.pow_le_mono_r; lia).
  lia.
Qed.

Lemma shl_align_digits (m : positive) (e c : Z) :
  let r := shl_align m e c in
  snd r = Z.min e c
  /\ Zpos (fst r) = Zpos m * 2 ^ (e - Z.min e c)
  /\ Zpos (digits2_pos (fst r)) + snd r = Zpos (digits2_pos m) + e.
Proof.
  pose proof (shl_align_spec m e c) as Hs. cbv zeta in Hs |- *.
  destruct (shl_align m e c) as [mz ez]. cbn [fst snd] in Hs |- *.
  destruct Hs as [Hez Hmz]. split; [exact Hez|]. split; [exact Hmz|].
  destruct (Z_le_gt_dec e c) as [H|H].
  - rewrite Z.min_l in Hez, Hmz by lia. subst ez.
    rewrite Z.sub_diag, Z.mul_1_r in Hmz. now injection Hmz as ->.
  - rewrite Z.min_r in Hez, Hmz by lia. subst ez.
    assert (Hmz' : mz = Pos.shiftl m (Z.to_N (e - c))).
    { apply Pos2Z.inj. rewrite Hmz, Zpos_shiftl, Z2N.id by lia. reflexivity. }
    rewrite Hmz', digits2_shiftl, Z2N.id by lia. lia.
Qed.

Section Monotone.
Variables p em : Z.
Hypothesis Hp : 0 < p.

(** The order of two values is the order of their roundings at the
    exponents of the format. *)
Lemma round_value_mono (X X' z : Z) :
  0 < X <= X' ->
  let c := fexp p em (Zdigits2 X + z) in
  let c' := fexp p em (Zdigits2 X' + z) in
  z <= c ->
  c <= c'
  /\ nearest_even X (c - z) * 2 ^ (c - z) <= nearest_even X' (c' - z) * 2 ^ (c' - z).
Proof.
  intros [H0 HX] c c' Hz.
  pose proof (Zdigits2_mono X X' (conj H0 HX)) as Hd.
  pose proof (Zdigits2_bounds X ltac:(lia)) as [Hu _].
  pose proof (Zdigits2_bounds X' ltac:(lia)) as [_ Hl']. specialize (Hl' ltac:(lia)).
  pose proof (Zdigits2_nonneg X) as Hdn.
  assert (Hcc : c <= c') by (unfold c, c', fexp; lia).
  split; [exact Hcc|].
  assert (Hpn : 0 < 2 ^ (c - z)) by (apply Z.pow_pos_nonneg; lia).
  destruct (Z.eq_dec c c') as [E|E].
  - rewrite <- E. apply Z.mul_le_mono_nonneg_r; [lia|].
    apply nearest_even_mono; lia.
  - assert (Hc' : c' = Zdigits2 X' + z - p) by (unfold c, c', fexp in *; lia).
    assert (Hdd : Zdigits2 X < Zdigits2 X') by (unfold c, c', fexp in *; lia).
    pose proof (nearest_even_bounds X (c - z)) as HB.
    pose proof (nearest_even_bounds X' (c' - z)) as HB'.
    assert (Hpn' : 0 < 2 ^ (c' - z)) by (apply Z.pow_pos_nonneg; lia).
    apply Z.le_trans with (2 ^ (Zdigits2 X' - 1)).
    + (* the smaller value rounds to a power of two at most *)
      apply Z.le_trans with ((X / 2 ^ (c - z) + 1) * 2 ^ (c - z));
        [apply Z.mul_le_mono_nonneg_r; lia|].
      destruct (Z_le_gt_dec (c - z) (Zdigits2 X)) as [Hn|Hn].
      * assert (HF : X / 2 ^ (c - z) < 2 ^ (Zdigits2 X - (c - z))).
        { apply Z.div_lt_upper_bound; [lia|].
          rewrite <- Z.pow_add_r by lia.
          now replace (c - z + (Zdigits2 X - (c - z))) with (Zdigits2 X) by lia. }
        apply Z.le_trans with (2 ^ (Zdigits2 X - (c - z)) * 2 ^ (c - z));
          [apply Z.mul_le_mono_nonneg_r; lia|].
        rewrite <- Z.pow_add_r by lia. apply Z.pow_le_mono_r; lia.
      * assert (HF : X / 2 ^ (c - z) = 0).
        { apply Z.div_small. split; [lia|].
          eapply Z.lt_le_trans; [exact Hu|]. apply Z.pow_le_mono_r; lia. }
        rewrite HF, Z.add_0_l, Z.mul_1_l. apply Z.pow_le_mono_r; lia.
    + (* the larger value rounds to a normal number *)
      assert (HF' : 2 ^ (p - 1) <= X' / 2 ^ (c' - z)).
      { apply Z.div_le_lower_bound; [lia|].
        rewrite <- Z.pow_add_r by lia.
        now replace (c' - z + (p - 1)) with (Zdigits2 X' - 1) by lia. }
      apply Z.le_trans with (2 ^ (p - 1) * 2 ^ (c' - z));
        [|apply Z.mul_le_mono_nonneg_r; lia].
      rewrite <- Z.pow_add_r by lia. apply Z.pow_le_mono_r; lia.
Qed.

(** The order of two positive data of the format, from their values. *)
Lemma le_val_SFleb (q q' : positive) (c1 c1' : Z) :
  fexp p em (Zpos (digits2_pos q) + c1) = c1 ->
  fexp p em (Zpos (digits2_pos q') + c1') = c1' ->
  le_val q c1 q' c1' ->
  c1 <= c1' /\ SFleb (S754_finite false q c1) (S754_finite false q' c1') = true.
Proof.
  intros Hc Hc' Hle. pose proof (le_val_digits _ _ _ _ Hle) as Hd.
  assert (Hcc : c1 <= c1') by (unfold fexp in *; lia).
  split; [exact Hcc|]. unfold SFleb, SFcompare.
  destruct (Z.compare_spec c1 c1') as [E|E|E]; [|reflexivity|lia].
  subst c1'. apply (le_val_scale _ _ _ _ c1) in Hle; [|lia..].
  rewrite Z.sub_diag, Z.pow_0_r, !Z.mul_1_r in Hle.
  change (Pos.compare_cont Eq q q') with (q ?= q')%positive.
  destruct (Pos.compare_spec q q'); try reflexivity. lia.
Qed.

Lemma binary_round_aux_monotone (m m' e e' : Z) :
  0 <= m -> 0 <= m' ->
  e <= fexp p em (Zdigits2 m + e) ->
  e' <= fexp p em (Zdigits2 m' + e') ->
  m * 2 ^ (e - Z.min e e') <= m' * 2 ^ (e' - Z.min e e') ->
  SFleb (binary_round_aux p em false m e loc_Exact)
        (binary_round_aux p em false m' e' loc_Exact) = true.
Proof.
  intros Hm Hm' He He' Hval. set (z := Z.min e e') in *.
  pose proof (binary_round_aux_shape p em Hp m e Hm He) as HS.
  pose proof (binary_round_aux_shape p em Hp m' e' Hm' He') as HS'.
  cbv zeta in HS, HS'.
  set (c := fexp p em (Zdigits2 m + e)) in *.
  set (c' := fexp p em (Zdigits2 m' + e')) in *.
  destruct HS as [[HM0 HR] | (q & c1 & Hv & Hc1 & Hd & Hcan & HR)]; rewrite HR.
  { destruct HS' as [[_ HR'] | (q' & c1' & _ & _ & _ & _ & HR')]; rewrite HR';
      [reflexivity | now destruct (c1' <=? em - p)]. }
  assert (Hmpos : 0 < m).
  { destruct (Z.eq_dec m 0) as [E|E]; [|lia]. exfalso.
    rewrite E, nearest_even_0 in Hv by lia. lia. }
  assert (Hpz : 0 < 2 ^ (e - z)) by (apply Z.pow_pos_nonneg; unfold z; lia).
  assert (Hpz' : 0 < 2 ^ (e' - z)) by (apply Z.pow_pos_nonneg; unfold z; lia).
  assert (Hmpos' : 0 < m') by nia.
  pose proof (round_value_mono (m * 2 ^ (e - z)) (m' * 2 ^ (e' - z)) z
                ltac:(split; [nia|exact Hval])) as HRV.
  cbv zeta in HRV.
  rewrite !Zdigits2_scale in HRV by (unfold z; lia).
  replace (Zdigits2 m + (e - z) + z) with (Zdigits2 m + e) in HRV by lia.
  replace (Zdigits2 m' + (e' - z) + z) with (Zdigits2 m' + e') in HRV by lia.
  fold c c' in HRV. specialize (HRV ltac:(unfold z; lia)). destruct HRV as [Hcc HRV].
  replace (c - z) with ((c - e) + (e - z)) in HRV at 1 by lia.
  replace (c' - z) with ((c' - e') + (e' - z)) in HRV at 1 by lia.
  rewrite !nearest_even_scale in HRV by (unfold z; lia).
  rewrite <- Hv in HRV.
  destruct HS' as [[HM0' HR'] | (q' & c1' & Hv' & Hc1' & Hd' & Hcan' & HR')]; rewrite HR'.
  { exfalso. rewrite HM0' in HRV.
    assert (0 < 2 ^ (c1 - c)) by (apply Z.pow_pos_nonneg; lia).
    assert (0 < 2 ^ (c - z)) by (apply Z.pow_pos_nonneg; unfold z; lia).
    nia. }
  rewrite <- Hv' in HRV.
  rewrite <- !Z.mul_assoc, <- !Z.pow_add_r in HRV by (unfold z; lia).
  replace (c1 - c + (c - z)) with (c1 - z) in HRV by lia.
  replace (c1' - c' + (c' - z)) with (c1' - z) in HRV by lia.
  apply (le_val_scale _ _ _ _ z) in HRV; [|unfold z; lia..].
  destruct (le_val_SFleb q q' c1 c1' Hcan Hcan' HRV) as [Hc11 Hle].
  destruct (Z.leb_spec c1' (em - p)) as [Hfin|Hinf].
  - replace (c1 <=? em - p) with true by (symmetry; apply Z.leb_le; lia). exact Hle.
  - now destruct (c1 <=? em - p).
Qed.

(** Rounding is monotone on the positive values. *)
Lemma binary_round_monotone (m m' : positive) (e e' : Z) :
  le_val m e m' e' ->
  SFleb (binary_round p em false m e) (binary_round p em false m' e') = true.
Proof.
  intros Hle. unfold binary_round.
  pose proof (shl_align_digits m e (fexp p em (Zpos (digits2_pos m) + e))) as Hs.
  pose proof (shl_align_digits m' e' (fexp p em (Zpos (digits2_pos m') + e'))) as Hs'.
  cbv zeta in Hs, Hs'.
  destruct (shl_align m e _) as [mz ez]. destruct (shl_align m' e' _) as [mz' ez'].
  cbn [fst snd] in Hs, Hs'.
  destruct Hs as (Hez & Hmz & Hdz). destruct Hs' as (Hez' & Hmz' & Hdz').
  apply binary_round_aux_monotone; cbn [Zdigits2]; try lia.
  - rewrite Hdz. lia.
  - rewrite Hdz'. lia.
  - rewrite Hmz, Hmz'. rewrite <- Hez, <- Hez'.
    set (z := Z.min ez ez').
    rewrite <- !Z.mul_assoc, <- !Z.pow_add_r by (unfold z; lia).
    replace (e - ez + (ez - z)) with (e - z) by lia.
    replace (e' - ez' + (ez' - z)) with (e' - z) by lia.
    apply (le_val_scale _ _ _ _ z); [unfold z; lia..|exact Hle].
Qed.

(** A positive value rounds to zero, to a positive datum of the format,
    or to the positive infinity. *)
Lemma binary_round_sign (m : positive) (e : Z) :
  SFleb (S754_zero false) (binary_round p em false m e) = true.
Proof.
  unfold binary_round.
  pose proof (shl_align_digits m e (fexp p em (Zpos (digits2_pos m) + e))) as Hs.
  cbv zeta in Hs. destruct (shl_align m e _) as [mz ez]. cbn [fst snd] in Hs.
  destruct Hs as (Hez & Hmz & Hdz).
  pose proof (binary_round_aux_shape p em Hp (Zpos mz) ez ltac:(lia)) as HS.
  cbv zeta in HS. cbn [Zdigits2] in HS. rewrite Hdz in HS. specialize (HS ltac:(lia)).
  destruct HS as [[_ HR] | (q & c1 & _ & _ & _ & _ & HR)]; rewrite HR;
    [reflexivity | now destruct (c1 <=? em - p)].
Qed.

(** A datum of the format rounds to itself. *)
Lemma binary_round_canonical (s : bool) (m : positive) (e : Z) :
  bounded p em m e = true -> binary_round p em s m e = S754_finite s m e.
Proof.
  intros Hb. unfold binary_round.
  pose proof Hb as Hb'. unfold bounded, canonical_mantissa in Hb'.
  apply andb_true_iff in Hb' as [Hcan _]. apply Z.eqb_eq in Hcan.
  rewrite Hcan. unfold shl_align. rewrite Z.sub_diag.
  now apply binary_round_aux_canonical.
Qed.

End Monotone.

(** *** Differences keep the order *)

Lemma SFleb_negative (m1 m2 : positive) (e1 e2 : Z) :
  SFleb (S754_finite true m1 e1) (S754_finite true m2 e2)
  = SFleb (S754_finite false m2 e2) (S754_finite false m1 e1).
Proof.
  unfold SFleb, SFcompare.
  change (Pos.compare_cont Eq m1 m2) with (m1 ?= m2)%positive.
  change (Pos.compare_cont Eq m2 m1) with (m2 ?= m1)%positive.
  rewrite (Z.compare_antisym e1 e2), (Pos.compare_antisym m1 m2).
  destruct (e1 ?= e2), (m1 ?= m2)%positive; reflexivity.
Qed.

Lemma scaled_pos (m : positive) (k : Z) : 0 <= k -> 0 < Zpos m * 2 ^ k.
Proof. intros Hk. assert (0 < 2 ^ k) by (apply Z.pow_pos_nonneg; lia). lia. Qed.

(** The order of two finite data is the order of their mantissas at a
    common exponent. *)
Lemma SFleb_scaled (x y : spec_float) (z : Z) :
  finite_from x z -> finite_from y z -> SFleb x y = true ->
  scaled x z <= scaled y z.
Proof.
  destruct x as [bx|bx| |bx mx ex], y as [by_|by_| |by_ my ey];
    cbn [finite_from scaled]; try contradiction; intros Hx Hy Hle.
  - lia.
  - destruct Hy as [_ Hy]. pose proof (scaled_pos my (ey - z) ltac:(lia)).
    destruct by_; [discriminate Hle|]. cbn [cond_Zopp]. lia.
  - destruct Hx as [_ Hx]. pose proof (scaled_pos mx (ex - z) ltac:(lia)).
    destruct bx; [|discriminate Hle]. cbn [cond_Zopp]. lia.
  - destruct Hx as [Hbx Hx], Hy as [Hby Hy].
    pose proof (scaled_pos mx (ex - z) ltac:(lia)).
    pose proof (scaled_pos my (ey - z) ltac:(lia)).
    destruct bx, by_; cbn [cond_Zopp].
    + rewrite SFleb_negative in Hle.
      apply (SFleb_le_val prec emax) in Hle; [|first [assumption | reflexivity]..].
      apply (le_val_scale _ _ _ _ z) in Hle; lia.
    + lia.
    + discriminate Hle.
    + apply (SFleb_le_val prec emax) in Hle; [|first [assumption | reflexivity]..].
      apply (le_val_scale _ _ _ _ z) in Hle; lia.
Qed.

Lemma cond_Zopp_mul (s : bool) (a k : Z) : cond_Zopp s a * k = cond_Zopp s (a * k).
Proof. destruct s; cbn [cond_Zopp]; lia. Qed.

(** The difference of two finite data is the rounding of the difference
    of their mantissas at a common exponent. *)
Lemma SFsub_scaled (x y : spec_float) (z : Z) :
  finite_from x z -> finite_from y z ->
  let N := scaled x z - scaled y z in
  (N = 0 -> exists b, SF64sub x y = S754_zero b)
  /\ (0 < N -> exists n zz,
        z <= zz /\ Zpos n * 2 ^ (zz - z) = N
        /\ SF64sub x y = binary_round prec emax false n zz).
Proof.
  destruct x as [bx|bx| |bx mx ex], y as [by_|by_| |by_ my ey];
    cbn [finite_from scaled]; try contradiction; intros Hx Hy; cbv zeta.
  - split; [|lia]. intros _. destruct bx, by_; eexists; reflexivity.
  - destruct Hy as [Hby Hy]. pose proof (scaled_pos my (ey - z) ltac:(lia)).
    destruct by_; cbn [cond_Zopp]; (split; [lia|]); [|lia].
    intros _. exists my, ey. split; [exact Hy|]. split; [lia|].
    cbn [SF64sub SFsub negb]. symmetry. now apply binary_round_canonical.
  - destruct Hx as [Hbx Hx]. pose proof (scaled_pos mx (ex - z) ltac:(lia)).
    destruct bx; cbn [cond_Zopp]; (split; [lia|]); [lia|].
    intros _. exists mx, ex. split; [exact Hx|]. split; [lia|].
    cbn [SF64sub SFsub]. symmetry. now apply binary_round_canonical.
  - destruct Hx as [Hbx Hx], Hy as [Hby Hy].
    cbn [SF64sub SFsub]. cbv zeta. set (ez := Z.min ex ey).
    pose proof (shl_align_spec mx ex ez) as [_ Hax].
    pose proof (shl_align_spec my ey ez) as [_ Hay].
    rewrite Hax, Hay.
    replace (Z.min ex ez) with ez by (unfold ez; lia).
    replace (Z.min ey ez) with ez by (unfold ez; lia).
    assert (Hzz : z <= ez) by (unfold ez; lia).
    assert (Hpz : 0 < 2 ^ (ez - z)) by (apply Z.pow_pos_nonneg; lia).
    set (I := cond_Zopp bx (Zpos mx * 2 ^ (ex - ez))
              - cond_Zopp by_ (Zpos my * 2 ^ (ey - ez))).
    assert (HN : cond_Zopp bx (Zpos mx * 2 ^ (ex - z))
                 - cond_Zopp by_ (Zpos my * 2 ^ (ey - z)) = I * 2 ^ (ez - z)).
    { unfold I. rewrite Z.mul_sub_distr_r, !cond_Zopp_mul.
      rewrite <- !Z.mul_assoc, <- !Z.pow_add_r by (unfold ez; lia).
      replace (ex - ez + (ez - z)) with (ex - z) by lia.
      replace (ey - ez + (ez - z)) with (ey - z) by lia. reflexivity. }
    rewrite HN. split; intros HI.
    + assert (I = 0) by nia. replace I with 0. exists false. reflexivity.
    + assert (0 < I) by nia. destruct I as [|n|n]; [lia| |lia].
      exists n, ez. split; [exact Hzz|]. split; reflexivity.
Qed.

Lemma finite_from_exponent (x : spec_float) (z : Z) :
  valid_binary x = true -> z <= exponent x ->
  match x with S754_zero _ | S754_finite _ _ _ => True | _ => False end ->
  finite_from x z.
Proof.
  destruct x as [b|b| |b m e]; cbn [finite_from valid_binary exponent];
    try contradiction; auto.
Qed.

(** Subtracting the same datum keeps the order, as long as the larger
    difference stays finite. *)
Lemma SF_sub_monotone (s v e : spec_float) (md : positive) (ed : Z) :
  valid_binary s = true -> valid_binary v = true -> valid_binary e = true ->
  SFleb s v = true -> SFleb v e = true ->
  SF64sub e s = S754_finite false md ed ->
  SFleb (S754_zero false) (SF64sub v s) = true
  /\ SFleb (SF64sub v s) (SF64sub e s) = true.
Proof.
  intros Hvs Hvv Hve Hsv Hve' HD.
  assert (Hnum : match s with S754_zero _ | S754_finite _ _ _ => True | _ => False end
                 /\ match e with S754_zero _ | S754_finite _ _ _ => True | _ => False end).
  { unfold SF64sub, SFsub in HD.
    destruct e as [[]|[]| |be me ee], s as [[]|[]| |bs ms es];
      cbv beta iota in HD; try discriminate HD; auto. }
  destruct Hnum as [Hns Hne].
  assert (Hnv : match v with S754_zero _ | S754_finite _ _ _ => True | _ => False end).
  { destruct v as [bv|[]| |bv mv ev]; auto.
    - destruct s as [bs|bs| |[] ms es]; try contradiction; discriminate Hsv.
    - destruct e as [be|be| |[] me ee]; try contradiction; discriminate Hve'.
    - destruct s; discriminate Hsv. }
  set (z := Z.min (exponent s) (Z.min (exponent v) (exponent e))).
  pose proof (finite_from_exponent s z Hvs ltac:(unfold z; lia) Hns) as Hfs.
  pose proof (finite_from_exponent v z Hvv ltac:(unfold z; lia) Hnv) as Hfv.
  pose proof (finite_from_exponent e z Hve ltac:(unfold z; lia) Hne) as Hfe.
  pose proof (SFleb_scaled s v z Hfs Hfv Hsv) as H1.
  pose proof (SFleb_scaled v e z Hfv Hfe Hve') as H2.
  destruct (SFsub_scaled v s z Hfv Hfs) as [HA0 HA].
  destruct (SFsub_scaled e s z Hfe Hfs) as [HD0 HDp].
  assert (HDpos : 0 < scaled e z - scaled s z).
  { destruct (Z.eq_dec (scaled e z - scaled s z) 0) as [E|E]; [|lia].
    destruct (HD0 E) as [b Hb]. rewrite Hb in HD. discriminate HD. }
  destruct (HDp HDpos) as (nD & zD & HzD & HvD & HrD).
  destruct (Z.eq_dec (scaled v z - scaled s z) 0) as [E|E].
  - destruct (HA0 E) as [b Hb]. rewrite Hb, HD. split; reflexivity.
  - destruct (HA ltac:(lia)) as (nA & zA & HzA & HvA & HrA).
    rewrite HrA, HrD. split.
    + apply binary_round_sign. reflexivity.
    + apply binary_round_monotone; [reflexivity|].
      apply (le_val_scale _ _ _ _ z); lia.
Qed.

Local Open Scope float_scope.

(** Between the ends of a value range of finite length, the distance from
    the lower end lies between 0 and the length. *)
Lemma difference_within (s v e : double) :
  (s <=? v) = true -> (v <=? e) = true -> pos_finite (e - s) ->
  (0 <=? v - s) = true /\ (v - s <=? e - s) = true.
Proof.
  intros Hsv Hve Hd. destruct (pos_finite_SF _ Hd) as (md & ed & Ed).
  rewrite leb_spec in Hsv, Hve. rewrite !leb_spec, !sub_spec.
  rewrite sub_spec in Ed. change (Prim2SF 0) with (S754_zero false).
  exact (SF_sub_monotone _ _ _ md ed (Prim2SF_valid s) (Prim2SF_valid v)
           (Prim2SF_valid e) Hsv Hve Ed).
Qed.

Local Close Scope float_scope.

(** *** Rounding, whatever the sign *)






Section Signed.
Variables p em : Z.
Hypothesis Hp : 0 < p.


Variables p0 em0 : Z.
Hypothesis Hp0 : 0 < p0.

End Signed.














Local Open Scope float_scope.



Local Close Scope float_scope.





(** *** Narrowing errs by half a step at most *)






(** *** The argument at the first and the last column *)

Local Open Scope float_scope.

Lemma SF_sub_finite_operand (a b : spec_float) :
  (exists c, SF64sub a b = S754_zero c) \/ (exists c m e, SF64sub a b = S754_finite c m e) ->
  (exists c, b = S754_zero c) \/ (exists c m e, b = S754_finite c m e).
Proof.
  destruct a as [sa|sa| |sa ma ea], b as [sb|sb| |sb mb eb];
    try destruct sa; try destruct sb; cbn;
    intros [[c H] | (c & m & e & H)]; try discriminate; eauto 6.
Qed.

Lemma argX_first_column (f : InputFunction) (size : D2D1_SIZE_F) :
  (0 <? SIZE_F.width size) = true ->
  is_finite (endX f - startX f) = true ->
  (ComputePoint_argX f size 0 =? startX f) = true.
Proof.
  intros Hw Hd. unfold ComputePoint_argX.
  change (double_of_int 0) with 0. rewrite (div_0_l _ Hw).
  apply is_finite_SF in Hd. pose proof (SF_sub_finite_operand _ _ ltac:(rewrite <- sub_spec; exact Hd)) as Hs.
  rewrite eqb_spec, add_spec, mul_spec. change (Prim2SF 0) with (S754_zero false).
  destruct Hd as [[c ->] | (c & m & e & ->)];
    destruct Hs as [[c' ->] | (c' & m' & e' & ->)];
    cbn [SF64mul SFmul SF64add SFadd xorb];
    try apply SFeqb_refl_finite; destruct c; try destruct c'; reflexivity.
Qed.

Lemma argX_last_column (f : InputFunction) (size : D2D1_SIZE_F) (x : Z) :
  pos_finite (SIZE_F.width size) ->
  double_of_int x = SIZE_F.width size ->
  ComputePoint_argX f size x = (endX f - startX f) + startX f.
Proof.
  intros Hw Hx. unfold ComputePoint_argX.
  now rewrite Hx, (div_same _ Hw), mul_1_l.
Qed.



Local Close Scope float_scope.

(** ** The redraw, step by step *)

Local Open Scope op_scope.

Lemma CreateDeviceResources_eq (host : Host) (app : App) :
  CreateDeviceResources host app =
  match m_pRenderTarget app with
  | None =>
      let c1 := CreateHwndRenderTarget (clientRect host) in
      if FAILED (hrCreateHwndRenderTarget host)
      then (hrCreateHwndRenderTarget host, app, [c1])
      else
        let app1 := set_pRenderTarget (Some (new_target host)) app in
        match m_pGraphLineBrush app with
        | None =>
            if FAILED (hrCreateSolidColorBrush host)
            then (hrCreateSolidColorBrush host, app1, [c1; CreateSolidColorBrush Red])
            else (S_OK, set_pGraphLineBrush (Some red_brush) app1,
                  [c1; CreateSolidColorBrush Red])
        | Some _ => (S_OK, app1, [c1])
        end
  | Some _ =>
      match m_pGraphLineBrush app with
      | None =>
          if FAILED (hrCreateSolidColorBrush host)
          then (hrCreateSolidColorBrush host, app, [CreateSolidColorBrush Red])
          else (S_OK, set_pGraphLineBrush (Some red_brush) app,
                [CreateSolidColorBrush Red])
      | Some _ => (S_OK, app, [])
      end
  end.
Proof.
  unfold CreateDeviceResources, TRYRET, bind, this.
  destruct (m_pRenderTarget app) eqn:Ht.
  - cbn. rewrite ?Ht. destruct (m_pGraphLineBrush app) eqn:Hb; cbn.
    + reflexivity.
    + unfold target_CreateSolidColorBrush, bind, call, ret, assign.
      destruct (FAILED (hrCreateSolidColorBrush host)) eqn:Hf; cbn; rewrite ?Hf; reflexivity.
  - unfold factory_CreateHwndRenderTarget, bind, call, ret, assign.
    destruct (FAILED (hrCreateHwndRenderTarget host)) eqn:Hf; cbn; rewrite ?Hf; cbn.
    + reflexivity.
    + destruct (m_pGraphLineBrush app) eqn:Hb; cbn.
      * reflexivity.
      * unfold target_CreateSolidColorBrush, bind, call, ret, assign.
        destruct (FAILED (hrCreateSolidColorBrush host)) eqn:Hg; cbn; rewrite ?Hg; reflexivity.
Qed.

(** ** The frame drawn by one redraw *)

Lemma columns_length (x : Z) (n : nat) : length (columns x n) = n.
Proof. revert x; induction n as [|n IH]; intros x; cbn; [reflexivity | now rewrite IH]. Qed.


Lemma ComputePoint_eq (f : InputFunction) (size : D2D1_SIZE_F) (x : Z) :
  ComputePoint f size x = (point_at f size x, [Eval_func (ComputePoint_argX f size x)]).
Proof. reflexivity. Qed.

(** With fuel for every remaining column the loop joins consecutive
    columns up to [maxX]. *)
Lemma DrawLoop_segments (f : InputFunction) (size : D2D1_SIZE_F)
  (brush : option ID2D1SolidColorBrush) (maxX : Z) (fuel : nat) (x : Z) :
  x + Z.of_nat fuel = maxX + 1 ->
  DrawLoop fuel f size brush x maxX (point_at f size (x - 1))
  = flat_map (segment f size brush) (columns x fuel).
Proof.
  revert x; induction fuel as [|fuel IH]; intros x Hx; [reflexivity|].
  cbn [DrawLoop columns flat_map].
  replace (x <=? maxX) with true by (symmetry; apply Z.leb_le; lia).
  rewrite ComputePoint_eq. cbn [app segment]. do 2 f_equal.
  rewrite <- IH by lia.
  now replace (x + 1 - 1) with x by lia.
Qed.

(** More fuel than columns changes nothing: the test [x <= maxX] stops
    the loop, not the fuel. *)
Lemma DrawLoop_fuel (f : InputFunction) (size : D2D1_SIZE_F)
  (brush : option ID2D1SolidColorBrush) (maxX : Z) (fuel : nat) (x : Z)
  (prev : D2D1_POINT_2F) :
  (Z.to_nat (maxX + 1 - x) <= fuel)%nat ->
  DrawLoop fuel f size brush x maxX prev
  = DrawLoop (Z.to_nat (maxX + 1 - x)) f size brush x maxX prev.
Proof.
  revert x prev; induction fuel as [|fuel IH]; intros x prev Hf.
  - now replace (Z.to_nat (maxX + 1 - x)) with O by lia.
  - cbn [DrawLoop]. destruct (x <=? maxX) eqn:Hle.
    + apply Z.leb_le in Hle.
      replace (Z.to_nat (maxX + 1 - x)) with (S (Z.to_nat (maxX + 1 - (x + 1)))) by lia.
      cbn [DrawLoop]. replace (x <=? maxX) with true by (symmetry; apply Z.leb_le; lia).
      destruct (ComputePoint f size x) as [p t]. now rewrite IH by lia.
    + apply Z.leb_gt in Hle.
      now replace (Z.to_nat (maxX + 1 - x)) with O by lia.
Qed.

Lemma frame_segments (f : InputFunction) (size : D2D1_SIZE_F)
  (brush : option ID2D1SolidColorBrush) :
  frame f size brush
  = [BeginDraw; SetTransform_Identity; Clear White;
     Eval_func (ComputePoint_argX f size 0)]
      ++ flat_map (segment f size brush)
           (columns 1 (Z.to_nat (to_int (ceil (SIZE_F.width size)))))
      ++ [EndDraw].
Proof.
  unfold frame. rewrite ComputePoint_eq. cbn [app snd]. do 4 f_equal.
  f_equal.
  set (maxX := to_int (ceil (SIZE_F.width size))).
  destruct (Z_le_gt_dec 0 maxX) as [H|H].
  - change (point_at f size 0) with (point_at f size (1 - 1)).
    apply DrawLoop_segments. lia.
  - now replace (Z.to_nat maxX) with O by lia.
Qed.

(** [OnRender] by cases. *)
Lemma OnRender_eq (host : Host) (app : App) :
  OnRender host app =
  let '(hr, app1, t1) := CreateDeviceResources host app in
  if FAILED hr then (hr, app1, t1)
  else
    match m_pRenderTarget app1 with
    | None => (E_POINTER, app1, t1)
    | Some rt =>
        let body := frame (m_inputFunction app1) (GetSize rt) (m_pGraphLineBrush app1) in
        if hrEndDraw host =? D2DERR_RECREATE_TARGET then
          (S_OK, set_pGraphLineBrush None (set_pRenderTarget None app1),
           t1 ++ body
              ++ snd (SafeRelease RenderTarget (m_pRenderTarget app1))
              ++ snd (SafeRelease GraphLineBrush (m_pGraphLineBrush app1)))
        else (hrEndDraw host, app1, t1 ++ body)
    end.
Proof.
  unfold OnRender, TRYRET. unfold bind at 1.
  destruct (CreateDeviceResources host app) as [[hr app1] t1].
  destruct (FAILED hr) eqn:Hf.
  - unfold ret. now rewrite app_nil_r.
  - unfold bind at 1, this.
    destruct (m_pRenderTarget app1) as [rt|] eqn:Hrt.
    + unfold frame. rewrite ComputePoint_eq.
      unfold bind, call, calls, ret.
      destruct (hrEndDraw host =? D2DERR_RECREATE_TARGET).
      * unfold SafeRelease_pRenderTarget, SafeRelease_pGraphLineBrush.
        rewrite Hrt. unfold set_pRenderTarget, set_pGraphLineBrush.
        cbn [SafeRelease m_pGraphLineBrush m_pRenderTarget m_inputFunction
             m_hwnd m_pDirect2dFactory].
        destruct (m_pGraphLineBrush app1); cbn [SafeRelease fst snd List.app];
          rewrite ?app_nil_r, <- ?app_assoc; cbn [List.app]; reflexivity.
      * cbn [fst snd List.app]. rewrite ?app_nil_r, <- ?app_assoc. reflexivity.
    + unfold ret. now rewrite app_nil_r.
Qed.

(** ** Facts about resource creation *)

Lemma CreateDeviceResources_inputFunction (host : Host) (app : App) :
  m_inputFunction (state (CreateDeviceResources host app)) = m_inputFunction app.
Proof.
  rewrite CreateDeviceResources_eq.
  destruct (m_pRenderTarget app), (m_pGraphLineBrush app);
    repeat match goal with |- context [if ?b then _ else _] => destruct b end;
    reflexivity.
Qed.

(** Past a successful creation both pointers are set. *)
Lemma CreateDeviceResources_ready (host : Host) (app : App) :
  reaches_drawing host app ->
  exists rt brush,
    m_pRenderTarget (state (CreateDeviceResources host app)) = Some rt
    /\ m_pGraphLineBrush (state (CreateDeviceResources host app)) = Some brush.
Proof.
  unfold reaches_drawing. rewrite CreateDeviceResources_eq.
  destruct (m_pRenderTarget app) as [rt|] eqn:Ht,
           (m_pGraphLineBrush app) as [br|] eqn:Hb; cbv zeta;
    repeat match goal with
           | |- context [if FAILED ?h then _ else _] =>
               let E := fresh "E" in destruct (FAILED h) eqn:E
           end;
    unfold result, state; cbn [fst snd]; intros H;
    try congruence;
    unfold set_pGraphLineBrush, set_pRenderTarget;
    cbn [m_pRenderTarget m_pGraphLineBrush]; eauto.
Qed.

(** A state with both pointers set creates nothing. *)
Lemma CreateDeviceResources_Ready (host : Host) (app : App) :
  Ready app -> CreateDeviceResources host app = (S_OK, app, []).
Proof.
  intros [Ht Hb]. rewrite CreateDeviceResources_eq.
  destruct (m_pRenderTarget app); [|congruence].
  destruct (m_pGraphLineBrush app); [reflexivity|congruence].
Qed.

(** Resource creation makes creation calls only. *)
Lemma CreateDeviceResources_trace (host : Host) (app : App) :
  forallb is_creation (trace (CreateDeviceResources host app)) = true.
Proof.
  rewrite CreateDeviceResources_eq.
  destruct (m_pRenderTarget app), (m_pGraphLineBrush app); cbv zeta;
    repeat match goal with |- context [if FAILED ?h then _ else _] => destruct (FAILED h) end;
    reflexivity.
Qed.

Lemma filter_none {A : Type} (p q : A -> bool) (l : list A) :
  forallb q l = true -> (forall a, q a = true -> p a = false) -> filter p l = [].
Proof.
  intros Hq Hpq. induction l as [|a l IH]; [reflexivity|].
  cbn in *. apply andb_true_iff in Hq as [Ha Hl].
  rewrite (Hpq a Ha). auto.
Qed.

Lemma creation_not_draw (c : Call) : is_creation c = true -> is_draw_call c = false.
Proof. destruct c; cbn; congruence. Qed.

Lemma creation_not_DrawLine (c : Call) : is_creation c = true -> is_DrawLine c = false.
Proof. destruct c; cbn; congruence. Qed.

Lemma release_not_draw (c : Call) : is_Release c = true -> is_draw_call c = false.
Proof. destruct c; cbn; congruence. Qed.

Lemma release_not_DrawLine (c : Call) : is_Release c = true -> is_DrawLine c = false.
Proof. destruct c; cbn; congruence. Qed.

Lemma SafeRelease_trace {I : Type} (r : Resource) (obj : option I) :
  forallb is_Release (snd (SafeRelease r obj)) = true.
Proof. destruct obj; reflexivity. Qed.

Lemma segments_DrawLine_count (f : InputFunction) (size : D2D1_SIZE_F)
  (brush : option ID2D1SolidColorBrush) (l : list Z) :
  length (filter is_DrawLine (flat_map (segment f size brush) l)) = length l.
Proof. induction l as [|c l IH]; cbn; [reflexivity | now rewrite IH]. Qed.

(** ** What a redraw calls *)

(** The calls of a redraw that reaches drawing: creation, the frame, and
    on a stale surface the two releases. *)
Lemma OnRender_trace (host : Host) (app : App) :
  reaches_drawing host app ->
  exists rt brush,
    m_pRenderTarget (state (CreateDeviceResources host app)) = Some rt
    /\ m_pGraphLineBrush (state (CreateDeviceResources host app)) = Some brush
    /\ trace (OnRender host app)
       = trace (CreateDeviceResources host app)
         ++ frame (m_inputFunction app) (GetSize rt) (Some brush)
         ++ (if hrEndDraw host =? D2DERR_RECREATE_TARGET
             then [Release RenderTarget; Release GraphLineBrush] else [])
    /\ result (OnRender host app)
       = (if hrEndDraw host =? D2DERR_RECREATE_TARGET then S_OK else hrEndDraw host)
    /\ state (OnRender host app)
       = (if hrEndDraw host =? D2DERR_RECREATE_TARGET
          then set_pGraphLineBrush None
                 (set_pRenderTarget None (state (CreateDeviceResources host app)))
          else state (CreateDeviceResources host app)).
Proof.
  intros Hr. destruct (CreateDeviceResources_ready host app Hr) as (rt & brush & Ht & Hb).
  exists rt, brush. split; [exact Ht|]. split; [exact Hb|].
  pose proof (CreateDeviceResources_inputFunction host app) as Hf.
  rewrite OnRender_eq. unfold reaches_drawing in Hr.
  destruct (CreateDeviceResources host app) as [[hr app1] t1].
  unfold result, state, trace in *. cbn [fst snd] in *.
  rewrite Hr, Ht, Hb, Hf. cbn [SafeRelease snd].
  destruct (hrEndDraw host =? D2DERR_RECREATE_TARGET); cbn [fst snd];
    rewrite ?app_nil_r; repeat split; reflexivity.
Qed.


(** * The claims *)

(** ** C2: the redraw loop *)

(** C2.  A redraw that reaches drawing clears the surface, samples the
    function at column 0 and then, for x = 1, 2, ..., maxX in this order
    with maxX = (int)ceil(width), samples column x and draws one line
    from the previous column's point to this one; it draws exactly maxX
    lines.  For a positive width whose ceiling fits an [int], maxX is that
    ceiling. *)
Theorem redraw_joins_consecutive_columns (host : Host) (app : App) :
  reaches_drawing host app ->
  exists rt brush releases,
    m_pRenderTarget (state (CreateDeviceResources host app)) = Some rt
    /\ m_pGraphLineBrush (state (CreateDeviceResources host app)) = Some brush
    /\ forallb is_Release releases = true
    /\ let f := m_inputFunction app in
       let size := GetSize rt in
       let maxX := to_int (ceil (SIZE_F.width size)) in
       trace (OnRender host app)
       = trace (CreateDeviceResources host app)
           ++ [BeginDraw; SetTransform_Identity; Clear White;
               Eval_func (ComputePoint_argX f size 0)]
           ++ flat_map (segment f size (Some brush)) (columns 1 (Z.to_nat maxX))
           ++ [EndDraw] ++ releases
       /\ length (filter is_DrawLine (trace (OnRender host app))) = Z.to_nat maxX
       /\ (forall m e,
             Prim2SF (SIZE_F.width size) = S754_finite false m e ->
             ceiling m e <= INT_MAX -> maxX = ceiling m e).
Proof.
  intros Hr. destruct (OnRender_trace host app Hr) as (rt & brush & Ht & Hb & Htr & _).
  exists rt, brush,
    (if hrEndDraw host =? D2DERR_RECREATE_TARGET
     then [Release RenderTarget; Release GraphLineBrush] else []).
  split; [exact Ht|]. split; [exact Hb|].
  split; [now destruct (hrEndDraw host =? D2DERR_RECREATE_TARGET)|].
  cbv zeta. rewrite Htr, frame_segments. split; [|split].
  3:{ intros m e Hw Hmax. now apply to_int_ceil. }
  - now rewrite <- !app_assoc.
  - rewrite !filter_app.
    rewrite (filter_none is_DrawLine is_creation)
      by (apply CreateDeviceResources_trace || apply creation_not_DrawLine).
    set (releases := if hrEndDraw host =? D2DERR_RECREATE_TARGET
                     then [Release RenderTarget; Release GraphLineBrush] else []).
    rewrite (filter_none is_DrawLine is_Release releases)
      by (try apply release_not_DrawLine;
          unfold releases; now destruct (hrEndDraw host =? D2DERR_RECREATE_TARGET)).
    cbn [filter is_DrawLine List.app]. rewrite !length_app, segments_DrawLine_count, columns_length.
    cbn. lia.
Qed.

(** The theorem at work: a first redraw on a 640 x 480 client area. *)
Lemma redraw_joins_consecutive_columns_witness :
  reaches_drawing (obliging_host (SizeU 640 480)) (App_ctor line_function)
  /\ length (filter is_DrawLine
       (trace (OnRender (obliging_host (SizeU 640 480)) (App_ctor line_function))))
     = 640%nat.
Proof.
  assert (H : reaches_drawing (obliging_host (SizeU 640 480)) (App_ctor line_function))
    by reflexivity.
  split; [exact H|].
  destruct (redraw_joins_consecutive_columns _ _ H)
    as (rt & brush & releases & Ht & _ & _ & _ & Hn & _).
  rewrite Hn. vm_compute in Ht. injection Ht as <-. reflexivity.
Defined.

(** ** C4: a stale surface *)

Lemma WndProcCore_WM_PAINT (host : Host) (wParam lParam : Z) (app : App) :
  WndProcCore host WM_PAINT wParam lParam app
  = (0, state (OnRender host app),
     trace (OnRender host app)
       ++ [if SUCCEEDED (result (OnRender host app)) then ValidateRect
           else WriteToDebugConsole (result (OnRender host app))]).
Proof.
  unfold WndProcCore. cbn [Z.eqb WM_PAINT WM_SIZE WM_DISPLAYCHANGE Pos.eqb].
  unfold bind. destruct (OnRender host app) as [[hr app1] t1].
  unfold result, state, trace; cbn [fst snd].
  destruct (SUCCEEDED hr); reflexivity.
Qed.

(** A state without a render target starts its next redraw by creating
    one, and goes on to the brush when that creation succeeds and the
    brush is missing too. *)
Lemma OnRender_recreates (host : Host) (app : App) :
  m_pRenderTarget app = None ->
  exists rest,
    trace (OnRender host app) = CreateHwndRenderTarget (clientRect host) :: rest
    /\ (m_pGraphLineBrush app = None ->
        FAILED (hrCreateHwndRenderTarget host) = false ->
        exists rest', rest = CreateSolidColorBrush Red :: rest').
Proof.
  intros Ht. rewrite OnRender_eq, CreateDeviceResources_eq, Ht. cbv zeta.
  destruct (FAILED (hrCreateHwndRenderTarget host)) eqn:Hf.
  - rewrite Hf. cbn [trace snd]. eexists; split; [reflexivity|]. discriminate.
  - destruct (m_pGraphLineBrush app) eqn:Hb.
    + cbn [FAILED S_OK Z.ltb Z.compare]. cbn [m_pRenderTarget set_pRenderTarget].
      destruct (hrEndDraw host =? D2DERR_RECREATE_TARGET); cbn [trace snd List.app];
        (eexists; split; [reflexivity|discriminate]).
    + destruct (FAILED (hrCreateSolidColorBrush host)) eqn:Hg.
      * rewrite Hg. cbn [trace snd]. eexists; split; [reflexivity|]. eauto.
      * cbn [FAILED S_OK Z.ltb Z.compare].
        cbn [m_pRenderTarget set_pRenderTarget set_pGraphLineBrush].
        destruct (hrEndDraw host =? D2DERR_RECREATE_TARGET); cbn [trace snd List.app];
          (eexists; split; [reflexivity|eauto]).
Qed.

(** C4.  When [EndDraw] reports [D2DERR_RECREATE_TARGET] the redraw
    releases the cached render target and the cached brush, in this order
    and right after [EndDraw], leaves both pointers null and returns
    [S_OK]; the paint handler validates the window and writes nothing to
    the debug console; the next redraw starts by creating the render
    target, then the brush. *)
Theorem stale_surface_is_discarded_silently (host : Host) (app : App) :
  reaches_drawing host app ->
  hrEndDraw host = D2DERR_RECREATE_TARGET ->
  let r := OnRender host app in
  result r = S_OK
  /\ SUCCEEDED (result r) = true
  /\ m_pRenderTarget (state r) = None
  /\ m_pGraphLineBrush (state r) = None
  /\ (exists t, trace r = t ++ [EndDraw; Release RenderTarget; Release GraphLineBrush])
  /\ (forall wParam lParam,
        WndProcCore host WM_PAINT wParam lParam app
        = (0, state r, trace r ++ [ValidateRect]))
  /\ (forall host',
        exists rest,
          trace (OnRender host' (state r))
          = CreateHwndRenderTarget (clientRect host') :: rest
          /\ (FAILED (hrCreateHwndRenderTarget host') = false ->
              exists rest', rest = CreateSolidColorBrush Red :: rest')).
Proof.
  intros Hr Hs r.
  destruct (OnRender_trace host app Hr) as (rt & brush & Ht & Hb & Htr & Hres & Hst).
  rewrite Hs, Z.eqb_refl in Htr, Hres, Hst. fold r in Htr, Hres, Hst.
  assert (Hnt : m_pRenderTarget (state r) = None) by now rewrite Hst.
  assert (Hnb : m_pGraphLineBrush (state r) = None) by now rewrite Hst.
  repeat split.
  - exact Hres.
  - now rewrite Hres.
  - exact Hnt.
  - exact Hnb.
  - rewrite Htr, frame_segments.
    eexists. rewrite !app_assoc. rewrite <- app_assoc. cbn [List.app]. reflexivity.
  - intros wParam lParam. rewrite WndProcCore_WM_PAINT. fold r. now rewrite Hres.
  - intros host'. destruct (OnRender_recreates host' (state r) Hnt) as (rest & H1 & H2).
    exists rest. split; [exact H1|]. intros Hf. now apply H2.
Qed.

(** The theorem at work: the first redraw of a window whose frame ends
    stale. *)
Lemma stale_surface_is_discarded_silently_witness :
  reaches_drawing stale_host (App_ctor line_function)
  /\ hrEndDraw stale_host = D2DERR_RECREATE_TARGET
  /\ result (OnRender stale_host (App_ctor line_function)) = S_OK.
Proof.
  assert (H1 : reaches_drawing stale_host (App_ctor line_function)) by reflexivity.
  assert (H2 : hrEndDraw stale_host = D2DERR_RECREATE_TARGET) by reflexivity.
  split; [exact H1|]. split; [exact H2|].
  exact (proj1 (stale_surface_is_discarded_silently stale_host (App_ctor line_function) H1 H2)).
Defined.

(** ** C5: a failed creation *)

(** A failed creation leaves a resource missing. *)
Lemma CreateDeviceResources_failed (host : Host) (app : App) :
  FAILED (result (CreateDeviceResources host app)) = true ->
  (m_pRenderTarget app = None
   /\ FAILED (hrCreateHwndRenderTarget host) = true
   /\ result (CreateDeviceResources host app) = hrCreateHwndRenderTarget host
   /\ state (CreateDeviceResources host app) = app)
  \/ (m_pGraphLineBrush app = None
      /\ FAILED (hrCreateSolidColorBrush host) = true
      /\ result (CreateDeviceResources host app) = hrCreateSolidColorBrush host
      /\ m_pRenderTarget (state (CreateDeviceResources host app)) <> None
      /\ m_pGraphLineBrush (state (CreateDeviceResources host app)) = None).
Proof.
  rewrite CreateDeviceResources_eq.
  destruct (m_pRenderTarget app) as [rt|] eqn:Ht,
           (m_pGraphLineBrush app) as [br|] eqn:Hb; cbv zeta;
    repeat match goal with
           | |- context [if FAILED ?h then _ else _] =>
               let E := fresh "E" in destruct (FAILED h) eqn:E
           end;
    unfold result, state; cbn [fst snd]; intros H;
    try (cbn in H; discriminate);
    try (left; repeat split; (reflexivity || assumption));
    right; repeat split; try reflexivity; try assumption;
    cbn [m_pRenderTarget set_pRenderTarget]; congruence.
Qed.

(** A state that misses a resource starts its next redraw with a
    creation call. *)
Lemma OnRender_retries (host : Host) (app : App) :
  ~ Ready app ->
  exists c rest, trace (OnRender host app) = c :: rest /\ is_creation c = true.
Proof.
  intros Hn. rewrite OnRender_eq.
  assert (Hc : exists c rest,
             trace (CreateDeviceResources host app) = c :: rest /\ is_creation c = true).
  { rewrite CreateDeviceResources_eq.
    destruct (m_pRenderTarget app) as [rt|] eqn:Ht,
             (m_pGraphLineBrush app) as [br|] eqn:Hb; cbv zeta;
      try (exfalso; apply Hn; split; congruence);
      repeat match goal with
             | |- context [if FAILED ?h then _ else _] => destruct (FAILED h)
             end;
      cbn [trace snd]; do 2 eexists; split; reflexivity. }
  destruct Hc as (c & rest & Hc & Hk).
  destruct (CreateDeviceResources host app) as [[hr app1] t1].
  cbn [trace snd] in Hc. subst t1.
  destruct (FAILED hr); [cbn; eauto|].
  destruct (m_pRenderTarget app1); [|cbn; eauto].
  cbv zeta. destruct (hrEndDraw host =? D2DERR_RECREATE_TARGET); cbn [trace snd List.app]; eauto.
Qed.

(** C5, refuted as stated.  A host creates the render target for a client
    area of 640 x 480 and then fails on the brush.  The failed redraw
    leaves that render target cached, so the next redraw does not start
    over: on a host whose client area is 800 x 600 by then, its only
    creation call is the one of the brush, and it draws the 640 lines of
    the old render target, where a redraw from scratch draws 800. *)
Lemma retry_keeps_the_target_counterexample :
  FAILED (result (CreateDeviceResources no_brush_host (App_ctor line_function))) = true
  /\ result (OnRender no_brush_host (App_ctor line_function))
     = hrCreateSolidColorBrush no_brush_host
  /\ trace (OnRender no_brush_host (App_ctor line_function))
     = [CreateHwndRenderTarget (SizeU 640 480); CreateSolidColorBrush Red]
  /\ m_pRenderTarget (state (OnRender no_brush_host (App_ctor line_function)))
     = Some (new_target no_brush_host)
  /\ filter is_creation
       (trace (OnRender (obliging_host (SizeU 800 600))
                 (state (OnRender no_brush_host (App_ctor line_function)))))
     = [CreateSolidColorBrush Red]
  /\ count is_DrawLine
       (trace (OnRender (obliging_host (SizeU 800 600))
                 (state (OnRender no_brush_host (App_ctor line_function)))))
     = 640%nat
  /\ count is_DrawLine
       (trace (OnRender (obliging_host (SizeU 800 600)) (App_ctor line_function)))
     = 800%nat.
Proof. repeat split; vm_compute; reflexivity. Qed.

(** The redraw of a state that holds a render target and no brush: the
    brush is the only resource it creates, and the frame is drawn on the
    render target held. *)
Lemma OnRender_brush_alone (host : Host) (app : App) (rt : ID2D1HwndRenderTarget) :
  m_pRenderTarget app = Some rt -> m_pGraphLineBrush app = None ->
  trace (CreateDeviceResources host app) = [CreateSolidColorBrush Red]
  /\ trace (OnRender host app)
     = if FAILED (hrCreateSolidColorBrush host) then [CreateSolidColorBrush Red]
       else CreateSolidColorBrush Red
              :: frame (m_inputFunction app) (GetSize rt) (Some red_brush)
              ++ (if hrEndDraw host =? D2DERR_RECREATE_TARGET
                  then [Release RenderTarget; Release GraphLineBrush] else []).
Proof.
  intros Ht Hb.
  assert (Hc : CreateDeviceResources host app
               = if FAILED (hrCreateSolidColorBrush host)
                 then (hrCreateSolidColorBrush host, app, [CreateSolidColorBrush Red])
                 else (S_OK, set_pGraphLineBrush (Some red_brush) app,
                       [CreateSolidColorBrush Red])).
  { now rewrite CreateDeviceResources_eq, Ht, Hb. }
  split; [rewrite Hc; now destruct (FAILED (hrCreateSolidColorBrush host))|].
  rewrite OnRender_eq, Hc.
  destruct (FAILED (hrCreateSolidColorBrush host)) eqn:Hf; [now rewrite Hf|].
  change (FAILED S_OK) with false. cbv iota beta.
  cbn [set_pGraphLineBrush m_pRenderTarget m_pGraphLineBrush m_inputFunction].
  rewrite Ht. cbn [SafeRelease snd].
  destruct (hrEndDraw host =? D2DERR_RECREATE_TARGET); cbn [trace snd List.app];
    rewrite ?app_nil_r; reflexivity.
Qed.

(** The redraw of a state without a render target starts by creating one
    for the client area of the moment. *)
Lemma OnRender_target_first (host : Host) (app : App) :
  m_pRenderTarget app = None ->
  exists rest,
    trace (OnRender host app) = CreateHwndRenderTarget (clientRect host) :: rest.
Proof.
  intros Ht. rewrite OnRender_eq, CreateDeviceResources_eq, Ht. cbv zeta.
  destruct (FAILED (hrCreateHwndRenderTarget host)) eqn:Hf; [rewrite Hf; cbn; eauto|].
  destruct (m_pGraphLineBrush app) as [br|].
  - change (FAILED S_OK) with false. cbv iota beta.
    cbn [set_pRenderTarget m_pRenderTarget].
    destruct (hrEndDraw host =? D2DERR_RECREATE_TARGET); cbn [trace snd List.app]; eauto.
  - destruct (FAILED (hrCreateSolidColorBrush host)) eqn:Hg; [rewrite Hg; cbn; eauto|].
    change (FAILED S_OK) with false. cbv iota beta.
    cbn [set_pGraphLineBrush set_pRenderTarget m_pRenderTarget].
    destruct (hrEndDraw host =? D2DERR_RECREATE_TARGET); cbn [trace snd List.app]; eauto.
Qed.

(** C5, amended.  When creating the render target or the brush fails, the
    redraw returns the failure code after the creation calls alone: no
    clear, no line, no other drawing call.  The paint handler then writes
    that code to the debug console and does not validate the window.  The
    state is left with a resource missing, so the next redraw starts with
    a creation call again, for what is missing.  When it was the render
    target that failed, nothing has changed and the next redraw starts by
    creating a render target for the client area of that moment.  When it
    was the brush, the render target stays cached, the one held before or
    the one the failed redraw created: the next redraw creates the brush
    alone and, when that succeeds, draws its frame on that render
    target. *)
Theorem failed_creation_aborts_redraw (host : Host) (app : App) :
  FAILED (result (CreateDeviceResources host app)) = true ->
  let r := OnRender host app in
  let hr := result (CreateDeviceResources host app) in
  result r = hr
  /\ (hr = hrCreateHwndRenderTarget host \/ hr = hrCreateSolidColorBrush host)
  /\ trace r = trace (CreateDeviceResources host app)
  /\ forallb is_creation (trace r) = true
  /\ draw_calls (trace r) = []
  /\ (forall wParam lParam,
        WndProcCore host WM_PAINT wParam lParam app
        = (0, state r, trace r ++ [WriteToDebugConsole hr]))
  /\ ~ Ready (state r)
  /\ (m_pRenderTarget app = None ->
      FAILED (hrCreateHwndRenderTarget host) = true -> state r = app)
  /\ (forall host',
        exists c rest,
          trace (OnRender host' (state r)) = c :: rest /\ is_creation c = true)
  /\ ((m_pRenderTarget app = None
       /\ FAILED (hrCreateHwndRenderTarget host) = true
       /\ hr = hrCreateHwndRenderTarget host
       /\ trace r = [CreateHwndRenderTarget (clientRect host)]
       /\ state r = app
       /\ forall host',
            exists rest,
              trace (OnRender host' (state r))
              = CreateHwndRenderTarget (clientRect host') :: rest)
      \/ (m_pGraphLineBrush app = None
          /\ FAILED (hrCreateSolidColorBrush host) = true
          /\ hr = hrCreateSolidColorBrush host
          /\ m_pGraphLineBrush (state r) = None
          /\ exists rt,
               m_pRenderTarget (state r) = Some rt
               /\ rt = match m_pRenderTarget app with
                       | Some held => held
                       | None => new_target host
                       end
               /\ forall host',
                    trace (CreateDeviceResources host' (state r))
                    = [CreateSolidColorBrush Red]
                    /\ trace (OnRender host' (state r))
                       = if FAILED (hrCreateSolidColorBrush host')
                         then [CreateSolidColorBrush Red]
                         else CreateSolidColorBrush Red
                                :: frame (m_inputFunction app) (GetSize rt) (Some red_brush)
                                ++ (if hrEndDraw host' =? D2DERR_RECREATE_TARGET
                                    then [Release RenderTarget; Release GraphLineBrush]
                                    else []))).
Proof.
  intros Hf r hr.
  assert (Hr : r = CreateDeviceResources host app).
  { unfold r. rewrite OnRender_eq.
    destruct (CreateDeviceResources host app) as [[h a] t].
    unfold result in Hf; cbn [fst] in Hf. now rewrite Hf. }
  assert (Hnr : ~ Ready (state r)).
  { rewrite Hr. intros [H1 H2].
    destruct (CreateDeviceResources_failed host app Hf) as [(Ht & _ & _ & Hs) | (_ & _ & _ & _ & Hb)].
    - rewrite Hs in H1. contradiction.
    - contradiction. }
  split; [now rewrite Hr|].
  split.
  { destruct (CreateDeviceResources_failed host app Hf) as [(_ & _ & H & _) | (_ & _ & H & _)];
      [left | right]; exact H. }
  split; [now rewrite Hr|].
  split; [rewrite Hr; apply CreateDeviceResources_trace|].
  split.
  { rewrite Hr. apply (filter_none is_draw_call is_creation);
      [apply CreateDeviceResources_trace | apply creation_not_draw]. }
  split.
  { intros wParam lParam. rewrite WndProcCore_WM_PAINT. fold r.
    replace (result r) with hr by now rewrite Hr.
    unfold SUCCEEDED. unfold FAILED in Hf. fold hr in Hf.
    now replace (0 <=? hr) with false by (symmetry; apply Z.leb_gt; apply Z.ltb_lt; exact Hf). }
  split; [exact Hnr|].
  split.
  { intros Ht Hft. rewrite Hr, CreateDeviceResources_eq, Ht. cbv zeta. now rewrite Hft. }
  split; [intros host'; now apply OnRender_retries|].
  unfold hr. rewrite Hr. clear r hr Hr Hnr. revert Hf.
  rewrite CreateDeviceResources_eq.
  destruct (m_pRenderTarget app) as [rt0|] eqn:Ht,
           (m_pGraphLineBrush app) as [br|] eqn:Hb; cbv zeta;
    repeat match goal with
           | |- context [if FAILED ?h then _ else _] =>
               let E := fresh "E" in destruct (FAILED h) eqn:E
           end;
    unfold result, state, trace; cbn [fst snd]; intros Hf;
    try (cbn in Hf; discriminate).
  - right. repeat split; try assumption.
    exists rt0. split; [exact Ht|]. split; [reflexivity|].
    intros host'. now apply OnRender_brush_alone.
  - left. repeat split; try assumption.
    intros host'. now apply OnRender_target_first.
  - left. repeat split; try assumption.
    intros host'. now apply OnRender_target_first.
  - right. repeat split; try assumption.
    exists (new_target host). split; [reflexivity|]. split; [reflexivity|].
    intros host'.
    apply (OnRender_brush_alone host' (set_pRenderTarget (Some (new_target host)) app));
      [reflexivity | exact Hb].
Qed.

(** The theorem at work: the brush cannot be created on the first redraw,
    and the redraw that follows creates the brush alone. *)
Lemma failed_creation_aborts_redraw_witness :
  FAILED (result (CreateDeviceResources no_brush_host (App_ctor line_function))) = true
  /\ result (OnRender no_brush_host (App_ctor line_function)) = E_FAIL
  /\ exists c rest,
       trace (OnRender (obliging_host (SizeU 800 600))
                (state (OnRender no_brush_host (App_ctor line_function))))
       = c :: rest
       /\ is_creation c = true.
Proof.
  assert (H : FAILED (result (CreateDeviceResources no_brush_host (App_ctor line_function))) = true)
    by reflexivity.
  split; [exact H|].
  destruct (failed_creation_aborts_redraw no_brush_host (App_ctor line_function) H)
    as (Hr & _ & _ & _ & _ & _ & _ & _ & Hn & _).
  split; [exact Hr | exact (Hn (obliging_host (SizeU 800 600)))].
Defined.

(** ** C8: redrawing twice *)

Lemma draw_calls_frame (f : InputFunction) (size : D2D1_SIZE_F)
  (brush : option ID2D1SolidColorBrush) (pre post : list Call) :
  forallb is_creation pre = true ->
  forallb is_Release post = true ->
  draw_calls (pre ++ frame f size brush ++ post) = draw_calls (frame f size brush).
Proof.
  intros Hpre Hpost. unfold draw_calls. rewrite !filter_app.
  rewrite (filter_none is_draw_call is_creation pre Hpre creation_not_draw).
  rewrite (filter_none is_draw_call is_Release post Hpost release_not_draw).
  now rewrite app_nil_r.
Qed.

(** A state with both resources reaches drawing whatever the host says. *)
Lemma Ready_reaches_drawing (host : Host) (app : App) :
  Ready app -> reaches_drawing host app.
Proof.
  intros H. unfold reaches_drawing. now rewrite CreateDeviceResources_Ready.
Qed.

(** C8.  Two redraws in a row, the first one reaching drawing and not
    ending stale, with no resize between them, make the same drawing calls:
    the same [BeginDraw], transform and clear, the same lines in the same
    order with the same end points, brush and stroke width, the same
    [EndDraw].  Without a stale end the second redraw also leaves the state
    as the first one left it. *)
Theorem redraw_twice_same_draw_calls (host1 host2 : Host) (app : App) :
  reaches_drawing host1 app ->
  hrEndDraw host1 <> D2DERR_RECREATE_TARGET ->
  let first := OnRender host1 app in
  let second := OnRender host2 (state first) in
  draw_calls (trace second) = draw_calls (trace first)
  /\ (hrEndDraw host2 <> D2DERR_RECREATE_TARGET -> state second = state first).
Proof.
  intros Hr Hs first second.
  destruct (OnRender_trace host1 app Hr) as (rt & brush & Ht & Hb & Htr & _ & Hst).
  apply Z.eqb_neq in Hs. rewrite Hs in Htr, Hst. fold first in Htr, Hst.
  assert (Hready : Ready (state first)) by (rewrite Hst; split; congruence).
  pose proof (Ready_reaches_drawing host2 _ Hready) as Hr2.
  destruct (OnRender_trace host2 _ Hr2) as (rt2 & brush2 & Ht2 & Hb2 & Htr2 & _ & Hst2).
  fold second in Htr2, Hst2.
  rewrite (CreateDeviceResources_Ready host2 _ Hready) in Ht2, Hb2, Htr2, Hst2.
  cbn [state trace fst snd] in Ht2, Hb2, Htr2, Hst2.
  rewrite Hst, Ht in Ht2. rewrite Hst, Hb in Hb2.
  injection Ht2 as <-. injection Hb2 as <-.
  assert (Hf : m_inputFunction (state first) = m_inputFunction app)
    by (rewrite Hst; apply CreateDeviceResources_inputFunction).
  split.
  - rewrite Htr2, Htr, Hf.
    rewrite (draw_calls_frame _ _ _ [] _); [|reflexivity|
      now destruct (hrEndDraw host2 =? D2DERR_RECREATE_TARGET)].
    rewrite (draw_calls_frame _ _ _ _ []);
      [reflexivity|apply CreateDeviceResources_trace|reflexivity].
  - intros Hs2. apply Z.eqb_neq in Hs2. now rewrite Hs2 in Hst2.
Qed.

(** The theorem at work: the first two redraws of a window. *)
Lemma redraw_twice_same_draw_calls_witness :
  reaches_drawing (obliging_host (SizeU 640 480)) (App_ctor line_function)
  /\ hrEndDraw (obliging_host (SizeU 640 480)) <> D2DERR_RECREATE_TARGET
  /\ draw_calls (trace (OnRender (obliging_host (SizeU 640 480))
                   (state (OnRender (obliging_host (SizeU 640 480)) (App_ctor line_function)))))
     = draw_calls (trace (OnRender (obliging_host (SizeU 640 480)) (App_ctor line_function))).
Proof.
  assert (H1 : reaches_drawing (obliging_host (SizeU 640 480)) (App_ctor line_function))
    by reflexivity.
  assert (H2 : hrEndDraw (obliging_host (SizeU 640 480)) <> D2DERR_RECREATE_TARGET)
    by discriminate.
  split; [exact H1|]. split; [exact H2|].
  exact (proj1 (redraw_twice_same_draw_calls _ (obliging_host (SizeU 640 480)) _ H1 H2)).
Defined.

(** ** C10: the brush never outlives the render target *)

Lemma brush_needs_target_CreateDeviceResources (host : Host) (app : App) :
  brush_needs_target app ->
  brush_needs_target (state (CreateDeviceResources host app)).
Proof.
  unfold brush_needs_target. rewrite CreateDeviceResources_eq.
  destruct (m_pRenderTarget app) as [rt|] eqn:Ht,
           (m_pGraphLineBrush app) as [br|] eqn:Hb; cbv zeta;
    repeat match goal with
           | |- context [if FAILED ?h then _ else _] => destruct (FAILED h)
           end;
    unfold state; cbn [fst snd m_pRenderTarget m_pGraphLineBrush
                       set_pRenderTarget set_pGraphLineBrush];
    intros H; try rewrite Ht; try rewrite Hb; auto; congruence.
Qed.

Lemma brush_needs_target_OnRender (host : Host) (app : App) :
  brush_needs_target app -> brush_needs_target (state (OnRender host app)).
Proof.
  intros H. apply (brush_needs_target_CreateDeviceResources host) in H.
  rewrite OnRender_eq.
  destruct (CreateDeviceResources host app) as [[hr app1] t1].
  unfold state in *; cbn [fst snd] in *.
  destruct (FAILED hr); [exact H|].
  destruct (m_pRenderTarget app1) eqn:Ht; [|exact H].
  cbv zeta. destruct (hrEndDraw host =? D2DERR_RECREATE_TARGET); [|exact H].
  unfold brush_needs_target. cbn. tauto.
Qed.

Lemma brush_needs_target_OnResize (width height : Z) (app : App) :
  brush_needs_target app -> brush_needs_target (state (OnResize width height app)).
Proof.
  unfold brush_needs_target, OnResize, bind, this.
  destruct (m_pRenderTarget app) eqn:Ht; cbn; rewrite ?Ht; intros H Hb;
    [discriminate | auto].
Qed.

Lemma brush_needs_target_dtor (app : App) :
  brush_needs_target (state (App_dtor app)).
Proof.
  unfold brush_needs_target, App_dtor, bind, SafeRelease_pDirect2dFactory,
    SafeRelease_pRenderTarget, SafeRelease_pGraphLineBrush.
  destruct app as [f h [fa|] [rt|] [br|]]; cbn; tauto.
Qed.

Lemma brush_needs_target_Initialize (sys : Startup) (app : App) :
  brush_needs_target app -> brush_needs_target (state (Initialize sys app)).
Proof.
  unfold brush_needs_target, Initialize, TRYRET, bind, call, assign, ret.
  destruct (desktopDpi sys) as [dpiX dpiY].
  destruct (FAILED (hrD2D1CreateFactory sys)) eqn:Hf; cbn; rewrite ?Hf; cbn; auto.
  destruct (atomRegisterClassEx sys =? 0); cbn; auto.
  destruct (hwndCreateWindow sys); cbn; auto.
Qed.

Lemma brush_needs_target_WndProcCore (host : Host) (message wParam lParam : Z) (app : App) :
  brush_needs_target app ->
  brush_needs_target (state (WndProcCore host message wParam lParam app)).
Proof.
  intros H. unfold WndProcCore.
  destruct (message =? WM_SIZE).
  { apply (brush_needs_target_OnResize (LOWORD lParam) (HIWORD lParam)) in H.
    unfold bind. destruct (OnResize _ _ app) as [[u a] t]. exact H. }
  destruct (message =? WM_DISPLAYCHANGE); [exact H|].
  destruct (message =? WM_PAINT).
  { apply (brush_needs_target_OnRender host) in H.
    unfold bind. destruct (OnRender host app) as [[hr a] t].
    destruct (SUCCEEDED hr); exact H. }
  destruct (message =? WM_DESTROY); exact H.
Qed.

(** C10.  In every state the program reaches, a cached brush comes with a
    cached render target: the constructor nulls both, creation makes the
    target first, resizing touches no pointer, the stale path and the
    destructor null both. *)
Theorem brush_only_with_render_target (app : App) :
  reachable app -> brush_needs_target app.
Proof.
  induction 1 as [f|sys app _ IH|host app _ IH|w h app _ IH|host m wp lp app _ IH|app _ IH].
  - unfold brush_needs_target. cbn. congruence.
  - now apply brush_needs_target_Initialize.
  - now apply brush_needs_target_OnRender.
  - now apply brush_needs_target_OnResize.
  - now apply brush_needs_target_WndProcCore.
  - apply brush_needs_target_dtor.
Qed.

(** The theorem at work: after the first redraw of a new window. *)
Lemma brush_only_with_render_target_witness :
  reachable (state (OnRender (obliging_host (SizeU 640 480)) (App_ctor line_function)))
  /\ brush_needs_target
       (state (OnRender (obliging_host (SizeU 640 480)) (App_ctor line_function))).
Proof.
  assert (H : reachable
                (state (OnRender (obliging_host (SizeU 640 480)) (App_ctor line_function))))
    by (apply reachable_OnRender, reachable_ctor).
  split; [exact H|].
  exact (brush_only_with_render_target _ H).
Defined.

(** ** C1: the coordinate transform *)

Local Open Scope float_scope.




(** The scenario of the specification with a function that is 0 at 0:
    column 0 of a 640 x 480 surface lies at mid-height. *)
Example ComputePoint_column_0 :
  ComputePoint
    {| func := fun x => x; startX := 0; endX := 6; startY := -1.5; endY := 1.5 |}
    size_640x480 0
  = (Point2F 0 240, [Eval_func 0]).
Proof. reflexivity. Qed.

(** ** C6: the ordinate at the ends of the value range *)

(** C6, refuted as stated.  The axes of [huge_range] satisfy
    startY < endY and the surface is 640 wide, the function value equals
    endY, yet the ordinate is not 0: endY - startY overflows to infinity
    and infinity / infinity is not a number. *)
Lemma ordinate_at_endY_counterexample :
  (startY huge_range <? endY huge_range) = true
  /\ (0 <? SIZE_F.width size_640x480) = true
  /\ (func huge_range (ComputePoint_argX huge_range size_640x480 0)
      =? endY huge_range) = true
  /\ POINT_2F.y (fst (ComputePoint huge_range size_640x480 0)) = nan
  /\ (POINT_2F.y (fst (ComputePoint huge_range size_640x480 0)) =? 0) = false.
Proof. repeat split; reflexivity. Qed.
(** C6, amended.  When the length endY - startY of the value range is a
    positive finite double and the height is a finite FLOAT that is zero
    or above: a function value equal to startY gives an ordinate equal to
    the height, and a function value equal to endY gives the ordinate 0.
    Equal is the comparison [==] of doubles. *)
Theorem ordinate_at_range_ends (f : InputFunction) (size : D2D1_SIZE_F) (x : Z) :
  pos_finite (endY f - startY f) ->
  nonneg_finite (SIZE_F.height size) ->
  is_FLOAT (SIZE_F.height size) ->
  let value := func f (ComputePoint_argX f size x) in
  let y_px := POINT_2F.y (fst (ComputePoint f size x)) in
  ((value =? startY f) = true -> (y_px =? SIZE_F.height size) = true)
  /\ ((value =? endY f) = true -> y_px = 0).
Proof.
  intros Hd Hh Hfl value y_px.
  destruct (pos_finite_SF _ Hd) as (md & ed & HD).
  pose proof (nonneg_finite_SF _ Hh) as HH.
  rewrite sub_spec in HD.
  assert (Hy : y_px = to_FLOAT (ComputePoint_y f size value)) by reflexivity.
  split; intros Hv; rewrite eqb_spec in Hv.
  - pose proof (SF_y_at_startY _ _ _ _ md ed Hv (SF_sub_finite_inv _ _ _ _ _ HD) HD HH) as Hr.
    cbv zeta in Hr. rewrite <- Prim2SF_ComputePoint_y in Hr. fold value in Hr.
    rewrite Hy, eqb_spec. destruct Hr as [Hr | [[b Hr] [b' Hz]]].
    + apply Prim2SF_inj in Hr. rewrite Hr, Hfl.
      destruct HH as [[b ->] | (m & e & ->)]; [reflexivity | apply SFeqb_refl_finite].
    + rewrite (to_FLOAT_zero _ _ Hr), Hz. reflexivity.
  - pose proof (SF_y_at_endY _ _ _ _ md ed Hv HD (Prim2SF_valid _) HH) as Hr.
    rewrite <- Prim2SF_ComputePoint_y in Hr. fold value in Hr.
    rewrite Hy. apply Prim2SF_inj. rewrite (to_FLOAT_zero _ _ Hr). reflexivity.
Qed.

(** The theorem at work: a function that stays at startY, on the default
    axes and a 640 x 480 surface. *)
Lemma ordinate_at_range_ends_witness :
  pos_finite (endY (constant_function (-1.5)) - startY (constant_function (-1.5)))
  /\ nonneg_finite (SIZE_F.height size_640x480)
  /\ is_FLOAT (SIZE_F.height size_640x480)
  /\ (POINT_2F.y (fst (ComputePoint (constant_function (-1.5)) size_640x480 0))
      =? SIZE_F.height size_640x480) = true.
Proof.
  assert (H1 : pos_finite (endY (constant_function (-1.5))
                           - startY (constant_function (-1.5))))
    by (split; reflexivity).
  assert (H2 : nonneg_finite (SIZE_F.height size_640x480)) by (split; reflexivity).
  assert (H3 : is_FLOAT (SIZE_F.height size_640x480)) by reflexivity.
  split; [exact H1|]. split; [exact H2|]. split; [exact H3|].
  apply (proj1 (ordinate_at_range_ends (constant_function (-1.5)) size_640x480 0 H1 H2 H3)).
  reflexivity.
Defined.

(** ** C7: the first and the last column *)

(** C7, refuted as stated.  On a surface 640 wide with the x axis from 0.2
    to 0.9, column 640 = width is handed the argument
    (0.9 - 0.2) + 0.2, which is the double below 0.9. *)
Lemma argX_last_column_counterexample :
  (startX decimal_axes <? endX decimal_axes) = true
  /\ (0 <? SIZE_F.width size_640x480) = true
  /\ double_of_int 640 = SIZE_F.width size_640x480
  /\ ComputePoint_argX decimal_axes size_640x480 640 = 0x1.cccccccccccccp-1
  /\ endX decimal_axes = 0x1.ccccccccccccdp-1
  /\ (ComputePoint_argX decimal_axes size_640x480 640 =? endX decimal_axes) = false.
Proof. repeat split; reflexivity. Qed.

(** C7, amended.  On a surface of positive width, column 0 is handed an
    argument equal ([==]) to startX whenever endX - startX is finite, and
    a column x equal to a finite width is handed the double
    (endX - startX) + startX, which is endX exactly when that subtraction
    and addition round back to it. *)
Theorem argX_at_boundary_columns (f : InputFunction) (size : D2D1_SIZE_F) (x : Z) :
  (0 <? SIZE_F.width size) = true ->
  (is_finite (endX f - startX f) = true ->
   (ComputePoint_argX f size 0 =? startX f) = true)
  /\ ((SIZE_F.width size <? infinity) = true ->
      double_of_int x = SIZE_F.width size ->
      ComputePoint_argX f size x = (endX f - startX f) + startX f
      /\ ((endX f - startX f) + startX f = endX f ->
          ComputePoint_argX f size x = endX f)).
Proof.
  intros Hw. split.
  - intros Hd. now apply argX_first_column.
  - intros Hfin Hx.
    assert (H : ComputePoint_argX f size x = (endX f - startX f) + startX f)
      by (apply argX_last_column; [split|]; assumption).
    split; [exact H|]. intros He. now rewrite H.
Qed.

(** The theorem at work: the default axes, where both ends are met. *)
Lemma argX_at_boundary_columns_witness :
  (0 <? SIZE_F.width size_640x480) = true
  /\ (ComputePoint_argX line_function size_640x480 0 =? startX line_function) = true
  /\ ComputePoint_argX line_function size_640x480 640 = endX line_function.
Proof.
  assert (H : (0 <? SIZE_F.width size_640x480) = true) by reflexivity.
  split; [exact H|].
  destruct (argX_at_boundary_columns line_function size_640x480 640 H) as [H0 Hw].
  split.
  - apply H0. reflexivity.
  - apply Hw; reflexivity.
Defined.

Local Close Scope float_scope.

(** ** C9: a surface of width zero *)



(** ** C3: the points of the redraw after a resize *)



(** The ordinate of column [x] on a surface [h] pixels high, for a function
    value in the value range. *)
Lemma ordinate_on_surface (f : InputFunction) (w h x : Z) :
  exact_in_FLOAT h ->
  in_value_range f (SizeF_of_SizeU (SizeU w h)) x ->
  y_on_surface h (point_at f (SizeF_of_SizeU (SizeU w h)) x).
Proof.
  intros Hh (Hd & Hs & He). unfold y_on_surface, point_at.
  cbn [ComputePoint fst POINT_2F.y]. unfold ComputePoint_y.
  destruct (difference_within _ _ _ Hs He Hd) as [H0 H1].
  destruct (fraction_within _ _ H0 H1 Hd) as [Ht0 Ht1].
  set (t := ((_ - startY f) / (endY f - startY f))%float) in *.
  change (SIZE_F.height (SizeF_of_SizeU (SizeU w h))) with (FLOAT_of_UINT32 h).
  unfold FLOAT_of_UINT32. rewrite (to_FLOAT_of_Z h Hh).
  exact (ordinate_within _ t h Hh eq_refl Ht0 Ht1).
Qed.



(** The straight line through the default axes stays in the value range:
    so does its point of column 320, in the middle of a surface of
    640 x 480. *)
Example line_column_320_on_surface :
  y_on_surface 480 (point_at line_function (SizeF_of_SizeU (SizeU 640 480)) 320).
Proof.
  apply ordinate_on_surface; [unfold exact_in_FLOAT; lia|].
  unfold in_value_range, pos_finite. cbv zeta. repeat split; vm_compute; reflexivity.
Qed.


(** * Further properties of the code *)

(** ** Start-up: [App::Initialize] *)

(** [Initialize] by cases. *)
Lemma Initialize_eq (sys : Startup) (app : App) :
  Initialize sys app =
  if FAILED (hrD2D1CreateFactory sys)
  then (hrD2D1CreateFactory sys, app, [D2D1CreateFactory])
  else
    let app1 := set_pDirect2dFactory (Some {| factory_type_single_threaded := tt |}) app in
    if atomRegisterClassEx sys =? 0
    then (E_FAIL, app1, [D2D1CreateFactory; RegisterClassEx; ReportWin32Error])
    else
      let '(w, h) := window_extent (desktopDpi sys) in
      let app2 := set_hwnd (hwndCreateWindow sys) app1 in
      match hwndCreateWindow sys with
      | None =>
          (E_FAIL, app2,
           [D2D1CreateFactory; RegisterClassEx; CreateWindow w h; ReportWin32Error])
      | Some _ =>
          (S_OK, app2,
           [D2D1CreateFactory; RegisterClassEx; CreateWindow w h; ShowWindow; UpdateWindow])
      end.
Proof.
  unfold Initialize, TRYRET, bind, call, assign, ret, window_extent.
  destruct (desktopDpi sys) as [dpiX dpiY].
  destruct (FAILED (hrD2D1CreateFactory sys)) eqn:Hf; cbn; rewrite ?Hf; cbn; [reflexivity|].
  destruct (atomRegisterClassEx sys =? 0); cbn; [reflexivity|].
  destruct (hwndCreateWindow sys); reflexivity.
Qed.

(** X1.  [Initialize] succeeds exactly when creating the Direct2D factory
    succeeds, the window class is registered (a non-zero atom) and the
    window is created (a non-null handle).  It then returns [S_OK] having
    called, in this order, [D2D1CreateFactory], [RegisterClassEx],
    [CreateWindow] with the scaled extent, [ShowWindow] and
    [UpdateWindow], once each, and holds the factory and the handle. *)
Theorem Initialize_succeeds_iff (sys : Startup) (app : App) :
  let r := Initialize sys app in
  (SUCCEEDED (result r) = true <->
     FAILED (hrD2D1CreateFactory sys) = false
     /\ atomRegisterClassEx sys <> 0
     /\ hwndCreateWindow sys <> None)
  /\ (SUCCEEDED (result r) = true ->
      result r = S_OK
      /\ m_pDirect2dFactory (state r) <> None
      /\ m_hwnd (state r) = hwndCreateWindow sys
      /\ m_pRenderTarget (state r) = m_pRenderTarget app
      /\ m_pGraphLineBrush (state r) = m_pGraphLineBrush app
      /\ trace r = [D2D1CreateFactory; RegisterClassEx;
                    CreateWindow (fst (window_extent (desktopDpi sys)))
                                 (snd (window_extent (desktopDpi sys)));
                    ShowWindow; UpdateWindow]).
Proof.
  cbv zeta. rewrite Initialize_eq.
  destruct (FAILED (hrD2D1CreateFactory sys)) eqn:Hf.
  { assert (Hs : SUCCEEDED (hrD2D1CreateFactory sys) = false).
    { unfold SUCCEEDED, FAILED in *. apply Z.ltb_lt in Hf. apply Z.leb_gt. lia. }
    unfold result; cbn [fst]. rewrite Hs.
    split; [split; [discriminate | intros [H _]; discriminate] | discriminate]. }
  cbv zeta. destruct (Z.eqb_spec (atomRegisterClassEx sys) 0) as [Ha|Ha].
  { unfold result; cbn [fst].
    split; [split; [discriminate | intros (_ & H & _); contradiction] | discriminate]. }
  destruct (window_extent (desktopDpi sys)) as [w h].
  destruct (hwndCreateWindow sys) as [hwnd|] eqn:Hh.
  - unfold result, state, trace; cbn.
    repeat split; auto; discriminate.
  - unfold result; cbn [fst].
    split; [split; [discriminate | intros (_ & _ & H); contradiction] | discriminate].
Qed.

(** X2.  [Initialize] stops at its first failure.  A failing
    [D2D1CreateFactory] gives its own code back, after that one call and
    with the object untouched.  A zero atom from [RegisterClassEx] gives
    [E_FAIL] after the error is reported; no window is created, and the
    factory stays cached.  A null handle from [CreateWindow] gives
    [E_FAIL] after the error is reported; the window is never shown or
    updated.  No failure touches the render target or the brush. *)
Theorem Initialize_stops_at_first_failure (sys : Startup) (app : App) :
  let r := Initialize sys app in
  (FAILED (hrD2D1CreateFactory sys) = true ->
     r = (hrD2D1CreateFactory sys, app, [D2D1CreateFactory]))
  /\ (FAILED (hrD2D1CreateFactory sys) = false -> atomRegisterClassEx sys = 0 ->
      result r = E_FAIL
      /\ trace r = [D2D1CreateFactory; RegisterClassEx; ReportWin32Error]
      /\ m_pDirect2dFactory (state r) <> None
      /\ m_hwnd (state r) = m_hwnd app)
  /\ (FAILED (hrD2D1CreateFactory sys) = false -> atomRegisterClassEx sys <> 0 ->
      hwndCreateWindow sys = None ->
      result r = E_FAIL
      /\ trace r = [D2D1CreateFactory; RegisterClassEx;
                    CreateWindow (fst (window_extent (desktopDpi sys)))
                                 (snd (window_extent (desktopDpi sys)));
                    ReportWin32Error]
      /\ m_pDirect2dFactory (state r) <> None
      /\ m_hwnd (state r) = None)
  /\ (FAILED (result r) = true ->
      ~ In ShowWindow (trace r) /\ ~ In UpdateWindow (trace r))
  /\ m_pRenderTarget (state r) = m_pRenderTarget app
  /\ m_pGraphLineBrush (state r) = m_pGraphLineBrush app
  /\ m_inputFunction (state r) = m_inputFunction app.
Proof.
  cbv zeta. rewrite Initialize_eq.
  destruct (FAILED (hrD2D1CreateFactory sys)) eqn:Hf.
  { unfold result, state, trace; cbn [fst snd].
    repeat split; try discriminate; try reflexivity;
      cbn; intuition discriminate. }
  cbv zeta. destruct (Z.eqb_spec (atomRegisterClassEx sys) 0) as [Ha|Ha].
  { unfold result, state, trace; cbn.
    repeat split; try discriminate; try reflexivity; try contradiction;
      intuition discriminate. }
  destruct (window_extent (desktopDpi sys)) as [w h].
  destruct (hwndCreateWindow sys) as [hwnd|] eqn:Hh;
    unfold result, state, trace; cbn;
    repeat split; try discriminate; try reflexivity; try contradiction;
      intuition discriminate.
Qed.

(** ** Shutdown: [App::~App] and [SafeRelease] *)

Lemma App_dtor_eq (app : App) :
  App_dtor app =
  (tt,
   {| m_inputFunction := m_inputFunction app; m_hwnd := m_hwnd app;
      m_pDirect2dFactory := None; m_pRenderTarget := None;
      m_pGraphLineBrush := None |},
   release_of Direct2dFactory (m_pDirect2dFactory app)
     ++ release_of RenderTarget (m_pRenderTarget app)
     ++ release_of GraphLineBrush (m_pGraphLineBrush app)).
Proof.
  unfold App_dtor, bind, SafeRelease_pDirect2dFactory,
    SafeRelease_pRenderTarget, SafeRelease_pGraphLineBrush.
  destruct app as [f h [fa|] [rt|] [br|]]; reflexivity.
Qed.

Lemma App_dtor_trace (app : App) :
  trace (App_dtor app)
  = release_of Direct2dFactory (m_pDirect2dFactory app)
      ++ release_of RenderTarget (m_pRenderTarget app)
      ++ release_of GraphLineBrush (m_pGraphLineBrush app).
Proof. now rewrite App_dtor_eq. Qed.

Lemma App_dtor_state (app : App) :
  m_pDirect2dFactory (state (App_dtor app)) = None
  /\ m_pRenderTarget (state (App_dtor app)) = None
  /\ m_pGraphLineBrush (state (App_dtor app)) = None
  /\ m_inputFunction (state (App_dtor app)) = m_inputFunction app
  /\ m_hwnd (state (App_dtor app)) = m_hwnd app.
Proof. rewrite App_dtor_eq. repeat split. Qed.

(** X3.  The destructor releases every cached resource exactly once, the
    factory first, then the render target, then the brush, releases
    nothing that is null, and leaves the three pointers null: releasing
    again, as a second pass of [SafeRelease] would, releases nothing. *)
Theorem destructor_releases_each_resource_once (app : App) :
  let r := App_dtor app in
  trace r
  = release_of Direct2dFactory (m_pDirect2dFactory app)
      ++ release_of RenderTarget (m_pRenderTarget app)
      ++ release_of GraphLineBrush (m_pGraphLineBrush app)
  /\ m_pDirect2dFactory (state r) = None
  /\ m_pRenderTarget (state r) = None
  /\ m_pGraphLineBrush (state r) = None
  /\ m_inputFunction (state r) = m_inputFunction app
  /\ m_hwnd (state r) = m_hwnd app
  /\ trace (App_dtor (state r)) = []
  /\ state (App_dtor (state r)) = state r.
Proof.
  cbv zeta. rewrite !App_dtor_eq. unfold state, trace; cbn. repeat split.
Qed.

(** ** Window messages: [App::WndProcCore] and [App::OnResize] *)

Lemma OnResize_eq (width height : Z) (app : App) :
  OnResize width height app =
  match m_pRenderTarget app with
  | Some _ =>
      (tt, set_pRenderTarget (Some {| rt_size := SizeF_of_SizeU (SizeU width height) |}) app,
       [Resize (SizeU width height)])
  | None => (tt, app, [])
  end.
Proof. unfold OnResize, bind, this. now destruct (m_pRenderTarget app). Qed.

Lemma LOWORD_bounds (l : Z) : 0 <= LOWORD l < 65536.
Proof.
  unfold LOWORD. change 65535 with (Z.ones 16). rewrite Z.land_ones by lia.
  apply Z.mod_pos_bound. reflexivity.
Qed.

Lemma HIWORD_bounds (l : Z) : 0 <= HIWORD l < 65536.
Proof.
  unfold HIWORD. change 65535 with (Z.ones 16). rewrite Z.land_ones by lia.
  apply Z.mod_pos_bound. reflexivity.
Qed.

Lemma land_word (w : Z) : 0 <= w < 65536 -> Z.land w 65535 = w.
Proof.
  intros H. change 65535 with (Z.ones 16). rewrite Z.land_ones by lia.
  apply Z.mod_small. exact H.
Qed.

Lemma LOWORD_MAKELPARAM (w h : Z) :
  0 <= w < 65536 -> 0 <= h < 65536 -> LOWORD (MAKELPARAM w h) = w.
Proof.
  intros Hw Hh. unfold LOWORD, MAKELPARAM. rewrite (land_word w Hw), (land_word h Hh).
  rewrite Z.land_lor_distr_l, (land_word w Hw).
  change 65535 with (Z.ones 16). rewrite Z.land_ones by lia.
  rewrite Z.shiftl_mul_pow2 by lia. rewrite Z.mod_mul by (compute; discriminate).
  apply Z.lor_0_r.
Qed.

Lemma HIWORD_MAKELPARAM (w h : Z) :
  0 <= w < 65536 -> 0 <= h < 65536 -> HIWORD (MAKELPARAM w h) = h.
Proof.
  intros Hw Hh. unfold HIWORD, MAKELPARAM. rewrite (land_word w Hw), (land_word h Hh).
  rewrite Z.shiftr_lor.
  rewrite (Z.shiftr_div_pow2 w) by lia.
  rewrite Z.div_small by (change (2 ^ 16) with 65536; lia).
  rewrite Z.lor_0_l.
  rewrite Z.shiftr_shiftl_l by lia. change (16 - 16) with 0. rewrite Z.shiftl_0_r.
  apply land_word. exact Hh.
Qed.

(** X4.  A [WM_SIZE] message whose [lParam] packs the client extent
    (w, h), each below 65536, is answered with 0; with a render target
    cached it makes the one call [Resize(w, h)], after which [GetSize]
    reports exactly (w, h) and the redraw loop runs up to column w;
    without a render target it calls nothing and changes nothing. *)
Theorem WM_SIZE_resizes_to_the_packed_extent
  (host : Host) (app : App) (wParam w h : Z) :
  0 <= w < 65536 -> 0 <= h < 65536 ->
  let r := WndProcCore host WM_SIZE wParam (MAKELPARAM w h) app in
  result r = 0
  /\ (m_pRenderTarget app = None -> state r = app /\ trace r = [])
  /\ (m_pRenderTarget app <> None ->
      trace r = [Resize (SizeU w h)]
      /\ exists rt,
           m_pRenderTarget (state r) = Some rt
           /\ GetSize rt = SizeF (of_uint63 (Uint63.of_Z w)) (of_uint63 (Uint63.of_Z h))
           /\ to_int (ceil (SIZE_F.width (GetSize rt))) = w)
  /\ m_pGraphLineBrush (state r) = m_pGraphLineBrush app
  /\ m_inputFunction (state r) = m_inputFunction app.
Proof.
  intros Hw Hh. cbv zeta. unfold WndProcCore.
  change (WM_SIZE =? WM_SIZE) with true. cbv iota.
  rewrite LOWORD_MAKELPARAM, HIWORD_MAKELPARAM by assumption.
  unfold bind. rewrite OnResize_eq.
  assert (Hew : exact_in_FLOAT w) by (unfold exact_in_FLOAT; lia).
  assert (Heh : exact_in_FLOAT h) by (unfold exact_in_FLOAT; lia).
  destruct (m_pRenderTarget app) as [rt|] eqn:Ht;
    unfold result, state, trace, ret; cbn [fst snd List.app].
  - split; [reflexivity|]. split; [discriminate|]. split; [|split; reflexivity].
    intros _. split; [reflexivity|]. eexists. split; [reflexivity|].
    unfold GetSize, SizeF_of_SizeU, FLOAT_of_UINT32.
    cbn [rt_size SIZE_U.width SIZE_U.height SizeU SIZE_F.width SizeF].
    rewrite !to_FLOAT_of_Z by assumption. split; [reflexivity|].
    now rewrite ceil_of_Z, to_int_of_Z.
  - split; [reflexivity|]. split; [auto|]. split; [congruence|]. split; reflexivity.
Qed.

(** The theorem at work: a window of 800 x 600 after its first redraw. *)
Lemma WM_SIZE_resizes_to_the_packed_extent_witness :
  trace (WndProcCore (obliging_host (SizeU 640 480)) WM_SIZE 0 (MAKELPARAM 800 600)
           (state (OnRender (obliging_host (SizeU 640 480)) (App_ctor line_function))))
  = [Resize (SizeU 800 600)].
Proof.
  assert (Hw : 0 <= 800 < 65536) by lia.
  assert (Hh : 0 <= 600 < 65536) by lia.
  pose proof (WM_SIZE_resizes_to_the_packed_extent (obliging_host (SizeU 640 480))
                (state (OnRender (obliging_host (SizeU 640 480)) (App_ctor line_function)))
                0 800 600 Hw Hh) as T.
  cbv zeta in T. destruct T as (_ & _ & T & _).
  exact (proj1 (T ltac:(discriminate))).
Defined.

(** X5.  Whatever its [lParam], a [WM_SIZE] message hands [Resize] an
    extent of two 16-bit words; the FLOAT size of the render target then
    holds both exactly, and the redraw loop runs up to the width. *)
Theorem WM_SIZE_extent_is_exact (host : Host) (app : App) (wParam lParam : Z) :
  m_pRenderTarget app <> None ->
  let r := WndProcCore host WM_SIZE wParam lParam app in
  exists w h,
    0 <= w < 65536 /\ 0 <= h < 65536
    /\ trace r = [Resize (SizeU w h)]
    /\ m_pRenderTarget (state r)
       = Some {| rt_size := SizeF (of_uint63 (Uint63.of_Z w)) (of_uint63 (Uint63.of_Z h)) |}
    /\ to_int (ceil (of_uint63 (Uint63.of_Z w))) = w.
Proof.
  intros Ht. cbv zeta. unfold WndProcCore.
  change (WM_SIZE =? WM_SIZE) with true. cbv iota.
  unfold bind. rewrite OnResize_eq.
  pose proof (LOWORD_bounds lParam) as Hw. pose proof (HIWORD_bounds lParam) as Hh.
  assert (Hew : exact_in_FLOAT (LOWORD lParam)) by (unfold exact_in_FLOAT; lia).
  assert (Heh : exact_in_FLOAT (HIWORD lParam)) by (unfold exact_in_FLOAT; lia).
  destruct (m_pRenderTarget app) as [rt|]; [|congruence].
  exists (LOWORD lParam), (HIWORD lParam).
  unfold state, trace, ret; cbn [fst snd List.app].
  split; [exact Hw|]. split; [exact Hh|]. split; [reflexivity|].
  unfold SizeF_of_SizeU, FLOAT_of_UINT32. cbn [SIZE_U.width SIZE_U.height SizeU].
  rewrite !to_FLOAT_of_Z by assumption. split; [reflexivity|].
  now rewrite ceil_of_Z, to_int_of_Z.
Qed.

(** The theorem at work: a message with a 64-bit [lParam] of all ones. *)
Lemma WM_SIZE_extent_is_exact_witness :
  exists w h,
    0 <= w < 65536 /\ 0 <= h < 65536
    /\ trace (WndProcCore (obliging_host (SizeU 640 480)) WM_SIZE 0 (-1)
                (state (OnRender (obliging_host (SizeU 640 480)) (App_ctor line_function))))
       = [Resize (SizeU w h)].
Proof.
  destruct (WM_SIZE_extent_is_exact (obliging_host (SizeU 640 480))
              (state (OnRender (obliging_host (SizeU 640 480)) (App_ctor line_function)))
              0 (-1) ltac:(discriminate)) as (w & h & Hw & Hh & Ht & _).
  exists w, h. auto.
Defined.

(** [OnResize] makes no call but [Resize]. *)
Lemma OnResize_calls (width height : Z) (app : App) (c : Call) :
  In c (trace (OnResize width height app)) -> c = Resize (SizeU width height).
Proof.
  rewrite OnResize_eq. destruct (m_pRenderTarget app); cbn; intuition.
Qed.

(** A redraw never resizes. *)
Lemma frame_no_Resize (f : InputFunction) (size : D2D1_SIZE_F)
  (brush : option ID2D1SolidColorBrush) :
  filter is_Resize (frame f size brush) = [].
Proof.
  rewrite frame_segments. cbn [List.app filter is_Resize].
  rewrite filter_app. cbn [filter is_Resize]. rewrite app_nil_r.
  induction (columns 1 (Z.to_nat (to_int (ceil (SIZE_F.width size))))) as [|c l IH];
    [reflexivity | exact IH].
Qed.

Lemma OnRender_no_Resize (host : Host) (app : App) :
  filter is_Resize (trace (OnRender host app)) = [].
Proof.
  rewrite OnRender_eq.
  pose proof (CreateDeviceResources_trace host app) as Hc.
  destruct (CreateDeviceResources host app) as [[hr app1] t1].
  unfold trace in *; cbn [snd] in *.
  assert (H1 : filter is_Resize t1 = []).
  { apply (filter_none _ is_creation); [exact Hc|]. now destruct a. }
  destruct (FAILED hr); [exact H1|].
  destruct (m_pRenderTarget app1); [|exact H1].
  cbv zeta. destruct (hrEndDraw host =? D2DERR_RECREATE_TARGET); cbn [snd];
    rewrite !filter_app, H1, frame_no_Resize; cbn [List.app]; [|reflexivity].
  destruct (m_pGraphLineBrush app1); reflexivity.
Qed.

(** X6.  Direct2D is reached from two messages only.  A message other
    than [WM_PAINT] creates, draws and releases nothing, and evaluates
    the plotted function never; a message other than [WM_SIZE] never
    resizes; a message that is neither leaves the object exactly as it
    was and makes a single call to the window system. *)
Theorem Direct2D_is_reached_from_two_messages
  (host : Host) (message wParam lParam : Z) (app : App) :
  let r := WndProcCore host message wParam lParam app in
  (forall c, In c (trace r) ->
     is_creation c || is_draw_call c || is_Release c || is_Eval_func c = true ->
     message = WM_PAINT)
  /\ (forall c, In c (trace r) -> is_Resize c = true -> message = WM_SIZE)
  /\ (message <> WM_PAINT -> message <> WM_SIZE ->
      state r = app
      /\ exists c, trace r = [c] /\ is_Direct2D c = false /\ is_Eval_func c = false).
Proof.
  cbv zeta. unfold WndProcCore.
  destruct (Z.eqb_spec message WM_SIZE) as [Hs|Hs].
  { subst message. unfold bind.
    pose proof (OnResize_calls (LOWORD lParam) (HIWORD lParam) app) as Hc.
    destruct (OnResize (LOWORD lParam) (HIWORD lParam) app) as [[u a] t].
    unfold trace, state, ret in *; cbn [fst snd] in *. rewrite app_nil_r.
    split; [|split; [auto | congruence]].
    intros c Hin Hk. rewrite (Hc c Hin) in Hk. discriminate. }
  destruct (Z.eqb_spec message WM_DISPLAYCHANGE) as [Hd|Hd].
  { unfold bind, call, ret, trace, state; cbn [fst snd List.app].
    split; [|split].
    - intros c [<-|[]] Hk. discriminate.
    - intros c [<-|[]] Hk. discriminate.
    - intros _ _. split; [reflexivity|]. eexists. repeat split. }
  destruct (Z.eqb_spec message WM_PAINT) as [Hp|Hp].
  { subst message. unfold bind.
    pose proof (OnRender_no_Resize host app) as Hn.
    destruct (OnRender host app) as [[hr a] t].
    unfold trace, state, ret, call in *; cbn [fst snd] in *.
    split; [auto|]. split; [|congruence].
    intros c Hin Hk. exfalso.
    assert (Hf : In c (filter is_Resize
                         (t ++ (let '(_, _, t2) :=
                                  (if SUCCEEDED hr then (tt, a, [ValidateRect])
                                   else (tt, a, [WriteToDebugConsole hr])) in t2)))).
    { apply filter_In. split; [|exact Hk].
      destruct (SUCCEEDED hr); cbn [snd List.app] in Hin |- *;
        rewrite ?app_nil_r in Hin; exact Hin. }
    rewrite filter_app, Hn in Hf. destruct (SUCCEEDED hr); cbn in Hf; exact Hf. }
  destruct (Z.eqb_spec message WM_DESTROY) as [Hq|Hq].
  { unfold bind, call, ret, trace, state; cbn [fst snd List.app].
    split; [|split].
    - intros c [<-|[]] Hk. discriminate.
    - intros c [<-|[]] Hk. discriminate.
    - intros _ _. split; [reflexivity|]. eexists. repeat split. }
  unfold bind, call, ret, trace, state; cbn [fst snd List.app].
  split; [|split].
  - intros c [<-|[]] Hk. discriminate.
  - intros c [<-|[]] Hk. discriminate.
  - intros _ _. split; [reflexivity|]. eexists. repeat split.
Qed.

(** ** Redraws: [App::OnRender] and [App::CreateDeviceResources] *)

(** A frame holds no creation call. *)
Lemma frame_no_creation (f : InputFunction) (size : D2D1_SIZE_F)
  (brush : option ID2D1SolidColorBrush) :
  filter is_creation (frame f size brush) = [].
Proof.
  rewrite frame_segments. cbn [List.app filter is_creation].
  rewrite filter_app. cbn [filter is_creation]. rewrite app_nil_r.
  induction (columns 1 (Z.to_nat (to_int (ceil (SIZE_F.width size))))) as [|c l IH];
    [reflexivity | exact IH].
Qed.

(** A redraw of a state with both resources cached creates nothing. *)
Lemma OnRender_Ready_no_creation (host : Host) (app : App) :
  Ready app -> filter is_creation (trace (OnRender host app)) = [].
Proof.
  intros HR. rewrite OnRender_eq, (CreateDeviceResources_Ready host app HR).
  change (FAILED S_OK) with false. cbv iota.
  destruct HR as [Ht Hb]. destruct (m_pRenderTarget app) as [rt|]; [|congruence].
  cbv zeta. destruct (hrEndDraw host =? D2DERR_RECREATE_TARGET);
    unfold trace; cbn [snd List.app]; rewrite ?filter_app, frame_no_creation;
    [|reflexivity].
  destruct (m_pGraphLineBrush app); reflexivity.
Qed.

(** X7.  When [EndDraw] fails with a code other than
    [D2DERR_RECREATE_TARGET], the redraw returns that code after the
    whole frame; it releases nothing and both resources stay cached.  The
    paint handler writes the code to the debug console and does not
    validate the window; the next redraw creates nothing. *)
Theorem EndDraw_failure_keeps_the_resources (host : Host) (app : App) :
  reaches_drawing host app ->
  FAILED (hrEndDraw host) = true ->
  hrEndDraw host <> D2DERR_RECREATE_TARGET ->
  let r := OnRender host app in
  result r = hrEndDraw host
  /\ state r = state (CreateDeviceResources host app)
  /\ Ready (state r)
  /\ filter is_Release (trace r) = []
  /\ (exists t, trace r = t ++ [EndDraw])
  /\ (forall wParam lParam,
        WndProcCore host WM_PAINT wParam lParam app
        = (0, state r, trace r ++ [WriteToDebugConsole (hrEndDraw host)]))
  /\ (forall host', filter is_creation (trace (OnRender host' (state r))) = []).
Proof.
  intros Hr Hf Hne. cbv zeta.
  destruct (OnRender_trace host app Hr) as (rt & br & Ht & Hb & Htr & Hres & Hst).
  assert (Hq : (hrEndDraw host =? D2DERR_RECREATE_TARGET) = false)
    by (apply Z.eqb_neq; exact Hne).
  rewrite Hq in Htr, Hres, Hst. rewrite app_nil_r in Htr.
  assert (HR : Ready (state (OnRender host app))).
  { rewrite Hst. unfold Ready. rewrite Ht, Hb. split; discriminate. }
  split; [exact Hres|]. split; [exact Hst|]. split; [exact HR|].
  split.
  { rewrite Htr, filter_app.
    rewrite (filter_none is_Release is_creation _ (CreateDeviceResources_trace host app))
      by (intros a; destruct a; cbn; congruence).
    rewrite frame_segments. cbn [List.app filter is_Release].
    rewrite filter_app. cbn [filter is_Release]. rewrite app_nil_r.
    induction (columns 1 _) as [|c l IH]; [reflexivity | exact IH]. }
  split.
  { rewrite Htr. unfold frame. eexists. rewrite !app_assoc. reflexivity. }
  split.
  { intros wParam lParam. rewrite WndProcCore_WM_PAINT. rewrite Hres.
    assert (Hs : SUCCEEDED (hrEndDraw host) = false).
    { unfold SUCCEEDED, FAILED in *. apply Z.ltb_lt in Hf. apply Z.leb_gt. lia. }
    rewrite Hs. reflexivity. }
  intros host'. now apply OnRender_Ready_no_creation.
Qed.

(** The theorem at work: a device that reports a failure at [EndDraw]. *)
Lemma EndDraw_failure_keeps_the_resources_witness :
  result (OnRender {| clientRect := SizeU 2 2; hrCreateHwndRenderTarget := S_OK;
                      hrCreateSolidColorBrush := S_OK; hrEndDraw := E_FAIL;
                      lrDefWindowProc := 0 |} (App_ctor line_function))
  = E_FAIL.
Proof.
  exact (proj1 (EndDraw_failure_keeps_the_resources
                  {| clientRect := SizeU 2 2; hrCreateHwndRenderTarget := S_OK;
                     hrCreateSolidColorBrush := S_OK; hrEndDraw := E_FAIL;
                     lrDefWindowProc := 0 |} (App_ctor line_function)
                  eq_refl eq_refl ltac:(discriminate))).
Defined.

(** X8.  Resource creation is lazy.  [CreateDeviceResources] calls
    [CreateHwndRenderTarget] exactly when the render target is null, and
    then on the client rectangle; it calls [CreateSolidColorBrush] only
    for a null brush, only with red, and only when a render target is
    there to make it; a cached render target and a cached brush are kept
    as they are; once it has succeeded, calling it again calls nothing
    and changes nothing. *)
Theorem creation_is_lazy (host : Host) (app : App) :
  let r := CreateDeviceResources host app in
  (forall size, In (CreateHwndRenderTarget size) (trace r)
                <-> m_pRenderTarget app = None /\ size = clientRect host)
  /\ (forall color, In (CreateSolidColorBrush color) (trace r) ->
        color = Red /\ m_pGraphLineBrush app = None /\ m_pRenderTarget (state r) <> None)
  /\ (m_pRenderTarget app <> None -> m_pRenderTarget (state r) = m_pRenderTarget app)
  /\ (m_pGraphLineBrush app <> None -> m_pGraphLineBrush (state r) = m_pGraphLineBrush app)
  /\ (length (trace r) <= 2)%nat
  /\ (FAILED (result r) = false ->
      forall host', CreateDeviceResources host' (state r) = (S_OK, state r, [])).
Proof.
  cbv zeta.
  assert (Hlast : FAILED (result (CreateDeviceResources host app)) = false ->
                  forall host', CreateDeviceResources host' (state (CreateDeviceResources host app))
                                = (S_OK, state (CreateDeviceResources host app), [])).
  { intros Hr host'. apply CreateDeviceResources_Ready.
    destruct (CreateDeviceResources_ready host app Hr) as (rt & br & Ht & Hb).
    unfold Ready. rewrite Ht, Hb. split; discriminate. }
  revert Hlast. rewrite CreateDeviceResources_eq.
  destruct (m_pRenderTarget app) as [rt|] eqn:Ht,
           (m_pGraphLineBrush app) as [br|] eqn:Hb; cbv zeta;
    repeat match goal with
           | |- context [if FAILED ?h then _ else _] => destruct (FAILED h)
           end;
    unfold result, state, trace;
    cbn [fst snd m_pRenderTarget m_pGraphLineBrush set_pRenderTarget
         set_pGraphLineBrush In length];
    intros Hlast;
    (split; [intros size; split;
               [intros H; repeat destruct H as [H|H]; try discriminate H;
                try contradiction; try (injection H as <-); auto; try congruence
               | intros [H1 H2]; try discriminate H1; subst size; auto]|]);
    (split; [intros color H; repeat destruct H as [H|H]; try discriminate H;
             try contradiction; injection H as <-;
             repeat split; try reflexivity; try discriminate; congruence|]);
    (split; [intros H; try reflexivity; congruence|]);
    (split; [intros H; try reflexivity; congruence|]);
    (split; [lia | exact Hlast]).
Qed.

(** X9.  Resizes compose: of two resizes in a row the second decides the
    size.  A resize makes the one call [Resize(width, height)] when a
    render target is cached and no call otherwise; it never creates or
    drops a render target and leaves every other member alone. *)
Theorem last_resize_wins (w1 h1 w2 h2 : Z) (app : App) :
  state (OnResize w2 h2 (state (OnResize w1 h1 app))) = state (OnResize w2 h2 app)
  /\ trace (OnResize w1 h1 app)
     = match m_pRenderTarget app with
       | Some _ => [Resize (SizeU w1 h1)]
       | None => []
       end
  /\ (m_pRenderTarget (state (OnResize w1 h1 app)) = None <-> m_pRenderTarget app = None)
  /\ m_pGraphLineBrush (state (OnResize w1 h1 app)) = m_pGraphLineBrush app
  /\ m_pDirect2dFactory (state (OnResize w1 h1 app)) = m_pDirect2dFactory app
  /\ m_hwnd (state (OnResize w1 h1 app)) = m_hwnd app
  /\ m_inputFunction (state (OnResize w1 h1 app)) = m_inputFunction app.
Proof.
  rewrite !OnResize_eq. destruct app as [f h fa [rt|] br];
    unfold state, trace; cbn; repeat split; intros; congruence.
Qed.

(** ** The brush *)

Lemma brush_is_red_CreateDeviceResources (host : Host) (app : App) :
  brush_is_red app -> brush_is_red (state (CreateDeviceResources host app)).
Proof.
  unfold brush_is_red. rewrite CreateDeviceResources_eq.
  destruct (m_pRenderTarget app) as [rt|] eqn:Ht,
           (m_pGraphLineBrush app) as [br|] eqn:Hb; cbv zeta;
    repeat match goal with
           | |- context [if FAILED ?h then _ else _] => destruct (FAILED h)
           end;
    unfold state; cbn [fst snd m_pRenderTarget m_pGraphLineBrush
                       set_pRenderTarget set_pGraphLineBrush];
    rewrite ?Hb; auto.
Qed.

Lemma brush_is_red_OnRender (host : Host) (app : App) :
  brush_is_red app -> brush_is_red (state (OnRender host app)).
Proof.
  intros H. apply (brush_is_red_CreateDeviceResources host) in H.
  rewrite OnRender_eq.
  destruct (CreateDeviceResources host app) as [[hr app1] t1].
  unfold state in *; cbn [fst snd] in *.
  destruct (FAILED hr); [exact H|].
  destruct (m_pRenderTarget app1) eqn:Ht; [|exact H].
  cbv zeta. destruct (hrEndDraw host =? D2DERR_RECREATE_TARGET); [|exact H].
  left. reflexivity.
Qed.

Lemma brush_is_red_WndProcCore (host : Host) (message wParam lParam : Z) (app : App) :
  brush_is_red app -> brush_is_red (state (WndProcCore host message wParam lParam app)).
Proof.
  intros H. unfold WndProcCore.
  destruct (message =? WM_SIZE).
  { unfold bind. rewrite OnResize_eq.
    destruct (m_pRenderTarget app); exact H. }
  destruct (message =? WM_DISPLAYCHANGE); [exact H|].
  destruct (message =? WM_PAINT).
  { apply (brush_is_red_OnRender host) in H.
    unfold bind. destruct (OnRender host app) as [[hr a] t].
    destruct (SUCCEEDED hr); exact H. }
  destruct (message =? WM_DESTROY); exact H.
Qed.

Lemma brush_is_red_reachable (app : App) : reachable app -> brush_is_red app.
Proof.
  induction 1 as [f|sys app _ IH|host app _ IH|w h app _ IH|host m wp lp app _ IH|app _ IH].
  - left. reflexivity.
  - unfold brush_is_red in *. rewrite Initialize_eq.
    destruct (FAILED (hrD2D1CreateFactory sys)); [exact IH|]. cbv zeta.
    destruct (atomRegisterClassEx sys =? 0); [exact IH|].
    destruct (window_extent (desktopDpi sys)) as [w h].
    destruct (hwndCreateWindow sys); exact IH.
  - now apply brush_is_red_OnRender.
  - unfold brush_is_red in *. rewrite OnResize_eq.
    destruct (m_pRenderTarget app); exact IH.
  - now apply brush_is_red_WndProcCore.
  - left. rewrite App_dtor_eq. reflexivity.
Qed.

(** X10.  In every state the program reaches, every line of a redraw is
    drawn with the red brush, never a null one, 2 units wide and with no
    stroke style. *)
Theorem lines_are_red_and_two_wide (host : Host) (app : App) :
  reachable app ->
  forall p0 p1 brush strokeWidth strokeStyle,
    In (DrawLine p0 p1 brush strokeWidth strokeStyle) (trace (OnRender host app)) ->
    brush = Some red_brush /\ strokeWidth = 2%float /\ strokeStyle = None.
Proof.
  intros Hreach p0 p1 brush sw st Hin.
  pose proof (brush_is_red_CreateDeviceResources host app (brush_is_red_reachable app Hreach))
    as Hred.
  destruct (FAILED (result (CreateDeviceResources host app))) eqn:Hf.
  { exfalso. rewrite OnRender_eq in Hin.
    pose proof (CreateDeviceResources_trace host app) as Hc.
    destruct (CreateDeviceResources host app) as [[hr app1] t1].
    unfold result, trace in *; cbn [fst snd] in *. rewrite Hf in Hin. cbn [snd] in Hin.
    rewrite forallb_forall in Hc. apply Hc in Hin. discriminate. }
  destruct (OnRender_trace host app Hf) as (rt & br & Ht & Hb & Htr & _).
  unfold brush_is_red in Hred. rewrite Hb in Hred.
  destruct Hred as [Hred|Hred]; [discriminate|]. injection Hred as ->.
  rewrite Htr, frame_segments in Hin.
  apply in_app_or in Hin as [Hin | Hin].
  { pose proof (CreateDeviceResources_trace host app) as Hc.
    rewrite forallb_forall in Hc. apply Hc in Hin. discriminate. }
  apply in_app_or in Hin as [Hin | Hin].
  2:{ destruct (hrEndDraw host =? D2DERR_RECREATE_TARGET); cbn in Hin;
      intuition discriminate. }
  apply in_app_or in Hin as [Hin | Hin].
  { cbn in Hin. intuition discriminate. }
  apply in_app_or in Hin as [Hin | Hin].
  2:{ cbn in Hin. intuition discriminate. }
  apply in_flat_map in Hin as (x & Hx & Hseg).
  cbn in Hseg. destruct Hseg as [H | [H | []]]; [discriminate|].
  injection H as _ _ <- <- <-. auto.
Qed.

(** The theorem at work: the first line of the first redraw. *)
Lemma lines_are_red_and_two_wide_witness :
  reachable (App_ctor line_function)
  /\ exists p0 p1,
       In (DrawLine p0 p1 (Some red_brush) 2%float None)
          (trace (OnRender (obliging_host (SizeU 2 2)) (App_ctor line_function))).
Proof.
  assert (H : reachable (App_ctor line_function)) by apply reachable_ctor.
  split; [exact H|].
  assert (Hin : exists p0 p1 brush sw st,
             In (DrawLine p0 p1 brush sw st)
                (trace (OnRender (obliging_host (SizeU 2 2)) (App_ctor line_function)))).
  { let v := eval vm_compute in
        (trace (OnRender (obliging_host (SizeU 2 2)) (App_ctor line_function))) in
    assert (E : trace (OnRender (obliging_host (SizeU 2 2)) (App_ctor line_function)) = v)
      by (vm_compute; reflexivity).
    rewrite E. do 5 eexists. cbn [In]. do 7 right. left. reflexivity. }
  destruct Hin as (p0 & p1 & brush & sw & st & Hin).
  destruct (lines_are_red_and_two_wide (obliging_host (SizeU 2 2)) _ H _ _ _ _ _ Hin)
    as (-> & -> & ->).
  exists p0, p1. exact Hin.
Defined.

(** ** Sequences of window messages *)

Lemma deliver_log_trace (ms : list Message) (app : App) :
  map snd (deliver_log ms app) = trace (deliver ms app).
Proof.
  revert app; induction ms as [|m ms IH]; intros app; [reflexivity|].
  cbn [deliver_log deliver]. unfold bind.
  rewrite map_app, map_map, IH. cbn [snd]. rewrite map_id.
  unfold trace, state.
  destruct (handle m app) as [[r a] t]. cbn [fst snd].
  destruct (deliver ms a) as [[u a'] t']. reflexivity.
Qed.

Lemma deliver_cons (m : Message) (ms : list Message) (app : App) :
  trace (deliver (m :: ms) app)
  = trace (handle m app) ++ trace (deliver ms (state (handle m app)))
  /\ state (deliver (m :: ms) app) = state (deliver ms (state (handle m app))).
Proof.
  cbn [deliver]. unfold bind, trace, state.
  destruct (handle m app) as [[r a] t]. cbn [fst snd].
  destruct (deliver ms a) as [[u a'] t']. split; reflexivity.
Qed.

Lemma follows_protocol_app (b : bool) (t1 t2 : list Call) :
  follows_protocol b (t1 ++ t2)
  = match follows_protocol b t1 with
    | Some b' => follows_protocol b' t2
    | None => None
    end.
Proof.
  revert b; induction t1 as [|c t1 IH]; intros b; [reflexivity|].
  cbn [List.app follows_protocol]. destruct c, b; try reflexivity; apply IH.
Qed.

Lemma segments_inside (f : InputFunction) (size : D2D1_SIZE_F)
  (brush : option ID2D1SolidColorBrush) (l : list Z) :
  follows_protocol true (flat_map (segment f size brush) l) = Some true.
Proof. induction l as [|c l IH]; [reflexivity | exact IH]. Qed.

Lemma frame_protocol (f : InputFunction) (size : D2D1_SIZE_F)
  (brush : option ID2D1SolidColorBrush) :
  follows_protocol false (frame f size brush) = Some false.
Proof.
  rewrite frame_segments. cbn [List.app follows_protocol].
  now rewrite follows_protocol_app, segments_inside.
Qed.

Lemma creation_protocol (t : list Call) :
  forallb is_creation t = true -> follows_protocol false t = Some false.
Proof.
  induction t as [|c t IH]; [reflexivity|]. cbn [forallb]. intros H.
  apply andb_true_iff in H as [Hc Ht]. destruct c; try discriminate Hc; exact (IH Ht).
Qed.

Lemma OnRender_protocol (host : Host) (app : App) :
  follows_protocol false (trace (OnRender host app)) = Some false.
Proof.
  rewrite OnRender_eq.
  pose proof (CreateDeviceResources_trace host app) as Hc.
  apply creation_protocol in Hc.
  destruct (CreateDeviceResources host app) as [[hr app1] t1].
  unfold trace in *; cbn [snd] in *.
  destruct (FAILED hr); [exact Hc|].
  destruct (m_pRenderTarget app1); [|exact Hc].
  cbv zeta. destruct (hrEndDraw host =? D2DERR_RECREATE_TARGET); cbn [snd];
    rewrite follows_protocol_app, Hc.
  - rewrite follows_protocol_app, frame_protocol.
    destruct (m_pGraphLineBrush app1); reflexivity.
  - apply frame_protocol.
Qed.

Lemma handle_protocol (m : Message) (app : App) :
  follows_protocol false (trace (handle m app)) = Some false.
Proof.
  unfold handle, WndProcCore.
  destruct (msg_message m =? WM_SIZE).
  { unfold bind. rewrite OnResize_eq. now destruct (m_pRenderTarget app). }
  destruct (msg_message m =? WM_DISPLAYCHANGE); [reflexivity|].
  destruct (msg_message m =? WM_PAINT).
  { unfold bind. pose proof (OnRender_protocol (msg_host m) app) as H.
    destruct (OnRender (msg_host m) app) as [[hr a] t].
    unfold trace in *; cbn [snd] in *.
    destruct (SUCCEEDED hr); cbn [call ret snd List.app];
      now rewrite follows_protocol_app, H. }
  destruct (msg_message m =? WM_DESTROY); reflexivity.
Qed.

(** X11.  Whatever messages arrive, in whatever order and with whatever
    answers from Direct2D, the calls the program makes follow the drawing
    protocol: every [BeginDraw] is closed by its [EndDraw] before the
    next one and before the message is done; the transform, the clear
    and the lines occur inside a frame only; creation, [Resize] and
    [Release] occur outside a frame only. *)
Theorem messages_follow_the_drawing_protocol (ms : list Message) (app : App) :
  follows_protocol false (trace (deliver ms app)) = Some false.
Proof.
  revert app; induction ms as [|m ms IH]; intros app; [reflexivity|].
  destruct (deliver_cons m ms app) as [-> _].
  now rewrite follows_protocol_app, handle_protocol.
Qed.

(** *** Every resource created is released once *)

Lemma count_app {A : Type} (p : A -> bool) (l1 l2 : list A) :
  count p (l1 ++ l2) = (count p l1 + count p l2)%nat.
Proof. unfold count. now rewrite filter_app, length_app. Qed.

Lemma count_none {A : Type} (p q : A -> bool) (l : list A) :
  forallb q l = true -> (forall a, q a = true -> p a = false) -> count p l = O.
Proof. intros Hq Hpq. unfold count. now rewrite (filter_none p q l Hq Hpq). Qed.

Lemma count_map {A B : Type} (p : B -> bool) (g : A -> B) (l : list A) :
  count p (map g l) = count (fun a => p (g a)) l.
Proof.
  unfold count. induction l as [|a l IH]; [reflexivity|].
  cbn [map filter]. destruct (p (g a)); cbn [length]; now rewrite IH.
Qed.

(** The calls of a frame: drawing and sampling. *)
Lemma frame_calls (f : InputFunction) (size : D2D1_SIZE_F)
  (brush : option ID2D1SolidColorBrush) :
  forallb (fun c => is_draw_call c || is_Eval_func c) (frame f size brush) = true.
Proof.
  rewrite frame_segments. cbn [List.app forallb is_draw_call is_Eval_func orb andb].
  rewrite forallb_app. cbn [forallb is_draw_call orb andb]. rewrite andb_true_r.
  induction (columns 1 _) as [|c l IH]; [reflexivity | exact IH].
Qed.

Lemma frame_count (p : Call -> bool) (f : InputFunction) (size : D2D1_SIZE_F)
  (brush : option ID2D1SolidColorBrush) :
  (forall c, is_draw_call c || is_Eval_func c = true -> p c = false) ->
  count p (frame f size brush) = O.
Proof. intros H. exact (count_none p _ _ (frame_calls f size brush) H). Qed.

Lemma balance_of_app (host : Host) (t1 t2 : list Call) :
  balance_of host (t1 ++ t2) = add_balance (balance_of host t1) (balance_of host t2).
Proof. unfold balance_of, add_balance. now rewrite map_app, !count_app. Qed.

Lemma balance_of_frame (host : Host) (f : InputFunction) (size : D2D1_SIZE_F)
  (brush : option ID2D1SolidColorBrush) :
  balance_of host (frame f size brush) = (O, O, (O, O, O)).
Proof.
  unfold balance_of. rewrite !count_map.
  rewrite !frame_count by (intros c; destruct c; cbn; congruence). reflexivity.
Qed.

(** Resource creation releases nothing and caches what it creates. *)
Lemma CreateDeviceResources_balance (host : Host) (app : App) :
  let r := CreateDeviceResources host app in
  balance_of host (trace r)
  = ((cached (m_pRenderTarget (state r)) - cached (m_pRenderTarget app))%nat,
     (cached (m_pGraphLineBrush (state r)) - cached (m_pGraphLineBrush app))%nat,
     (O, O, O))
  /\ (cached (m_pRenderTarget app) <= cached (m_pRenderTarget (state r)))%nat
  /\ (cached (m_pGraphLineBrush app) <= cached (m_pGraphLineBrush (state r)))%nat
  /\ m_pDirect2dFactory (state r) = m_pDirect2dFactory app.
Proof.
  cbv zeta. rewrite CreateDeviceResources_eq. unfold balance_of, count.
  destruct (m_pRenderTarget app) as [rt|] eqn:Ht,
           (m_pGraphLineBrush app) as [br|] eqn:Hb; cbv zeta;
    destruct (FAILED (hrCreateHwndRenderTarget host)) eqn:E1,
             (FAILED (hrCreateSolidColorBrush host)) eqn:E2;
    unfold trace, state;
    cbn [fst snd map filter target_created brush_created is_Release_of length
         m_pRenderTarget m_pGraphLineBrush set_pRenderTarget set_pGraphLineBrush
         m_pDirect2dFactory cached];
    rewrite ?E1, ?E2, ?Ht, ?Hb; cbn [negb length cached Nat.sub];
    repeat split; lia.
Qed.

Lemma balance_of_release {I : Type} (host : Host) (r : Resource) (o : option I) :
  balance_of host (snd (SafeRelease r o))
  = (O, O, match r with
           | Direct2dFactory => (cached o, O, O)
           | RenderTarget => (O, cached o, O)
           | GraphLineBrush => (O, O, cached o)
           end).
Proof. destruct r, o; reflexivity. Qed.

(** A redraw keeps the balance of each resource. *)
Lemma OnRender_balance (host : Host) (app : App) :
  let r := OnRender host app in
  exists a b d e,
    balance_of host (trace r) = (a, b, (O, d, e))
    /\ (a + cached (m_pRenderTarget app) = d + cached (m_pRenderTarget (state r)))%nat
    /\ (b + cached (m_pGraphLineBrush app) = e + cached (m_pGraphLineBrush (state r)))%nat
    /\ m_pDirect2dFactory (state r) = m_pDirect2dFactory app.
Proof.
  cbv zeta. rewrite OnRender_eq.
  destruct (CreateDeviceResources_balance host app) as (H & Ht & Hb & Hf).
  cbv zeta in H.
  destruct (CreateDeviceResources host app) as [[hr app1] t1].
  unfold trace, state in *; cbn [fst snd] in *.
  destruct (FAILED hr);
    [cbn [fst snd]; rewrite H; do 4 eexists; repeat split; [lia | lia | exact Hf]|].
  destruct (m_pRenderTarget app1) as [rt|] eqn:Hrt;
    [|cbn [fst snd]; rewrite H, Hrt; do 4 eexists; repeat split;
      [cbn [cached] in *; lia | lia | exact Hf]].
  cbv zeta. destruct (hrEndDraw host =? D2DERR_RECREATE_TARGET); cbn [fst snd].
  - rewrite !balance_of_app, H. rewrite (balance_of_frame host).
    rewrite !balance_of_release.
    cbn [add_balance m_pRenderTarget m_pGraphLineBrush set_pRenderTarget set_pGraphLineBrush
         m_pDirect2dFactory cached].
    do 4 eexists. split; [reflexivity|]. cbn [cached] in *.
    repeat split; [lia | lia | exact Hf].
  - rewrite balance_of_app, H. rewrite (balance_of_frame host).
    cbn [add_balance]. do 4 eexists. split; [reflexivity|]. rewrite Hrt.
    cbn [cached] in *. repeat split; [lia | lia | exact Hf].
Qed.

(** One message keeps the balance of each resource: what it creates and
    what was cached is what it releases and what stays cached. *)
Lemma handle_balance (m : Message) (app : App) :
  let log := map (pair (msg_host m)) (trace (handle m app)) in
  (count target_created log + cached (m_pRenderTarget app)
   = count (is_Release_of RenderTarget) (trace (handle m app))
     + cached (m_pRenderTarget (state (handle m app))))%nat
  /\ (count brush_created log + cached (m_pGraphLineBrush app)
      = count (is_Release_of GraphLineBrush) (trace (handle m app))
        + cached (m_pGraphLineBrush (state (handle m app))))%nat
  /\ count (is_Release_of Direct2dFactory) (trace (handle m app)) = O
  /\ m_pDirect2dFactory (state (handle m app)) = m_pDirect2dFactory app.
Proof.
  cbv zeta. unfold handle.
  destruct (Z.eqb_spec (msg_message m) WM_PAINT) as [Hp|Hp].
  { rewrite Hp, WndProcCore_WM_PAINT.
    destruct (OnRender_balance (msg_host m) app) as (a & b & d & e & H & H1 & H2 & H3).
    cbv zeta in H.
    set (R := OnRender (msg_host m) app) in *.
    set (last := if SUCCEEDED (result R) then ValidateRect
                 else WriteToDebugConsole (result R)).
    change (trace (0, state R, trace R ++ [last])) with (trace R ++ [last]).
    change (state (0, state R, trace R ++ [last])) with (state R).
    unfold balance_of in H. injection H as Ha Hb Hc Hd He.
    rewrite map_app, !count_app, Ha, Hb, Hc, Hd, He.
    assert (Hl : count target_created (map (pair (msg_host m)) [last]) = O
                 /\ count brush_created (map (pair (msg_host m)) [last]) = O
                 /\ count (is_Release_of RenderTarget) [last] = O
                 /\ count (is_Release_of GraphLineBrush) [last] = O
                 /\ count (is_Release_of Direct2dFactory) [last] = O).
    { unfold last. destruct (SUCCEEDED (result R)); repeat split; reflexivity. }
    destruct Hl as (-> & -> & -> & -> & ->).
    repeat split; try lia; exact H3. }
  unfold WndProcCore.
  destruct (msg_message m =? WM_SIZE).
  { unfold bind. rewrite OnResize_eq.
    destruct (m_pRenderTarget app) eqn:Ht; unfold trace, state, count; cbn; rewrite ?Ht;
      repeat split; reflexivity. }
  destruct (msg_message m =? WM_DISPLAYCHANGE);
    [unfold trace, state, count; cbn; repeat split; lia|].
  replace (msg_message m =? WM_PAINT) with false by (symmetry; now apply Z.eqb_neq).
  destruct (msg_message m =? WM_DESTROY); unfold trace, state, count; cbn;
    repeat split; lia.
Qed.

Lemma deliver_balance (ms : list Message) (app : App) :
  (count target_created (deliver_log ms app) + cached (m_pRenderTarget app)
   = count (is_Release_of RenderTarget) (trace (deliver ms app))
     + cached (m_pRenderTarget (state (deliver ms app))))%nat
  /\ (count brush_created (deliver_log ms app) + cached (m_pGraphLineBrush app)
      = count (is_Release_of GraphLineBrush) (trace (deliver ms app))
        + cached (m_pGraphLineBrush (state (deliver ms app))))%nat
  /\ count (is_Release_of Direct2dFactory) (trace (deliver ms app)) = O
  /\ m_pDirect2dFactory (state (deliver ms app)) = m_pDirect2dFactory app.
Proof.
  revert app; induction ms as [|m ms IH]; intros app.
  - unfold trace, state; cbn. repeat split; lia.
  - destruct (deliver_cons m ms app) as [-> ->]. cbn [deliver_log].
    rewrite !count_app.
    destruct (handle_balance m app) as (H1 & H2 & H3 & H4). cbv zeta in H1, H2.
    destruct (IH (state (handle m app))) as (I1 & I2 & I3 & I4).
    rewrite H3, I3, I4, H4. repeat split; lia.
Qed.

(** X12.  No resource leaks and none is released twice.  From the
    constructor, through [Initialize], any window messages with any
    answers from Direct2D, to the destructor: the render target is
    released exactly as often as it was created, and so is the brush;
    the factory is released once when it was created and never
    otherwise, and only by the destructor; in the end the three pointers
    are null. *)
Theorem every_resource_is_released_once
  (f : InputFunction) (sys : Startup) (ms : list Message) :
  let app1 := state (Initialize sys (App_ctor f)) in
  let app2 := state (deliver ms app1) in
  let calls := trace (deliver ms app1) ++ trace (App_dtor app2) in
  count target_created (deliver_log ms app1) = count (is_Release_of RenderTarget) calls
  /\ count brush_created (deliver_log ms app1) = count (is_Release_of GraphLineBrush) calls
  /\ count (is_Release_of Direct2dFactory) calls
     = (if FAILED (hrD2D1CreateFactory sys) then O else 1%nat)
  /\ count (is_Release_of Direct2dFactory) (trace (deliver ms app1)) = O
  /\ count is_Release (trace (Initialize sys (App_ctor f))) = O
  /\ m_pDirect2dFactory (state (App_dtor app2)) = None
  /\ m_pRenderTarget (state (App_dtor app2)) = None
  /\ m_pGraphLineBrush (state (App_dtor app2)) = None.
Proof.
  cbv zeta.
  destruct (deliver_balance ms (state (Initialize sys (App_ctor f))))
    as (H1 & H2 & H3 & H4).
  assert (Hi : m_pRenderTarget (state (Initialize sys (App_ctor f))) = None
               /\ m_pGraphLineBrush (state (Initialize sys (App_ctor f))) = None
               /\ cached (m_pDirect2dFactory (state (Initialize sys (App_ctor f))))
                  = (if FAILED (hrD2D1CreateFactory sys) then O else 1%nat)
               /\ count is_Release (trace (Initialize sys (App_ctor f))) = O).
  { rewrite Initialize_eq.
    destruct (FAILED (hrD2D1CreateFactory sys)); [unfold state, trace; cbn; auto|].
    cbv zeta. destruct (atomRegisterClassEx sys =? 0); [unfold state, trace; cbn; auto|].
    destruct (window_extent (desktopDpi sys)) as [w h].
    destruct (hwndCreateWindow sys); unfold state, trace; cbn; auto. }
  destruct Hi as (Ht & Hb & Hfa & Hrel).
  rewrite Ht, Hb in *. cbn [cached] in H1, H2.
  set (app1 := state (Initialize sys (App_ctor f))) in *.
  set (app2 := state (deliver ms app1)) in *.
  assert (Hc : forall (I : Type) (r r' : Resource) (o : option I),
             count (is_Release_of r) (release_of r' o)
             = match r, r' with
               | Direct2dFactory, Direct2dFactory
               | RenderTarget, RenderTarget
               | GraphLineBrush, GraphLineBrush => cached o
               | _, _ => O
               end).
  { intros I r r' o. destruct r, r', o; reflexivity. }
  rewrite !count_app, H3, App_dtor_trace, !count_app, !Hc, H4, Hfa.
  destruct (App_dtor_state app2) as (-> & -> & -> & _).
  repeat split; try reflexivity; try lia; exact Hrel.
Qed.

(** ** The message loop: [App::Run] *)

Lemma Run_app (before rest : list (Z * MSG.t)) :
  (forall a, In a before -> fst a <> 0) ->
  Run (before ++ rest)
  = match Run rest with
    | Some (code, t) => Some (code, flat_map pump before ++ t)
    | None => None
    end.
Proof.
  induction before as [|[b msg] before IH]; intros H.
  - cbn. destruct (Run rest) as [[code t]|]; reflexivity.
  - cbn [List.app Run flat_map pump snd].
    pose proof (H (b, msg) (or_introl eq_refl)) as Hb. cbn [fst] in Hb.
    replace (b =? 0) with false by (symmetry; now apply Z.eqb_neq).
    rewrite IH by (intros a Ha; apply H; now right).
    destruct (Run rest) as [[code t]|]; reflexivity.
Qed.

Lemma int_of_WPARAM_int (code w : Z) :
  INT_MIN <= code <= INT_MAX -> w mod 2 ^ 32 = code mod 2 ^ 32 ->
  int_of_WPARAM w = code.
Proof.
  unfold INT_MIN, INT_MAX, int_of_WPARAM. intros Hc Hw. cbv zeta. rewrite Hw.
  change (2 ^ 32) with 4294967296. change (2 ^ 31) with 2147483648.
  destruct (Z_lt_ge_dec code 0) as [Hneg|Hpos].
  - assert (E : code mod 4294967296 = code + 4294967296).
    { symmetry. apply (Z.mod_unique_pos _ _ (-1)); lia. }
    rewrite E. replace (code + 4294967296 <? 2147483648) with false
      by (symmetry; apply Z.ltb_ge; lia). lia.
  - rewrite Z.mod_small by lia.
    now replace (code <? 2147483648) with true by (symmetry; apply Z.ltb_lt; lia).
Qed.

(** X13.  [Run] ends at the first answer of [GetMessage] that is zero,
    and only there: up to it, every message is translated and then
    dispatched, once and in the order received, also one that comes with
    the error answer -1; the messages before it never end the loop.
    [Run] returns the [wParam] of that last message as an [int]: an exit
    code within the range of [int] comes back unchanged. *)
Theorem Run_ends_at_the_first_quit
  (before after : list (Z * MSG.t)) (quit : MSG.t) :
  (forall a, In a before -> fst a <> 0) ->
  Run (before ++ (0, quit) :: after)
  = Some (int_of_WPARAM (MSG.wParam quit), flat_map pump before ++ [GetMessage])
  /\ Run before = None
  /\ INT_MIN <= int_of_WPARAM (MSG.wParam quit) <= INT_MAX
  /\ (forall code,
        INT_MIN <= code <= INT_MAX ->
        MSG.wParam quit mod 2 ^ 32 = code mod 2 ^ 32 ->
        int_of_WPARAM (MSG.wParam quit) = code).
Proof.
  intros H. split; [|split; [|split]].
  - rewrite (Run_app before _ H). reflexivity.
  - rewrite <- (app_nil_r before). rewrite (Run_app before [] H). reflexivity.
  - unfold int_of_WPARAM, INT_MIN, INT_MAX. cbv zeta.
    pose proof (Z.mod_pos_bound (MSG.wParam quit) (2 ^ 32) ltac:(reflexivity)) as Hm.
    change (2 ^ 32) with 4294967296 in *. change (2 ^ 31) with 2147483648.
    destruct (Z.ltb_spec (MSG.wParam quit mod 4294967296) 2147483648); lia.
  - intros code Hc Hw. now apply int_of_WPARAM_int.
Qed.

(** The theorem at work: a key press, an answer of -1, then the quit
    message that [PostQuitMessage(0)] posts. *)
Lemma Run_ends_at_the_first_quit_witness :
  Run [(1, MSG.mk (Some 7) 256 65 0); (-1, MSG.mk None 0 0 0);
       (0, MSG.mk None 18 0 0); (1, MSG.mk (Some 7) 15 0 0)]
  = Some (0, [GetMessage; TranslateMessage (MSG.mk (Some 7) 256 65 0);
              DispatchMessage (MSG.mk (Some 7) 256 65 0);
              GetMessage; TranslateMessage (MSG.mk None 0 0 0);
              DispatchMessage (MSG.mk None 0 0 0);
              GetMessage]).
Proof.
  refine (proj1 (Run_ends_at_the_first_quit
                   [(1, MSG.mk (Some 7) 256 65 0); (-1, MSG.mk None 0 0 0)]
                   [(1, MSG.mk (Some 7) 15 0 0)] (MSG.mk None 18 0 0) _)).
  intros a [<-|[<-|[]]]; discriminate.
Defined.

(** ** The window procedure of the class: [App::WndProc] *)

Lemma WndProc_WM_CREATE (host : Host) (lpCreateParams userData : bool)
  (wParam lParam : Z) (app : App) :
  WndProc host lpCreateParams WM_CREATE wParam lParam userData app
  = ((1, lpCreateParams), app, []).
Proof. reflexivity. Qed.

Lemma WndProc_other (host : Host) (lpCreateParams userData : bool)
  (message wParam lParam : Z) (app : App) :
  message <> WM_CREATE ->
  WndProc host lpCreateParams message wParam lParam userData app
  = if userData
    then ((result (WndProcCore host message wParam lParam app), true),
          state (WndProcCore host message wParam lParam app),
          trace (WndProcCore host message wParam lParam app))
    else ((lrDefWindowProc host, false), app, [DefWindowProc message]).
Proof.
  intros Hm. unfold WndProc.
  replace (message =? WM_CREATE) with false by (symmetry; now apply Z.eqb_neq).
  destruct userData; [|reflexivity].
  unfold bind, ret, result, state, trace.
  destruct (WndProcCore host message wParam lParam app) as [[r a] t].
  cbn [fst snd]. now rewrite app_nil_r.
Qed.

(** X14.  Until a window has handled [WM_CREATE], [WndProc] hands every
    message to [DefWindowProc] and the object is not touched.
    [WM_CREATE] is answered with 1 and never forwarded; it stores the
    address it carries.  Once the address of the object is stored, every
    other message is handled by [WndProcCore], with the same calls and
    the same effect on the object. *)
Theorem WndProc_forwards_once_created (ms : list Sent) (app : App) :
  (forall s, In s ms -> msg_message (sent_msg s) <> WM_CREATE) ->
  window ms false app
  = (false, app, map (fun s => DefWindowProc (msg_message (sent_msg s))) ms)
  /\ window ms true app
     = (true, state (deliver (map sent_msg ms) app), trace (deliver (map sent_msg ms) app))
  /\ (forall host lpCreateParams userData wParam lParam,
        WndProc host lpCreateParams WM_CREATE wParam lParam userData app
        = ((1, lpCreateParams), app, [])).
Proof.
  intros H. split; [|split].
  - revert app; induction ms as [|s ms IH]; intros app; [reflexivity|].
    cbn [window map]. unfold bind at 1.
    rewrite WndProc_other by (apply H; now left). cbn [snd].
    rewrite IH by (intros s' Hs'; apply H; now right). reflexivity.
  - revert app; induction ms as [|s ms IH]; intros app; [reflexivity|].
    cbn [window map]. unfold bind at 1.
    rewrite WndProc_other by (apply H; now left). cbn [snd].
    rewrite IH by (intros s' Hs'; apply H; now right).
    destruct (deliver_cons (sent_msg s) (map sent_msg ms) app) as [-> ->].
    reflexivity.
  - intros. apply WndProc_WM_CREATE.
Qed.

(** The theorem at work: a size message before and after [WM_CREATE]. *)
Lemma WndProc_forwards_once_created_witness :
  window [{| sent_lpCreateParams := false;
             sent_msg := {| msg_host := obliging_host (SizeU 640 480);
                            msg_message := WM_SIZE; msg_wParam := 0;
                            msg_lParam := MAKELPARAM 640 480 |} |}]
    false (App_ctor line_function)
  = (false, App_ctor line_function, [DefWindowProc WM_SIZE]).
Proof.
  refine (proj1 (WndProc_forwards_once_created
                   [{| sent_lpCreateParams := false;
                       sent_msg := {| msg_host := obliging_host (SizeU 640 480);
                                      msg_message := WM_SIZE; msg_wParam := 0;
                                      msg_lParam := MAKELPARAM 640 480 |} |}]
                   (App_ctor line_function) _)).
  intros s [<-|[]]. discriminate.
Defined.

(** ** The program: [wWinMain] *)

(** X15.  [wWinMain] returns 1 when COM or the application fails to
    start, and what [Run] returns otherwise.  When [CoInitialize] fails
    nothing else is called: no object is built, and [CoUninitialize] is
    not called.  When it succeeds, [CoUninitialize] is called exactly
    once, after the message loop if there was one, and the destructor's
    releases come after it.  When [Initialize] fails the loop is never
    entered, and the factory it may have created is still released. *)
Theorem wWinMain_exit_code_and_cleanup
  (hrCoInitialize : HRESULT) (sin : double -> double) (sys : Startup) (run : Op Z) :
  let init := Initialize sys (App_ctor (CreateInputFunction sin)) in
  let r := wWinMain hrCoInitialize sin sys run in
  (SUCCEEDED hrCoInitialize = false -> r = (1, [CoInitialize]))
  /\ (SUCCEEDED hrCoInitialize = true -> SUCCEEDED (result init) = false ->
      r = (1,
           CoInitialize :: map InApp (trace init)
             ++ CoUninitialize
             :: map InApp (if FAILED (hrD2D1CreateFactory sys) then []
                           else [Release Direct2dFactory])))
  /\ (SUCCEEDED hrCoInitialize = true -> SUCCEEDED (result init) = true ->
      r = (result (run (state init)),
           CoInitialize :: map InApp (trace init)
             ++ map InApp (trace (run (state init)))
             ++ CoUninitialize
             :: map InApp (trace (App_dtor (state (run (state init)))))))
  /\ count (fun c => match c with CoUninitialize => true | _ => false end) (snd r)
     = (if SUCCEEDED hrCoInitialize then 1%nat else O).
Proof.
  unfold wWinMain. cbv zeta.
  destruct (SUCCEEDED hrCoInitialize) eqn:Hco.
  2:{ repeat split; try discriminate; reflexivity. }
  assert (Hcount : forall t, count (fun c => match c with CoUninitialize => true | _ => false end)
                               (map InApp t) = O).
  { intros t. rewrite count_map. unfold count.
    induction t as [|c t IH]; [reflexivity | exact IH]. }
  split; [discriminate|].
  pose proof (Initialize_eq sys (App_ctor (CreateInputFunction sin))) as Hi.
  destruct (Initialize sys (App_ctor (CreateInputFunction sin))) as [[hr app1] t1] eqn:Ei.
  unfold result, state, trace; cbn [fst snd].
  destruct (SUCCEEDED hr) eqn:Hs.
  - split; [discriminate|]. split.
    + intros _ _. destruct (run app1) as [[code app2] t2]. cbn [fst snd].
      destruct (App_dtor app2) as [[u a] t3]. reflexivity.
    + destruct (run app1) as [[code app2] t2].
      destruct (App_dtor app2) as [[u a] t3]. cbn [snd].
      change (count ?p (CoInitialize :: ?l)) with (count p l).
      rewrite !count_app, !Hcount.
      change (count ?p (CoUninitialize :: ?l)) with (S (count p l)).
      now rewrite Hcount.
  - split; [|split; [discriminate|]].
    + intros _ _. rewrite App_dtor_eq.
      assert (Hf : release_of Direct2dFactory (m_pDirect2dFactory app1)
                     ++ release_of RenderTarget (m_pRenderTarget app1)
                     ++ release_of GraphLineBrush (m_pGraphLineBrush app1)
                   = if FAILED (hrD2D1CreateFactory sys) then []
                     else [Release Direct2dFactory]).
      { destruct (FAILED (hrD2D1CreateFactory sys));
          [injection Hi as _ -> _; reflexivity|].
        cbv zeta in Hi. destruct (atomRegisterClassEx sys =? 0);
          [injection Hi as _ -> _; reflexivity|].
        destruct (window_extent (desktopDpi sys)) as [w h].
        destruct (hwndCreateWindow sys); injection Hi as E1 E2 E3;
          subst app1; [|reflexivity].
        subst hr. discriminate Hs. }
      rewrite Hf. reflexivity.
    + destruct (App_dtor app1) as [[u a] t3]. cbn [snd].
      change (count ?p (CoInitialize :: ?l)) with (count p l).
      rewrite !count_app, !Hcount. cbn [map List.app].
      change (count ?p (CoUninitialize :: ?l)) with (S (count p l)).
      now rewrite Hcount.
Qed.

(** ** Text for the debug console: [WriteToDebugConsole], [ReportWin32Error] *)






(** ** The extent of the window *)

Lemma columns_In (n : nat) (x c : Z) :
  x <= c < x + Z.of_nat n -> In c (columns x n).
Proof.
  revert x; induction n as [|n IH]; intros x H; [lia|].
  cbn [columns]. destruct (Z.eq_dec c x) as [->|Hne]; [now left|].
  right. apply IH. lia.
Qed.

Lemma extent_scales_upto_960 : forallb extent_scales (columns 1 960) = true.
Proof. vm_compute. reflexivity. Qed.

(** X17.  [Initialize] asks for a window of 640 x 480 at 96 dots per
    inch and scales that with the desktop DPI: for every whole DPI up to
    960, ten times the default, the width is 640 * dpiX / 96 and the
    height 480 * dpiY / 96, each rounded down; at 120 DPI the window is
    800 x 600. *)
Theorem window_extent_scales_with_the_dpi (dx dy : Z) :
  1 <= dx <= 960 -> 1 <= dy <= 960 ->
  window_extent (whole_dpi dx, whole_dpi dy) = (640 * dx / 96, 480 * dy / 96)
  /\ forall sys app,
       desktopDpi sys = (whole_dpi dx, whole_dpi dy) ->
       SUCCEEDED (result (Initialize sys app)) = true ->
       In (CreateWindow (640 * dx / 96) (480 * dy / 96)) (trace (Initialize sys app)).
Proof.
  intros Hx Hy.
  pose proof extent_scales_upto_960 as H. rewrite forallb_forall in H.
  pose proof (H dx (columns_In 960 1 dx ltac:(lia))) as Hdx.
  pose proof (H dy (columns_In 960 1 dy ltac:(lia))) as Hdy.
  unfold extent_scales, window_extent in Hdx, Hdy.
  apply andb_true_iff in Hdx as [Hdx _]. apply andb_true_iff in Hdy as [_ Hdy].
  apply Z.eqb_eq in Hdx, Hdy.
  assert (He : window_extent (whole_dpi dx, whole_dpi dy)
               = (640 * dx / 96, 480 * dy / 96)).
  { unfold window_extent. now rewrite Hdx, Hdy. }
  split; [exact He|].
  intros sys app Hdpi Hs. rewrite Initialize_eq in Hs |- *.
  destruct (FAILED (hrD2D1CreateFactory sys)) eqn:Hf.
  { unfold result in Hs; cbn [fst] in Hs.
    unfold SUCCEEDED, FAILED in *. apply Z.ltb_lt in Hf. apply Z.leb_le in Hs. lia. }
  cbv zeta in Hs |- *. destruct (atomRegisterClassEx sys =? 0); [discriminate Hs|].
  rewrite Hdpi, He in *.
  destruct (hwndCreateWindow sys); [|discriminate Hs].
  unfold trace; cbn [snd]. cbn [In]. auto.
Qed.

(** The theorem at work: 120 dots per inch across, 144 down. *)
Lemma window_extent_scales_with_the_dpi_witness :
  window_extent (whole_dpi 120, whole_dpi 144) = (800, 720).
Proof.
  exact (proj1 (window_extent_scales_with_the_dpi 120 144 ltac:(lia) ltac:(lia))).
Defined.

(** ** A resize, then a redraw *)

Lemma segments_Eval_count (f : InputFunction) (size : D2D1_SIZE_F)
  (brush : option ID2D1SolidColorBrush) (l : list Z) :
  length (filter is_Eval_func (flat_map (segment f size brush) l)) = length l.
Proof. induction l as [|c l IH]; cbn; [reflexivity | now rewrite IH]. Qed.

Lemma count_DrawLine_frame (f : InputFunction) (size : D2D1_SIZE_F)
  (brush : option ID2D1SolidColorBrush) :
  count is_DrawLine (frame f size brush)
  = Z.to_nat (to_int (ceil (SIZE_F.width size)))
  /\ count is_Eval_func (frame f size brush)
     = S (Z.to_nat (to_int (ceil (SIZE_F.width size)))).
Proof.
  rewrite frame_segments. unfold count.
  cbn [List.app filter is_DrawLine is_Eval_func length].
  rewrite !filter_app. cbn [filter is_DrawLine is_Eval_func]. rewrite !app_nil_r.
  now rewrite segments_DrawLine_count, segments_Eval_count, columns_length.
Qed.

(** X18.  A [WM_SIZE] for the extent (w, h) followed by a [WM_PAINT], in
    a state with both resources cached: the redraw creates nothing,
    samples the function w + 1 times and draws exactly w lines, whatever
    the size was before, and the paint handler validates the window
    unless [EndDraw] failed. *)
Theorem resize_then_paint_draws_the_new_width
  (host1 host2 : Host) (app : App) (wParam1 wParam2 lParam2 w h : Z) :
  0 <= w < 65536 -> 0 <= h < 65536 ->
  Ready app ->
  let app1 := state (WndProcCore host1 WM_SIZE wParam1 (MAKELPARAM w h) app) in
  let r := WndProcCore host2 WM_PAINT wParam2 lParam2 app1 in
  count is_DrawLine (trace r) = Z.to_nat w
  /\ count is_Eval_func (trace r) = S (Z.to_nat w)
  /\ count is_creation (trace r) = O
  /\ result r = 0
  /\ (In ValidateRect (trace r) <-> FAILED (hrEndDraw host2) = false
                                     \/ hrEndDraw host2 = D2DERR_RECREATE_TARGET).
Proof.
  intros Hw Hh [Ht Hb]. cbv zeta.
  assert (Happ1 : state (WndProcCore host1 WM_SIZE wParam1 (MAKELPARAM w h) app)
                  = set_pRenderTarget
                      (Some {| rt_size := SizeF_of_SizeU (SizeU w h) |}) app).
  { unfold WndProcCore. change (WM_SIZE =? WM_SIZE) with true. cbv iota.
    rewrite LOWORD_MAKELPARAM, HIWORD_MAKELPARAM by assumption.
    unfold bind. rewrite OnResize_eq.
    destruct (m_pRenderTarget app); [reflexivity | congruence]. }
  rewrite Happ1. set (app1 := set_pRenderTarget _ app).
  assert (HR : Ready app1) by (split; [discriminate | exact Hb]).
  rewrite WndProcCore_WM_PAINT.
  pose proof (Ready_reaches_drawing host2 app1 HR) as Hr.
  destruct (OnRender_trace host2 app1 Hr) as (rt & br & Hrt & Hbr & Htr & Hres & _).
  rewrite (CreateDeviceResources_Ready host2 app1 HR) in Hrt, Htr.
  change (state (S_OK, app1, [])) with app1 in Hrt.
  change (trace (S_OK, app1, [])) with (@nil Call) in Htr.
  cbn [List.app] in Htr. injection Hrt as <-.
  set (R := OnRender host2 app1) in *.
  set (last := if SUCCEEDED (result R) then ValidateRect
               else WriteToDebugConsole (result R)).
  change (trace (0, state R, trace R ++ [last])) with (trace R ++ [last]).
  change (result (0, state R, trace R ++ [last])) with 0.
  assert (Hmax : to_int (ceil (SIZE_F.width
                    (GetSize {| rt_size := SizeF_of_SizeU (SizeU w h) |}))) = w).
  { unfold GetSize, SizeF_of_SizeU, FLOAT_of_UINT32.
    cbn [rt_size SIZE_F.width SIZE_U.width SizeU SizeF].
    assert (Hew : exact_in_FLOAT w) by (unfold exact_in_FLOAT; lia).
    now rewrite to_FLOAT_of_Z, ceil_of_Z, to_int_of_Z. }
  destruct (count_DrawLine_frame (m_inputFunction app1)
              (GetSize {| rt_size := SizeF_of_SizeU (SizeU w h) |}) (Some br))
    as [Hl He].
  rewrite Hmax in Hl, He.
  pose proof (frame_count is_creation (m_inputFunction app1)
                (GetSize {| rt_size := SizeF_of_SizeU (SizeU w h) |}) (Some br)
                ltac:(intros c; destruct c; cbn; congruence)) as Hc.
  pose proof (frame_calls (m_inputFunction app1)
                (GetSize {| rt_size := SizeF_of_SizeU (SizeU w h) |}) (Some br)) as Hfc.
  rewrite forallb_forall in Hfc.
  set (F := frame (m_inputFunction app1)
              (GetSize {| rt_size := SizeF_of_SizeU (SizeU w h) |}) (Some br)) in *.
  unfold last. clear last. rewrite Htr, Hres.
  destruct (Z.eqb_spec (hrEndDraw host2) D2DERR_RECREATE_TARGET) as [Hst|Hst].
  - change (SUCCEEDED S_OK) with true. cbv iota.
    rewrite !count_app, Hl, He, Hc.
    split; [unfold count; cbn; lia|]. split; [unfold count; cbn; lia|].
    split; [unfold count; cbn; lia|]. split; [reflexivity|].
    split; [intros _; now right|].
    intros _. apply in_or_app. right. now left.
  - rewrite app_nil_r, !count_app, Hl, He, Hc.
    destruct (SUCCEEDED (hrEndDraw host2)) eqn:Hs.
    + split; [unfold count; cbn; lia|]. split; [unfold count; cbn; lia|].
      split; [unfold count; cbn; lia|]. split; [reflexivity|].
      split; [intros _; left | intros _; apply in_or_app; right; now left].
      unfold SUCCEEDED, FAILED in *. apply Z.leb_le in Hs. apply Z.ltb_ge. lia.
    + split; [unfold count; cbn; lia|]. split; [unfold count; cbn; lia|].
      split; [unfold count; cbn; lia|]. split; [reflexivity|].
      split.
      * intros Hin. exfalso. apply in_app_or in Hin as [Hin|[Hin|[]]]; [|discriminate].
        apply Hfc in Hin. discriminate.
      * intros [Hf|Hf]; [|contradiction].
        unfold SUCCEEDED, FAILED in *. apply Z.leb_gt in Hs. apply Z.ltb_ge in Hf. lia.
Qed.

(** The theorem at work: a window of 640 x 480 resized to 800 x 600. *)
Lemma resize_then_paint_draws_the_new_width_witness :
  count is_DrawLine
    (trace (WndProcCore (obliging_host (SizeU 800 600)) WM_PAINT 0 0
              (state (WndProcCore (obliging_host (SizeU 800 600)) WM_SIZE 0
                        (MAKELPARAM 800 600)
                        (state (OnRender (obliging_host (SizeU 640 480))
                                  (App_ctor line_function)))))))
  = 800%nat.
Proof.
  exact (proj1 (resize_then_paint_draws_the_new_width
                  (obliging_host (SizeU 800 600)) (obliging_host (SizeU 800 600))
                  (state (OnRender (obliging_host (SizeU 640 480)) (App_ctor line_function)))
                  0 0 0 800 600 ltac:(lia) ltac:(lia)
                  ltac:(split; discriminate))).
Defined.

(** ** The arguments the function is sampled at *)

Local Close Scope op_scope.

(** *** Rounding keeps the order, whatever the signs *)







Local Open Scope float_scope.



Local Close Scope float_scope.
Local Open Scope op_scope.

Local Open Scope float_scope.











Local Close Scope float_scope.
